(** * Nuclear gauge simulator: a model of [nuclear_gauge_simulator.py]

    The development embeds the value-generation core of the simulator
    (class [TroxlerGaugeSimulator]) and proves or refutes the properties
    stated for it.

    - Python [float] is IEEE binary64, modelled by the kernel's primitive
      floats; Python [int] is [Z].
    - Exceptions are explicit results ([Raise]); the two pseudo-random
      generators ([numpy.random] and [random]) are tapes of raw draws
      threaded through the calls.
    - The functions of the C library that the interpreter calls ([sin],
      [cos], [pow]) are taken as a parameter [Libm]; nothing is assumed
      about them, except where a statement says so in a hypothesis. *)

From Stdlib Require Import ZArith QArith List String Bool Floats Lia.
Import ListNotations.
Set Warnings "-inexact-float".
Local Open Scope Z_scope.

(** ** Exceptions and results *)

Inductive exn : Set :=
| ValueError | TypeError | OverflowError | ZeroDivisionError | IndexError.

(** The result of running a piece of Python: a value, an exception, or
    [OutOfFuel] when the iteration budget given to a [while] loop ran out
    before the loop ended. *)
Inductive outcome (A : Type) : Type :=
| Ok (a : A)
| Raise (e : exn)
| OutOfFuel.
Arguments Ok {A} a.
Arguments Raise {A} e.
Arguments OutOfFuel {A}.

Class Monad (M : Type -> Type) : Type := {
  ret : forall {A}, A -> M A;
  bind : forall {A B}, M A -> (A -> M B) -> M B
}.

Declare Scope monad_scope.
Delimit Scope monad_scope with monad.
Notation "x <- c ;; k" := (bind c (fun x => k))
  (at level 61, c at next level, right associativity) : monad_scope.
Local Open Scope monad_scope.

#[global] Instance outcome_monad : Monad outcome := {
  ret := fun A a => Ok a;
  bind := fun A B c f =>
    match c with
    | Ok a => f a
    | Raise e => Raise e
    | OutOfFuel => OutOfFuel
    end
}.

(** ** Python numbers on binary64 *)

(** [n / d] for integers [n] and [d > 0], rounded once to the nearest
    binary64 value, ties to even: the quotient is taken with two guard
    bits and a sticky bit before the final rounding. *)
Definition ratio_to_SF (n d : Z) : spec_float :=
  let a := Z.abs n in
  if a =? 0 then S754_zero false
  else
    let k := Z.max 0 (55 + Z.log2 d - Z.log2 a) in
    let q := (a * 2 ^ k) / d in
    let r := (a * 2 ^ k) mod d in
    let m := 2 * q + (if r =? 0 then 0 else 1) in
    binary_normalize prec emax (if n <? 0 then - m else m) (- k - 1) false.

Definition ratio_to_float (n d : Z) : float := SF2Prim (ratio_to_SF n d).

(** A decimal literal of the source, read the way Python reads it: the
    nearest binary64 value. *)
Definition float_lit (q : Q) : float := ratio_to_float (Qnum q) (Zpos (Qden q)).

(** [float(z)]: nearest binary64 value, [OverflowError] when there is none. *)
Definition int_to_float (z : Z) : outcome float :=
  let f := SF2Prim (binary_normalize prec emax z 0 false) in
  if is_infinity f then Raise OverflowError else Ok f.

(** [a / b] on two Python ints (true division): the correctly rounded
    quotient. *)
Definition int_true_divide (a b : Z) : outcome float :=
  if b =? 0 then Raise ZeroDivisionError
  else
    let f := ratio_to_float (if b <? 0 then - a else a) (Z.abs b) in
    if is_infinity f then Raise OverflowError else Ok f.

(** [int(x)] on a float: truncation toward zero. *)
Definition py_int_of_float (x : float) : outcome Z :=
  match Prim2SF x with
  | S754_nan => Raise ValueError
  | S754_infinity _ => Raise OverflowError
  | S754_zero _ => Ok 0
  | S754_finite s m e =>
      let a := if 0 <=? e then Zpos m * 2 ^ e else Zpos m / 2 ^ (- e) in
      Ok (if s then - a else a)
  end.

(** [round(x, 1)]: the exact binary value of [x] is rounded to one decimal
    place, ties to even, and the decimal result is read back as the nearest
    binary64 value. Infinities and NaN round to themselves. *)
Definition py_round1 (x : float) : float :=
  match Prim2SF x with
  | S754_finite s m e =>
      if 0 <=? e then x
      else
        let den := 2 ^ (- e) in
        let t := 10 * Zpos m in
        let q := t / den in
        let r := t mod den in
        let n := if 2 * r <? den then q
                 else if den <? 2 * r then q + 1
                 else if Z.even q then q else q + 1 in
        if n =? 0 then (if s then (-0.0)%float else 0.0%float)
        else ratio_to_float (if s then - n else n) 10
  | _ => x
  end.

(** The built-ins [min(a, b)] and [max(a, b)]: the first argument is kept
    unless the second is strictly smaller (resp. larger). *)
Definition py_min (a b : float) : float := if (b <? a)%float then b else a.
Definition py_max (a b : float) : float := if (a <? b)%float then b else a.
Definition py_min_int (a b : Z) : Z := if b <? a then b else a.
Definition py_max_int (a b : Z) : Z := if a <? b then b else a.

(** [x in s] for a set of floats, and [d.get(key, default)] for a dict with
    string keys. *)
Definition float_in (x : float) (s : list float) : bool :=
  existsb (fun y => (y =? x)%float) s.

Fixpoint dict_get {V : Type} (key : string) (d : list (string * V)) (default : V) : V :=
  match d with
  | [] => default
  | (k, v) :: d' => if (k =? key)%string then v else dict_get key d' default
  end.

Definition dict_keys {V : Type} (d : list (string * V)) : list string := map fst d.

(** [l[i]] on a list: negative indices count from the end. *)
Definition list_get {A : Type} (l : list A) (i : Z) : outcome A :=
  let n := Z.of_nat (List.length l) in
  let j := if i <? 0 then i + n else i in
  if (0 <=? j) && (j <? n) then
    match nth_error l (Z.to_nat j) with
    | Some a => Ok a
    | None => Raise IndexError
    end
  else Raise IndexError.

(** [l[i] = v] for an index in range. *)
Fixpoint list_set {A : Type} (l : list A) (i : nat) (v : A) : list A :=
  match l, i with
  | [], _ => []
  | _ :: l', O => v :: l'
  | a :: l', S i' => a :: list_set l' i' v
  end.

(** [range(lo, hi)] *)
Definition range (lo hi : Z) : list Z :=
  map (fun k => lo + Z.of_nat k) (seq 0 (Z.to_nat (hi - lo))).

(** ** The arithmetic of the base counts

    The pre-perturbation part of the two reading functions is plain
    arithmetic. It is written over the operations the interpreter
    supplies (literals, the conversion of an int operand, true division,
    the float operations and [**]); [float_arithmetic] gives them as the
    interpreter runs them, on binary64 and with the C library's [pow]. *)

(** The value of [x ** 0.5] is a float, or a complex number when [x] is
    negative. *)
Inductive pynum (num : Type) : Type :=
| PyFloat (x : num)
| PyComplex (re im : num).
Arguments PyFloat {num} x.
Arguments PyComplex {num} re im.

Class Arithmetic (num : Type) : Type := {
  lit : Q -> num;                        (* a numeric literal of the source *)
  of_int : Z -> outcome num;             (* an int operand of a float operation *)
  int_div : Z -> Z -> outcome num;       (* int / int *)
  num_add : num -> num -> num;
  num_sub : num -> num -> num;
  num_mul : num -> num -> num;
  pow_half : num -> outcome (pynum num)  (* x ** 0.5 *)
}.

Declare Scope arith_scope.
Delimit Scope arith_scope with arith.
Notation "x + y" := (num_add x y) : arith_scope.
Notation "x - y" := (num_sub x y) : arith_scope.
Notation "x * y" := (num_mul x y) : arith_scope.

(** [a * b] where an operand may be complex: a float operand is promoted
    to a complex number with imaginary part [0.0]. *)
Definition as_complex {num} `{Arithmetic num} (a : pynum num) : num * num :=
  match a with
  | PyFloat x => (x, lit 0)
  | PyComplex re im => (re, im)
  end.

Definition py_mul {num} `{Arithmetic num} (a b : pynum num) : pynum num :=
  match a, b with
  | PyFloat x, PyFloat y => PyFloat (x * y)%arith
  | _, _ =>
      let '(ar, ai) := as_complex a in
      let '(br, bi) := as_complex b in
      PyComplex (ar * br - ai * bi)%arith (ar * bi + ai * br)%arith
  end.

(** The C library behind the interpreter. [c_cpow x y] is the complex power
    the interpreter falls back to for a negative base, as a pair of real and
    imaginary part. *)
Record Libm : Type := {
  c_sin : float -> float;
  c_cos : float -> float;
  c_pow : float -> float -> float;
  c_cpow : float -> float -> float * float
}.

(** [x ** 0.5] on a float, special cases first, as the interpreter sorts
    them out before it calls [pow]; an infinite result of the library is
    reported as [OverflowError]. *)
Definition float_pow_half (libm : Libm) (x : float) : outcome (pynum float) :=
  if is_nan x then Ok (PyFloat x)
  else if is_infinity x then Ok (PyFloat infinity)
  else if (x =? 0)%float then Ok (PyFloat 0%float)
  else if (x <? 0)%float then
    let '(re, im) := c_cpow libm x 0.5%float in
    if is_infinity re || is_infinity im then Raise OverflowError
    else Ok (PyComplex re im)
  else if (x =? 1)%float then Ok (PyFloat 1%float)
  else
    let r := c_pow libm x 0.5%float in
    if is_infinity r then Raise OverflowError else Ok (PyFloat r).

Definition float_arithmetic (libm : Libm) : Arithmetic float := {|
  lit := float_lit;
  of_int := int_to_float;
  int_div := int_true_divide;
  num_add := PrimFloat.add;
  num_sub := PrimFloat.sub;
  num_mul := PrimFloat.mul;
  pow_half := float_pow_half libm
|}.

(** ** The two random generators

    [numpy.random] hands out standard normal variates, [random] hands out
    uniform variates in [0, 1) and raw indices; each call takes the next
    entry of its tape. *)
Record rng : Type := {
  np_gauss : nat -> float;
  np_pos : nat;
  py_unit : nat -> float;
  py_index : nat -> nat;
  py_pos : nat
}.

Definition gen (A : Type) : Type := rng -> outcome (A * rng).

#[global] Instance gen_monad : Monad gen := {
  ret := fun A a r => Ok (a, r);
  bind := fun A B c f r =>
    match c r with
    | Ok (a, r') => f a r'
    | Raise e => Raise e
    | OutOfFuel => OutOfFuel
    end
}.

Definition lift {A : Type} (c : outcome A) : gen A :=
  fun r => match c with
           | Ok a => Ok (a, r)
           | Raise e => Raise e
           | OutOfFuel => OutOfFuel
           end.

Definition np_advance (r : rng) : rng :=
  {| np_gauss := np_gauss r; np_pos := S (np_pos r);
     py_unit := py_unit r; py_index := py_index r; py_pos := py_pos r |}.

Definition py_advance (r : rng) : rng :=
  {| np_gauss := np_gauss r; np_pos := np_pos r;
     py_unit := py_unit r; py_index := py_index r; py_pos := S (py_pos r) |}.

(** The sampler refuses a scale with a negative sign ("scale < 0"). *)
Definition scale_refused (scale : float) : bool :=
  negb (is_nan scale) && get_sign scale.

(** [np.random.normal(loc, scale)]: the next variate, scaled and shifted. *)
Definition np_random_normal (loc scale : float) : gen float :=
  fun r =>
    if scale_refused scale then Raise ValueError
    else Ok ((loc + scale * np_gauss r (np_pos r))%float, np_advance r).

(** [random.uniform(a, b)] *)
Definition random_uniform (a b : float) : gen float :=
  fun r => Ok ((a + (b - a) * py_unit r (py_pos r))%float, py_advance r).

(** [random.choice(seq)] *)
Definition random_choice (seq : list Z) : gen Z :=
  fun r =>
    match seq with
    | [] => Raise IndexError
    | _ => Ok (nth (py_index r (py_pos r) mod List.length seq)%nat seq 0, py_advance r)
    end.

(** ** The simulator *)

Record soil_params : Type := { intercept : Q; slope : Q }.

Record TroxlerGaugeSimulator : Type := {
  model : string;
  serial_number : string;
  calibration_date : string;
  std_density_count : Z;
  std_moisture_count : Z;
  soil_density_equations : list (string * soil_params);
  soil_moisture_factors : list (string * Q)
}.

Local Open Scope Q_scope.
Local Open Scope string_scope.

(** [TroxlerGaugeSimulator.__init__] *)
Definition __init__ (model serial_number : string)
    (std_density_count std_moisture_count : Z) : TroxlerGaugeSimulator :=
  {| model := model;
     serial_number := serial_number;
     calibration_date := "2024-09-15";
     std_density_count := std_density_count;
     std_moisture_count := std_moisture_count;
     soil_density_equations := [
       ("GW (Well-graded gravel)", {| intercept := 3200; slope := -18.5 |});
       ("GP (Poorly graded gravel)", {| intercept := 3150; slope := -18.0 |});
       ("GM (Silty gravel)", {| intercept := 4000; slope := -25.0 |});
       ("GC (Clayey gravel)", {| intercept := 4100; slope := -26.0 |});
       ("SW (Well-graded sand)", {| intercept := 3150; slope := -17.0 |});
       ("SP (Poorly graded sand)", {| intercept := 3100; slope := -16.5 |});
       ("SM (Silty sand)", {| intercept := 5800; slope := -42.0 |});
       ("SC (Clayey sand)", {| intercept := 5000; slope := -35.0 |});
       ("ML (Silt)", {| intercept := 4500; slope := -31.0 |});
       ("CL (Lean clay)", {| intercept := 4200; slope := -29.0 |});
       ("OL (Organic silt/clay, low plasticity)", {| intercept := 4600; slope := -32.0 |});
       ("MH (Elastic silt)", {| intercept := 4400; slope := -30.0 |});
       ("CH (Fat clay)", {| intercept := 4300; slope := -29.5 |});
       ("OH (Organic silt/clay, high plasticity)", {| intercept := 4700; slope := -33.0 |});
       ("PT (Peat)", {| intercept := 5000; slope := -35.0 |});
       ("Type II (Aggregate Base)", {| intercept := 4000; slope := -25.0 |});
       ("Asphalt", {| intercept := 3000; slope := -16.0 |});
       ("Concrete", {| intercept := 2800; slope := -15.0 |})
     ];
     soil_moisture_factors := [
       ("GW (Well-graded gravel)", 1.0);
       ("GP (Poorly graded gravel)", 1.0);
       ("GM (Silty gravel)", 1.1);
       ("GC (Clayey gravel)", 1.1);
       ("SW (Well-graded sand)", 1.0);
       ("SP (Poorly graded sand)", 1.0);
       ("SM (Silty sand)", 1.2);
       ("SC (Clayey sand)", 1.2);
       ("ML (Silt)", 1.3);
       ("CL (Lean clay)", 1.3);
       ("OL (Organic silt/clay, low plasticity)", 1.4);
       ("MH (Elastic silt)", 1.35);
       ("CH (Fat clay)", 1.35);
       ("OH (Organic silt/clay, high plasticity)", 1.4);
       ("PT (Peat)", 1.5);
       ("Type II (Aggregate Base)", 1.1);
       ("Asphalt", 0.9);
       ("Concrete", 0.8)
     ]
  |}.

(** The defaults of the two [.get] calls. *)
Definition default_soil_params : soil_params :=
  {| intercept := 4986; slope := -34.6 |}.
Definition default_moisture_factor : Q := 1.0.

Local Close Scope string_scope.
Local Close Scope Q_scope.

Section BaseCounts.
Context {num : Type} `{Arithmetic num}.
Local Open Scope arith_scope.

(** [calculate_density_count], from the look-up of the coefficients to
    the scaling by the standard count: the value of [base_count] when the
    randomization starts. *)
Definition density_base_from (params : soil_params) (std_density_count : Z)
    (dry_density : num) (depth : string) (measurement_time : num)
    (gauge_depth : Z) : outcome (pynum num) :=
  let intercept := lit (intercept params) in
  let slope := lit (slope params) in
  let base_count := intercept + (slope * dry_density) in
  base_count <-
    (if (depth =? "BS")%string then
       ret (base_count * lit 1.15)
     else
       d <- of_int (gauge_depth - 6)%Z ;;
       let depth_factor := lit 1.0 + (d * lit 0.01) in
       ret (base_count * depth_factor)) ;;
  p <- pow_half measurement_time ;;
  let base_count := py_mul (PyFloat base_count) p in
  std_count_factor <- int_div std_density_count 1570 ;;
  let base_count := py_mul base_count (PyFloat std_count_factor) in
  ret base_count.

Definition density_base_count (self : TroxlerGaugeSimulator)
    (dry_density : num) (depth : string) (measurement_time : num)
    (soil_type : string) (gauge_depth : Z) : outcome (pynum num) :=
  let soil_params :=
    dict_get soil_type (soil_density_equations self) default_soil_params in
  density_base_from soil_params (std_density_count self)
    dry_density depth measurement_time gauge_depth.

(** [calculate_moisture_count], up to the same point. *)
Definition moisture_base_from (soil_factor : Q) (std_moisture_count : Z)
    (moisture_content : num) (measurement_time : num) : outcome (pynum num) :=
  let soil_factor := lit soil_factor in
  let base_count := lit 50 + (lit 9.5 * moisture_content * soil_factor) in
  p <- pow_half measurement_time ;;
  let base_count := py_mul (PyFloat base_count) p in
  std_count_factor <- int_div std_moisture_count 670 ;;
  let base_count := py_mul base_count (PyFloat std_count_factor) in
  ret base_count.

Definition moisture_base_count (self : TroxlerGaugeSimulator)
    (moisture_content : num) (measurement_time : num)
    (soil_type : string) : outcome (pynum num) :=
  let soil_factor :=
    dict_get soil_type (soil_moisture_factors self) default_moisture_factor in
  moisture_base_from soil_factor (std_moisture_count self)
    moisture_content measurement_time.
End BaseCounts.

(** [int(v)]: a complex number is refused. *)
Definition py_int (v : pynum float) : outcome Z :=
  match v with
  | PyFloat x => py_int_of_float x
  | PyComplex _ _ => Raise TypeError
  end.

Record TestRecord : Type := {
  Test_no : Z;
  Density_Count : Z;
  Moisture_Count : Z;
  Wet_Density : float;
  Dry_Density : float;
  Moisture_lbs : float;
  Moisture_pct : float;
  Compaction_pct : float;
  Done : bool
}.

Section Simulator.
Variable libm : Libm.
#[local] Existing Instance float_arithmetic.
Local Open Scope float_scope.

(** The second half of [calculate_density_count]: the noise factor, the
    conversion to an integer, the jitter and the final clamp. *)
Definition randomize_density_count (base_count : pynum float)
    (dry_density : float) : gen Z :=
  let cv := 0.06 in
  let cv_adjusted := cv * (1 + (dry_density / 1000)) in
  let uniqueness_factor := c_sin libm (dry_density * 0.1) * 0.03 in
  g <- np_random_normal 1.0 cv_adjusted ;;
  let randomization := g + uniqueness_factor in
  let randomization := py_max 0.85 (py_min 1.15 randomization) in
  count <- lift (py_int (py_mul (H := float_arithmetic libm)
                           base_count (PyFloat randomization))) ;;
  j <- random_choice [-1; 0; 1]%Z ;;
  let count := (count + j)%Z in
  ret (py_max_int 500 (py_min_int count 2000)).

(** [calculate_density_count] once the coefficients are looked up. *)
Definition density_count_from (params : soil_params) (std_density_count : Z)
    (dry_density wet_density : float) (depth : string)
    (measurement_time : float) (gauge_depth : Z) : gen Z :=
  base_count <- lift (density_base_from (H := float_arithmetic libm)
                        params std_density_count
                        dry_density depth measurement_time gauge_depth) ;;
  randomize_density_count base_count dry_density.

Definition calculate_density_count (self : TroxlerGaugeSimulator)
    (dry_density wet_density : float) (depth : string)
    (measurement_time : float) (soil_type : string) (gauge_depth : Z) : gen Z :=
  let soil_params :=
    dict_get soil_type (soil_density_equations self) default_soil_params in
  density_count_from soil_params (std_density_count self)
    dry_density wet_density depth measurement_time gauge_depth.

Definition randomize_moisture_count (base_count : pynum float)
    (moisture_content : float) : gen Z :=
  let cv := 0.08 in
  let uniqueness_factor := c_cos libm (moisture_content * 0.2) * 0.04 in
  g <- np_random_normal 1.0 cv ;;
  let randomization := g + uniqueness_factor in
  let randomization := py_max 0.82 (py_min 1.18 randomization) in
  count <- lift (py_int (py_mul (H := float_arithmetic libm)
                           base_count (PyFloat randomization))) ;;
  j <- random_choice [-1; 0; 1]%Z ;;
  let count := (count + j)%Z in
  ret (py_max_int 50 (py_min_int count 500)).

Definition moisture_count_from (soil_factor : Q) (std_moisture_count : Z)
    (moisture_content : float) (measurement_time : float) : gen Z :=
  base_count <- lift (moisture_base_from (H := float_arithmetic libm)
                        soil_factor std_moisture_count
                        moisture_content measurement_time) ;;
  randomize_moisture_count base_count moisture_content.

Definition calculate_moisture_count (self : TroxlerGaugeSimulator)
    (moisture_content : float) (measurement_time : float)
    (soil_type : string) : gen Z :=
  let soil_factor :=
    dict_get soil_type (soil_moisture_factors self) default_moisture_factor in
  moisture_count_from soil_factor (std_moisture_count self)
    moisture_content measurement_time.

(** *** [generate_sample_tests] *)

(** The first loop: [num_tests] compaction values, truncated then
    rounded. *)
Fixpoint draw_compactions (n : nat) (compactions : list float) : gen (list float) :=
  match n with
  | O => ret compactions
  | S n' =>
      comp <- np_random_normal 96.5 0.8 ;;
      let comp := py_max 95.0 (py_min 98.0 comp) in
      let comp := py_round1 comp in
      draw_compactions n' (compactions ++ [comp])
  end.

(** The retry loop [while x in used: x = round(x + uniform(-0.2, 0.2), 1);
    x = max(lo, min(hi, x))]; [fuel] bounds its iterations. *)
Fixpoint dedupe_while (fuel : nat) (lo hi : float) (x : float)
    (used : list float) {struct fuel} : gen float :=
  if float_in x used then
    match fuel with
    | O => fun _ => OutOfFuel
    | S fuel' =>
        u <- random_uniform (-0.2) 0.2 ;;
        let x := py_round1 (x + u) in
        let x := py_max lo (py_min hi x) in
        dedupe_while fuel' lo hi x used
    end
  else ret x.

(** The second loop, over the indices of [compactions], with the set
    [used_values]. *)
Fixpoint dedupe_compactions (fuel : nat) (indices : list nat)
    (compactions used_values : list float) : gen (list float) :=
  match indices with
  | [] => ret compactions
  | i :: rest =>
      c <- lift (list_get compactions (Z.of_nat i)) ;;
      c <- dedupe_while fuel 95.0 98.0 c used_values ;;
      let compactions := list_set compactions i c in
      dedupe_compactions fuel rest compactions (c :: used_values)
  end.

(** The third loop: moisture values, drawn and de-duplicated one by one. *)
Fixpoint draw_moistures (fuel : nat) (n : nat) (optimum_moisture : float)
    (moistures used_moisture_values : list float) : gen (list float) :=
  match n with
  | O => ret moistures
  | S n' =>
      moist <- np_random_normal optimum_moisture 0.8 ;;
      let moist := py_max (optimum_moisture - 2.0)
                          (py_min (optimum_moisture + 2.0) moist) in
      let moist := py_round1 moist in
      moist <- dedupe_while fuel (optimum_moisture - 2.0)
                 (optimum_moisture + 2.0) moist used_moisture_values ;;
      draw_moistures fuel n' optimum_moisture
        (moistures ++ [moist]) (moist :: used_moisture_values)
  end.

(** The body of the last loop, for test number [i]. *)
Definition make_record (self : TroxlerGaugeSimulator)
    (max_dry_density : float) (depth_mode : string) (test_duration : float)
    (soil_type : string) (gauge_depth : Z)
    (compactions moistures : list float) (i : Z) : gen TestRecord :=
  compaction_percentage <- lift (list_get compactions (i - 1)) ;;
  moisture_content <- lift (list_get moistures (i - 1)) ;;
  let dry_density := py_round1 ((compaction_percentage / 100) * max_dry_density) in
  let wet_density := py_round1 (dry_density * (1 + moisture_content / 100)) in
  let moisture_lbs := py_round1 (wet_density - dry_density) in
  density_count <- calculate_density_count self dry_density wet_density
                     depth_mode test_duration soil_type gauge_depth ;;
  moisture_count <- calculate_moisture_count self moisture_content
                      test_duration soil_type ;;
  ret {| Test_no := i;
         Density_Count := density_count;
         Moisture_Count := moisture_count;
         Wet_Density := wet_density;
         Dry_Density := dry_density;
         Moisture_lbs := moisture_lbs;
         Moisture_pct := moisture_content;
         Compaction_pct := compaction_percentage;
         Done := false |}.

Fixpoint build_results (self : TroxlerGaugeSimulator)
    (max_dry_density : float) (depth_mode : string) (test_duration : float)
    (soil_type : string) (gauge_depth : Z)
    (compactions moistures : list float)
    (tests : list Z) (results : list TestRecord) : gen (list TestRecord) :=
  match tests with
  | [] => ret results
  | i :: rest =>
      r <- make_record self max_dry_density depth_mode test_duration
             soil_type gauge_depth compactions moistures i ;;
      build_results self max_dry_density depth_mode test_duration
        soil_type gauge_depth compactions moistures rest (results ++ [r])
  end.

Definition generate_sample_tests (fuel : nat) (self : TroxlerGaugeSimulator)
    (max_dry_density optimum_moisture : float) (num_tests : Z)
    (depth_mode : string) (test_duration : float) (soil_type : string)
    (gauge_depth : Z) : gen (list TestRecord) :=
  compactions <- draw_compactions (Z.to_nat num_tests) [] ;;
  compactions <- dedupe_compactions fuel (seq 0 (List.length compactions))
                   compactions [] ;;
  moistures <- draw_moistures fuel (Z.to_nat num_tests) optimum_moisture [] [] ;;
  build_results self max_dry_density depth_mode test_duration soil_type
    gauge_depth compactions moistures (range 1 (num_tests + 1)) [].
End Simulator.

(** ** A reference platform for concrete runs

    [sin] and [cos] by argument reduction and a Taylor polynomial (accurate
    to about ten decimal places), the half power by the correctly rounded
    square root. The general theorems below hold for every [Libm]; this one
    only serves to run the model on concrete inputs. *)
Module Reference.
Local Open Scope float_scope.

Definition two_pi : float := 6.283185307179586.

Definition reduce_angle (x : float) : float :=
  match py_int_of_float (x / two_pi + (if x <? 0 then -0.5 else 0.5)) with
  | Ok k =>
      match int_to_float k with
      | Ok kf => x - kf * two_pi
      | _ => nan
      end
  | _ => nan
  end.

(** [1 - x2/(k(k+1)) * (1 - x2/((k+2)(k+3)) * ...)], [n] factors deep. *)
Fixpoint series (n : nat) (k : float) (x2 : float) : float :=
  match n with
  | O => 1
  | S n' => 1 - x2 / (k * (k + 1)) * series n' (k + 2) x2
  end.

Definition sin (x : float) : float :=
  let r := reduce_angle x in r * series 12 2 (r * r).

Definition cos (x : float) : float :=
  let r := reduce_angle x in series 12 1 (r * r).

Definition libm : Libm := {|
  c_sin := sin;
  c_cos := cos;
  c_pow := fun x _ => PrimFloat.sqrt x;
  c_cpow := fun x _ =>
    let len := PrimFloat.sqrt (abs x) in
    (len * 6.123233995736766e-17, len * 1)
|}.

(** A generator whose normal variates are all [g], whose uniform variates
    are all [u] and whose raw indices are all [k]. *)
Definition constant_rng (g u : float) (k : nat) : rng :=
  {| np_gauss := fun _ => g; np_pos := 0;
     py_unit := fun _ => u; py_index := fun _ => k; py_pos := 0 |}.

(** A generator that reads its variates off finite lists, then repeats
    the last-resort values [0.0], [0.5] and index [1]. *)
Definition tape_rng (gs us : list float) (ks : list nat) : rng :=
  {| np_gauss := fun i => nth i gs 0; np_pos := 0;
     py_unit := fun i => nth i us 0.5; py_index := fun i => nth i ks 1%nat;
     py_pos := 0 |}.
End Reference.

(** ** Concrete inputs for the examples *)

(** The instance the front end builds from its default fields. *)
Definition default_simulator : TroxlerGaugeSimulator :=
  __init__ "3440" "12345" 1570 670.

Definition quiet_rng : rng := Reference.constant_rng 0 0.5 1.

(** Draws for a batch of three in which the third compaction value and the
    third moisture value first repeat an earlier one and are retried. *)
Definition retry_rng : rng :=
  Reference.tape_rng [0.1; -0.3; 0.11; -3; 0.2; 0.21]%float
    [0.9; 0.1; 0.7]%float [0; 1; 2]%nat.

(** Draws for a batch of one: the compaction variate, then the moisture
    variate. *)
Definition plain_rng : rng := Reference.tape_rng [0.1; 0.0]%float [] [].

(** The same with a moisture variate three standard deviations low. *)
Definition low_moisture_rng : rng := Reference.tape_rng [0.1; -3.0]%float [] [].

(** ** Vocabulary of the statements *)

(** [key in d] *)
Definition dict_has {V : Type} (key : string) (d : list (string * V)) : bool :=
  existsb (fun k => (k =? key)%string) (dict_keys d).

(** Two instances that differ at most in the labels [model] and
    [serial_number]. *)
Definition same_calibration (a b : TroxlerGaugeSimulator) : Prop :=
  calibration_date a = calibration_date b /\
  std_density_count a = std_density_count b /\
  std_moisture_count a = std_moisture_count b /\
  soil_density_equations a = soil_density_equations b /\
  soil_moisture_factors a = soil_moisture_factors b.

(** [lo <= x <= hi] as the interpreter compares floats. *)
Definition within (lo hi x : float) : bool :=
  (lo <=? x)%float && (x <=? hi)%float.

(** The numerators [n] of the one-decimal values [n / 10] from 95.0 to 98.0. *)
Definition tenths_in_range : list Z := range 950 981.

(** No two entries of the list compare equal with [==]. *)
Fixpoint all_distinct (l : list float) : bool :=
  match l with
  | [] => true
  | x :: l' => negb (float_in x l') && all_distinct l'
  end.

(** What the last loop of [generate_sample_tests] stores in the record of
    test number [i]. *)
Definition record_of (max_dry_density : float) (compactions moistures : list float)
    (i : Z) (rec : TestRecord) : Prop :=
  list_get compactions (i - 1) = Ok (Compaction_pct rec) /\
  list_get moistures (i - 1) = Ok (Moisture_pct rec) /\
  Dry_Density rec
  = py_round1 ((Compaction_pct rec / 100) * max_dry_density)%float /\
  Wet_Density rec
  = py_round1 (Dry_Density rec * (1 + Moisture_pct rec / 100))%float /\
  Moisture_lbs rec = py_round1 (Wet_Density rec - Dry_Density rec)%float /\
  Test_no rec = i /\ Done rec = false.

(** The value of a run, without the final state of the generators. *)
Definition value {A : Type} (o : outcome (A * rng)) : outcome A :=
  match o with
  | Ok (a, _) => Ok a
  | Raise e => Raise e
  | OutOfFuel => OutOfFuel
  end.

Section NoiseFactors.
Variable libm : Libm.
Local Open Scope float_scope.

(** The scale handed to the normal sampler and the clamped noise factor of
    [calculate_density_count], as functions of the dry density and of the
    normal variate [g] that the call draws. *)
Definition density_cv_adjusted (dry_density : float) : float :=
  0.06 * (1 + (dry_density / 1000)).

Definition density_randomization (dry_density g : float) : float :=
  py_max 0.85
    (py_min 1.15
       ((1.0 + density_cv_adjusted dry_density * g)
        + c_sin libm (dry_density * 0.1) * 0.03)).

Definition moisture_randomization (moisture_content g : float) : float :=
  py_max 0.82
    (py_min 1.18
       ((1.0 + 0.08 * g) + c_cos libm (moisture_content * 0.2) * 0.04)).

(** The inputs on which the reading functions return: the base count is a
    float (not complex, no conversion overflowed), the sampler accepts its
    scale, and the perturbed count is finite. *)
Definition density_returns (self : TroxlerGaugeSimulator)
    (dry_density : float) (depth : string) (measurement_time : float)
    (soil_type : string) (gauge_depth : Z) (r : rng) : bool :=
  match density_base_count (H := float_arithmetic libm) self dry_density
          depth measurement_time soil_type gauge_depth with
  | Ok (PyFloat b) =>
      negb (scale_refused (density_cv_adjusted dry_density))
      && is_finite (b * density_randomization dry_density (np_gauss r (np_pos r)))
  | _ => false
  end.

Definition moisture_returns (self : TroxlerGaugeSimulator)
    (moisture_content : float) (measurement_time : float)
    (soil_type : string) (r : rng) : bool :=
  match moisture_base_count (H := float_arithmetic libm) self
          moisture_content measurement_time soil_type with
  | Ok (PyFloat b) =>
      is_finite (b * moisture_randomization moisture_content (np_gauss r (np_pos r)))
  | _ => false
  end.
End NoiseFactors.

(** ** The soil descriptions

    Class [SoilDescriptions]: three tables of texts, keyed by soil type. *)

Record SoilDescriptions : Type := {
  soil_descriptions : list (string * string);
  field_characteristics : list (string * string);
  typical_uses : list (string * string)
}.

Local Open Scope string_scope.

(** The double-quote character, which two texts of the source contain. *)
Definition double_quote : string := String (Ascii.ascii_of_nat 34) EmptyString.

(** [SoilDescriptions.__init__] *)
Definition SoilDescriptions_init : SoilDescriptions :=
  {|
     soil_descriptions := [
       ("GW (Well-graded gravel)",
        "Wide range of particle sizes, good distribution, little or no fines.");
       ("GP (Poorly graded gravel)",
        "Predominantly one size or missing some sizes, little or no fines.");
       ("GM (Silty gravel)",
        "Gravel with significant silt content, low to no plasticity.");
       ("GC (Clayey gravel)",
        "Gravel with significant clay content, plastic fines.");
       ("SW (Well-graded sand)",
        "Wide range of sand sizes, good distribution, little or no fines.");
       ("SP (Poorly graded sand)",
        "Predominantly one size or missing some sizes, little or no fines.");
       ("SM (Silty sand)",
        "Sand with significant silt content, low to no plasticity.");
       ("SC (Clayey sand)",
        "Sand with significant clay content, plastic fines.");
       ("ML (Silt)",
        "Low plasticity silts, rock flour, silty or clayey fine sands.");
       ("CL (Lean clay)",
        "Low to medium plasticity clays, gravelly/sandy/silty clays.");
       ("OL (Organic silt/clay, low plasticity)",
        "Low plasticity organic silts and clays.");
       ("MH (Elastic silt)",
        "High plasticity silts, micaceous or diatomaceous fine sands and silts.");
       ("CH (Fat clay)",
        "High plasticity clays, high swelling potential.");
       ("OH (Organic silt/clay, high plasticity)",
        "High plasticity organic clays.");
       ("PT (Peat)",
        "Peat, humus, swamp soils with high organic content.");
       ("Type II (Aggregate Base)",
        "Crushed aggregate base course meeting Type II specifications.");
       ("Asphalt",
        "Asphalt concrete paving material, bituminous mixture.");
       ("Concrete",
        "Portland cement concrete, hardened cementitious material.")
     ];
     field_characteristics := [
       ("GW (Well-graded gravel)",
        "Field ID: No plasticity, coarse with varied sizes. Good compaction.");
       ("GP (Poorly graded gravel)",
        "Field ID: No plasticity, uniform size. Moderate compaction.");
       ("GM (Silty gravel)",
        "Field ID: Slight plasticity when wet, dusty when dry.");
       ("GC (Clayey gravel)",
        "Field ID: Plasticity present, can roll thin threads when moist.");
       ("SW (Well-graded sand)",
        "Field ID: Granular feel, varied grain sizes, no cohesion.");
       ("SP (Poorly graded sand)",
        "Field ID: Uniform grain size, no cohesion.");
       ("SM (Silty sand)",
        "Field ID: Slight plasticity when wet, dusty when dry.");
       ("SC (Clayey sand)",
        "Field ID: Plasticity present, can form ribbons when moist.");
       ("ML (Silt)",
        "Field ID: Low plasticity, feels smooth, slightly sticky. Dilatant reaction.");
       ("CL (Lean clay)",
        ("Field ID: Medium plasticity, can form ribbons 1" ++ double_quote ++ "-2" ++ double_quote ++ ", moderate strength."));
       ("OL (Organic silt/clay, low plasticity)",
        "Field ID: Dark color, organic odor, low plasticity.");
       ("MH (Elastic silt)",
        "Field ID: Smooth, buttery feel. High dilatant reaction.");
       ("CH (Fat clay)",
        ("Field ID: High plasticity, can form ribbons >2" ++ double_quote ++ ", high strength."));
       ("OH (Organic silt/clay, high plasticity)",
        "Field ID: Dark color, organic odor, high plasticity.");
       ("PT (Peat)",
        "Field ID: Very fibrous, organic odor, dark brown to black color.");
       ("Type II (Aggregate Base)",
        "Field ID: Crushed stone mixture with fines, angular particles.");
       ("Asphalt",
        "Field ID: Black color, petroleum odor, thermoplastic behavior.");
       ("Concrete",
        "Field ID: Gray, very hard, composed of cement paste and aggregate.")
     ];
     typical_uses := [
       ("GW (Well-graded gravel)",
        "Typical Uses: Road bases, backfill, drainage layers.");
       ("GP (Poorly graded gravel)",
        "Typical Uses: Drainage material, filter material.");
       ("GM (Silty gravel)",
        "Typical Uses: Road bases, embankments, structural fill.");
       ("GC (Clayey gravel)",
        "Typical Uses: Liners, road bases with proper drainage.");
       ("SW (Well-graded sand)",
        "Typical Uses: Structural fill, backfill, concrete sand.");
       ("SP (Poorly graded sand)",
        "Typical Uses: Drainage material, bedding material.");
       ("SM (Silty sand)",
        "Typical Uses: Fills, embankments, subgrades.");
       ("SC (Clayey sand)",
        "Typical Uses: Liners, cores, fills with controlled permeability.");
       ("ML (Silt)",
        "Typical Uses: General fill, embankments (with proper compaction).");
       ("CL (Lean clay)",
        "Typical Uses: Liners, cores, fills with low permeability.");
       ("OL (Organic silt/clay, low plasticity)",
        "Typical Uses: Not suitable for engineering use.");
       ("MH (Elastic silt)",
        "Typical Uses: Not recommended for structural uses.");
       ("CH (Fat clay)",
        "Typical Uses: Liners, slurry walls, barriers.");
       ("OH (Organic silt/clay, high plasticity)",
        "Typical Uses: Not suitable for engineering use.");
       ("PT (Peat)",
        "Typical Uses: Must be removed from construction areas.");
       ("Type II (Aggregate Base)",
        "Typical Uses: Road bases, structural fill, foundation support.");
       ("Asphalt",
        "Typical Uses: Pavements, waterproofing, roofing.");
       ("Concrete",
        "Typical Uses: Structural elements, pavements, foundation support.")
     ]
  |}.

(** [SoilDescriptions.get_soil_descriptions] *)
Definition get_soil_descriptions (self : SoilDescriptions) (soil_type : string)
    : list string :=
  if negb (dict_has soil_type (soil_descriptions self)) then
    [ "No specific information available for this soil type.";
      "Please refer to UCSC classification guidelines.";
      "Consult field testing manual for identification guidelines." ]
  else
    [ dict_get soil_type (soil_descriptions self) "Unknown soil type";
      dict_get soil_type (field_characteristics self)
        "Field identification details not available";
      dict_get soil_type (typical_uses self)
        "Typical usage information not available" ].

(** The list [soil_types] that the front end offers in its menu
    ([streamlit_app.py]). *)
Definition soil_types : list string := [
  "GW (Well-graded gravel)";
  "GP (Poorly graded gravel)";
  "GM (Silty gravel)";
  "GC (Clayey gravel)";
  "SW (Well-graded sand)";
  "SP (Poorly graded sand)";
  "SM (Silty sand)";
  "SC (Clayey sand)";
  "ML (Silt)";
  "CL (Lean clay)";
  "OL (Organic silt/clay, low plasticity)";
  "MH (Elastic silt)";
  "CH (Fat clay)";
  "OH (Organic silt/clay, high plasticity)";
  "PT (Peat)";
  "Type II (Aggregate Base)";
  "Asphalt";
  "Concrete"
].

Local Close Scope string_scope.

(** ** Vocabulary of the further properties *)

(** The one-decimal values 95.0, 95.1, ..., 98.0. *)
Definition compaction_tenths : list float :=
  map (fun n => ratio_to_float n 10) tenths_in_range.

(** The uniform variates of the tape keep every retried compaction value
    between 64 and 127, as variates in [0, 1) do: the retried value is a
    compaction value plus [-0.2 + (0.2 - -0.2) * u]. *)
Definition retries_stay_close (r : rng) : Prop :=
  forall (i : nat) (c : float),
    In c compaction_tenths ->
    within 64 127 (c + (-0.2 + (0.2 - -0.2) * py_unit r i))%float = true.

(** The exceptions that a reading can raise. *)
Definition reading_error (e : exn) : Prop :=
  e = ValueError \/ e = TypeError \/ e = OverflowError.

(** A run that did not return a value. *)
Definition no_result {A : Type} (o : outcome A) : Prop :=
  (exists e, o = Raise e) \/ o = OutOfFuel.

(** A moisture value is in range, or the rounding of a value in range. *)
Definition near_range (lo hi y : float) : Prop :=
  within lo hi y = true \/ exists z, within lo hi z = true /\ y = py_round1 z.

(** The state of the generators after [k] normal variates and at least [j]
    draws of [random]. *)
Definition consumed (k j : nat) (r r' : rng) : Prop :=
  np_pos r' = (np_pos r + k)%nat /\ (py_pos r + j <= py_pos r')%nat.

(** ** The formulas of the specification, in binary64

    The specification gives the base counts as formulas. They are read
    here in binary64 and evaluated from left to right: [sqrt] is the
    correctly rounded square root, an integer and a quotient of two
    integers are the nearest binary64 values. *)

(** The integer [z] as a binary64 value. *)
Definition binary64_of_Z (z : Z) : float :=
  SF2Prim (binary_normalize prec emax z 0 false).

(** "multiply by 1.15 in backscatter mode, else by
    [1 + (gauge_depth - 6) * 0.01]" *)
Definition spec_depth_factor (depth : string) (gauge_depth : Z) : float :=
  if (depth =? "BS")%string then float_lit 1.15
  else (float_lit 1 + binary64_of_Z (gauge_depth - 6) * float_lit 0.01)%float.

(** "[intercept + slope * dry_density], times the depth-mode factor, times
    [sqrt(measurement_duration)], times [density_standard_count / 1570]" *)
Definition density_base_formula (self : TroxlerGaugeSimulator)
    (dry_density : float) (depth : string) (measurement_duration : float)
    (soil_type : string) (gauge_depth : Z) : float :=
  let c := dict_get soil_type (soil_density_equations self) default_soil_params in
  ((float_lit (intercept c) + float_lit (slope c) * dry_density)
   * spec_depth_factor depth gauge_depth
   * PrimFloat.sqrt measurement_duration
   * float_lit (std_density_count self # 1570))%float.

(** "[50 + 9.5 * moisture_pct * moisture_factor], times
    [sqrt(measurement_duration)], times [moisture_standard_count / 670]" *)
Definition moisture_base_formula (self : TroxlerGaugeSimulator)
    (moisture_pct : float) (measurement_duration : float)
    (soil_type : string) : float :=
  let f := dict_get soil_type (soil_moisture_factors self) default_moisture_factor in
  ((float_lit 50 + float_lit 9.5 * moisture_pct * float_lit f)
   * PrimFloat.sqrt measurement_duration
   * float_lit (std_moisture_count self # 670))%float.

(** An integer of the formula has no binary64 value: the gauge depth
    (outside backscatter mode) or the ratio of the standard count is too
    large. *)
Definition density_base_overflows (self : TroxlerGaugeSimulator)
    (depth : string) (gauge_depth : Z) : bool :=
  (negb (depth =? "BS")%string && is_infinity (binary64_of_Z (gauge_depth - 6)))
  || is_infinity (float_lit (std_density_count self # 1570)).

Definition moisture_base_overflows (self : TroxlerGaugeSimulator) : bool :=
  is_infinity (float_lit (std_moisture_count self # 670)).

(** Two runs of a base count, at durations [d1] and [d2]: both refuse an
    integer that is too large, or both give a binary64 product
    [x * sqrt d * f] with the same [x] and [f], the second one not smaller
    in magnitude than the first unless one of them is NaN. *)
Definition grows_by_root (d1 d2 : float) (o1 o2 : outcome (pynum float)) : Prop :=
  (o1 = Raise OverflowError /\ o2 = Raise OverflowError) \/
  exists x f : float,
    let b1 := (x * PrimFloat.sqrt d1 * f)%float in
    let b2 := (x * PrimFloat.sqrt d2 * f)%float in
    o1 = Ok (PyFloat b1) /\ o2 = Ok (PyFloat b2) /\
    is_nan b1 || is_nan b2 || (abs b1 <=? abs b2)%float = true.

(** ** Vocabulary of binary64 rounding *)

(** [m / 2^n] counted in halves, rounded down, and whether anything was
    lost: the round bit and the sticky bit of a right shift by [n]. *)
Definition half_units (m n : Z) : Z := (2 * m) / 2 ^ n.
Definition sticky (m n : Z) : bool := negb ((2 * m) mod 2 ^ n =? 0).

(** [m / 2^n] rounded to the nearest integer, ties to even. *)
Definition round_shift (m n : Z) : Z :=
  let h := half_units m n in
  round_nearest_even (h / 2)
    (loc_of_shr_record (Build_shr_record (h / 2) (Z.odd h) (sticky m n))).

(** The binary64 value [q * 2^E] for a mantissa [q] of at most 54 bits:
    a 54-bit mantissa loses its last bit, a result beyond the largest
    exponent is an infinity. *)
Definition pack (s : bool) (q E : Z) : spec_float :=
  let n := Z.max 0 (Zdigits2 q - prec) in
  match q / 2 ^ n with
  | Z0 => S754_zero s
  | Zpos mf =>
      if E + n <=? emax - prec then S754_finite s mf (E + n)
      else S754_infinity s
  | Zneg _ => S754_nan
  end.

(** The integer nearest to the square root of [n]. *)
Definition sqrt_round (n : Z) : Z :=
  let q := Z.sqrt n in if q <? n - q * q then q + 1 else q.

(** The signed integer mantissa of a finite float ([0] for a zero) and its
    exponent ([d] for a zero, which has none). *)
Definition signed_mantissa (x : spec_float) : Z :=
  match x with
  | S754_finite s m _ => cond_Zopp s (Zpos m)
  | _ => 0
  end.

Definition exponent_or (x : spec_float) (d : Z) : Z :=
  match x with
  | S754_finite _ _ e => e
  | _ => d
  end.

(** Two runs of a base count: both refuse an integer that is too large,
    or both give a float, the first not above the second unless one of
    them is NaN. *)
Definition ordered_bases (o1 o2 : outcome (pynum float)) : Prop :=
  match o1, o2 with
  | Ok (PyFloat b1), Ok (PyFloat b2) =>
      is_nan b1 || is_nan b2 || (b1 <=? b2)%float = true
  | Raise OverflowError, Raise OverflowError => True
  | _, _ => False
  end.

(** * Properties *)

(** ** Facts on binary64 comparisons *)

Lemma SFcompare_Eq_sym (a b : spec_float) :
  SFcompare a b = Some Eq -> SFcompare b a = Some Eq.
Proof.
  destruct a as [sa|sa| |sa ma ea], b as [sb|sb| |sb mb eb]; simpl;
    try discriminate; try reflexivity;
    try (destruct sa; discriminate); try (destruct sb; discriminate);
    try (destruct sa, sb; (discriminate || reflexivity)).
  destruct sa, sb; try discriminate.
  - destruct (Z.compare_spec ea eb) as [E|L|G]; try discriminate.
    subst. rewrite Z.compare_refl.
    intros Hc. injection Hc as Hc. f_equal.
    destruct (Pos.compare_cont Eq ma mb) eqn:C; try discriminate.
    apply Pos.compare_eq in C. subst. now rewrite Pos.compare_cont_refl.
  - destruct (Z.compare_spec ea eb) as [E|L|G]; try discriminate.
    subst. rewrite Z.compare_refl.
    intros Hc. injection Hc as Hc.
    apply Pos.compare_eq in Hc. subst. now rewrite Pos.compare_cont_refl.
Qed.

Lemma float_eqb_sym (x y : float) : (x =? y)%float = (y =? x)%float.
Proof.
  rewrite !eqb_spec. unfold SFeqb.
  destruct (SFcompare (Prim2SF x) (Prim2SF y)) as [[| |]|] eqn:A;
  destruct (SFcompare (Prim2SF y) (Prim2SF x)) as [[| |]|] eqn:B;
    try reflexivity;
    first [ apply SFcompare_Eq_sym in A | apply SFcompare_Eq_sym in B ];
    congruence.
Qed.

Lemma SFcompare_refl_finite (s : bool) (m : positive) (e : Z) :
  SFcompare (S754_finite s m e) (S754_finite s m e) = Some Eq.
Proof.
  simpl. rewrite Z.compare_refl, Pos.compare_cont_refl. now destruct s.
Qed.

Lemma is_nan_Prim2SF (x : float) :
  is_nan x = match Prim2SF x with S754_nan => true | _ => false end.
Proof.
  unfold is_nan. rewrite eqb_spec. unfold SFeqb.
  destruct (Prim2SF x) as [s|s| |s m e]; try reflexivity.
  - now destruct s.
  - now rewrite SFcompare_refl_finite.
Qed.

Lemma is_infinity_Prim2SF (x : float) :
  is_infinity x = match Prim2SF x with S754_infinity _ => true | _ => false end.
Proof.
  unfold is_infinity. rewrite eqb_spec, abs_spec. unfold SFeqb.
  replace (Prim2SF infinity) with (S754_infinity false) by reflexivity.
  destruct (Prim2SF x) as [s|s| |s m e]; reflexivity.
Qed.

Lemma is_finite_Prim2SF (x : float) :
  is_finite x =
  match Prim2SF x with
  | S754_zero _ | S754_finite _ _ _ => true
  | _ => false
  end.
Proof.
  unfold is_finite. rewrite is_nan_Prim2SF, is_infinity_Prim2SF.
  destruct (Prim2SF x); reflexivity.
Qed.

(** [int(x)] succeeds exactly on the finite floats. *)
Lemma py_int_of_float_finite (x : float) :
  is_finite x = true <-> exists z, py_int_of_float x = Ok z.
Proof.
  rewrite is_finite_Prim2SF. unfold py_int_of_float.
  destruct (Prim2SF x) as [s|s| |s m e]; split; intros H;
    try discriminate; try reflexivity; try (eexists; reflexivity);
    destruct H as [z H]; discriminate.
Qed.

Lemma ltb_true_is_nan (x y : float) : (x <? y)%float = true -> is_nan x = false.
Proof.
  rewrite ltb_spec, is_nan_Prim2SF. unfold SFltb.
  destruct (Prim2SF x); try reflexivity. simpl. discriminate.
Qed.

Lemma ltb_true_eqb (x y : float) : (x <? y)%float = true -> (x =? y)%float = false.
Proof.
  rewrite ltb_spec, eqb_spec. unfold SFltb, SFeqb.
  destruct (SFcompare (Prim2SF x) (Prim2SF y)) as [[| |]|]; congruence.
Qed.

(** ** Binary64 rounding is monotone *)

Lemma digits2_pos_size (m : positive) : digits2_pos m = Pos.size m.
Proof. induction m; cbn; congruence. Qed.

Lemma digits2_log2 (m : positive) : Zpos (digits2_pos m) = Z.log2 (Zpos m) + 1.
Proof.
  rewrite digits2_pos_size. destruct m; cbn; try reflexivity.
  - rewrite Pos.add_1_r. reflexivity.
  - rewrite Pos.add_1_r. reflexivity.
Qed.

Lemma digits2_bounds (m : positive) :
  2 ^ (Zpos (digits2_pos m) - 1) <= Zpos m < 2 ^ Zpos (digits2_pos m).
Proof.
  rewrite digits2_log2.
  replace (Z.log2 (Zpos m) + 1 - 1) with (Z.log2 (Zpos m)) by lia.
  apply Z.log2_spec. lia.
Qed.

Lemma Zdigits2_nonneg (q : Z) : 0 <= Zdigits2 q.
Proof. destruct q; cbn; lia. Qed.

Lemma Zdigits2_bounds (q : Z) :
  0 < q -> 1 <= Zdigits2 q /\ 2 ^ (Zdigits2 q - 1) <= q < 2 ^ Zdigits2 q.
Proof.
  destruct q as [|p|p]; try lia. intros _. cbn [Zdigits2].
  split; [lia | apply digits2_bounds].
Qed.

Lemma Zdigits2_mono (q1 q2 : Z) : 0 <= q1 <= q2 -> Zdigits2 q1 <= Zdigits2 q2.
Proof.
  intros [H1 H2].
  destruct q1 as [|p1|p1]; [apply Zdigits2_nonneg| |lia].
  destruct q2 as [|p2|p2]; try lia.
  cbn [Zdigits2]. rewrite !digits2_log2.
  apply Z.add_le_mono_r, Z.log2_le_mono. exact H2.
Qed.

Lemma iter_pos_nat {A : Type} (f : A -> A) (p : positive) :
  forall x, SpecFloat.iter_pos f p x = Nat.iter (Pos.to_nat p) f x.
Proof.
  induction p as [p IH|p IH|]; intros x; cbn [SpecFloat.iter_pos].
  - rewrite !IH, Pos2Nat.inj_xI.
    rewrite <- Nat.iter_add, Nat.iter_succ_r.
    f_equal. lia.
  - rewrite !IH, Pos2Nat.inj_xO, <- Nat.iter_add. f_equal. lia.
  - reflexivity.
Qed.

Lemma shr_1_nonneg (q : Z) (r s : bool) :
  0 <= q ->
  shr_1 (Build_shr_record q r s) = Build_shr_record (q / 2) (Z.odd q) (r || s).
Proof.
  intros Hq. rewrite <- Z.div2_div.
  destruct q as [|[p|p|]|p]; try reflexivity. lia.
Qed.

Lemma iter_shr_1 (m : Z) (n : nat) :
  0 <= m ->
  Nat.iter (S n) shr_1 (Build_shr_record m false false) =
  Build_shr_record (m / 2 ^ (Z.of_nat n + 1)) (Z.odd (m / 2 ^ Z.of_nat n))
    (negb (m mod 2 ^ Z.of_nat n =? 0)).
Proof.
  intros Hm. induction n as [|n IH].
  - cbn [Nat.iter]. rewrite shr_1_nonneg by exact Hm.
    cbn [Z.of_nat Z.add]. rewrite Z.pow_0_r, Z.pow_1_r, Z.div_1_r, Z.mod_1_r.
    reflexivity.
  - change (Nat.iter (S (S n)) shr_1 ?x) with (shr_1 (Nat.iter (S n) shr_1 x)).
    rewrite IH.
    assert (Hp : 0 < 2 ^ Z.of_nat n) by (apply Z.pow_pos_nonneg; lia).
    rewrite shr_1_nonneg
      by (apply Z.div_pos; [exact Hm | apply Z.pow_pos_nonneg; lia]).
    replace (Z.of_nat (S n)) with (Z.of_nat n + 1) by lia.
    rewrite Z.div_div by lia.
    replace (2 ^ (Z.of_nat n + 1 + 1)) with (2 ^ (Z.of_nat n + 1) * 2)
      by (rewrite (Z.pow_add_r 2 (Z.of_nat n + 1) 1) by lia; reflexivity).
    f_equal.
    rewrite (Z.pow_add_r 2 (Z.of_nat n) 1), Z.pow_1_r by lia.
    rewrite Z.rem_mul_r by lia.
    rewrite Zodd_mod.
    pose proof (Z.mod_pos_bound m (2 ^ Z.of_nat n) Hp) as Hb.
    pose proof (Z.mod_pos_bound (m / 2 ^ Z.of_nat n) 2 ltac:(lia)) as Hb2.
    destruct (Z.eqb_spec ((m / 2 ^ Z.of_nat n) mod 2) 1) as [E1|E1];
      destruct (Z.eqb_spec (m mod 2 ^ Z.of_nat n) 0) as [E2|E2];
      cbn [orb negb]; symmetry.
    + apply negb_true_iff, Z.eqb_neq. rewrite E1, E2. lia.
    + apply negb_true_iff, Z.eqb_neq. rewrite E1. lia.
    + apply negb_false_iff, Z.eqb_eq. rewrite E2.
      replace ((m / 2 ^ Z.of_nat n) mod 2) with 0 by lia. lia.
    + apply negb_true_iff, Z.eqb_neq.
      replace ((m / 2 ^ Z.of_nat n) mod 2) with 0 by lia. lia.
Qed.

(** The first right shift of the rounding, and the rounding that follows
    it, in one formula. *)
Lemma shr_round_shift (m : Z) (e n : Z) :
  0 <= m -> 0 <= n ->
  let '(mrs, e') := shr (Build_shr_record m false false) e n in
  e' = e + n /\
  round_nearest_even (shr_m mrs) (loc_of_shr_record mrs) = round_shift m n.
Proof.
  intros Hm Hn. unfold shr, round_shift, half_units, sticky.
  destruct n as [|p|p]; [| |lia].
  - split; [lia|]. cbn [shr_m].
    rewrite Z.pow_0_r, Z.div_1_r, Z.mod_1_r.
    replace (2 * m / 2) with m by (rewrite Z.mul_comm, Z.div_mul; lia).
    replace (Z.odd (2 * m)) with false
      by (symmetry; rewrite Z.odd_mul; reflexivity).
    reflexivity.
  - split; [reflexivity|].
    rewrite iter_pos_nat.
    destruct (Pos2Nat.is_succ p) as (k & Hk). rewrite Hk.
    rewrite iter_shr_1 by exact Hm.
    assert (Ep : Zpos p = Z.of_nat k + 1) by lia.
    rewrite Ep.
    assert (Hp : 0 < 2 ^ Z.of_nat k) by (apply Z.pow_pos_nonneg; lia).
    assert (E2 : 2 ^ (Z.of_nat k + 1) = 2 * 2 ^ Z.of_nat k)
      by (rewrite Z.pow_add_r, Z.pow_1_r by lia; lia).
    assert (H1 : 2 * m / 2 ^ (Z.of_nat k + 1) = m / 2 ^ Z.of_nat k)
      by (rewrite E2, Z.div_mul_cancel_l by lia; reflexivity).
    assert (H2 : ((2 * m) mod 2 ^ (Z.of_nat k + 1) =? 0) =
                 (m mod 2 ^ Z.of_nat k =? 0)).
    { rewrite E2, Z.mul_mod_distr_l by lia.
      destruct (Z.eqb_spec (m mod 2 ^ Z.of_nat k) 0);
        destruct (Z.eqb_spec (2 * (m mod 2 ^ Z.of_nat k)) 0);
        try reflexivity; lia. }
    assert (H3 : m / 2 ^ Z.of_nat k / 2 = m / 2 ^ (Z.of_nat k + 1))
      by (rewrite Z.div_div, E2 by lia; f_equal; lia).
    rewrite H1, H2, H3. reflexivity.
Qed.

Lemma round_shift_nonneg (m n : Z) : 0 <= m -> 0 <= round_shift m n.
Proof.
  intros Hm. unfold round_shift.
  assert (Hh : 0 <= half_units m n / 2).
  { apply Z.div_pos; [|lia]. unfold half_units.
    destruct (Z.le_gt_cases 0 n) as [Hn|Hn].
    - apply Z.div_pos; [lia | apply Z.pow_pos_nonneg; lia].
    - rewrite Z.pow_neg_r by lia. rewrite Z.div_0_r. lia. }
  destruct (Z.odd _), (sticky m n); cbn [loc_of_shr_record round_nearest_even];
    try destruct (Z.even _); lia.
Qed.

(** The rounding stays between the floor and the ceiling of the half
    units. *)
Lemma round_shift_range (m n : Z) :
  half_units m n / 2 <= round_shift m n <= (half_units m n + 1) / 2.
Proof.
  unfold round_shift. set (h := half_units m n).
  pose proof (Zdiv2_odd_eqn h) as Hh. rewrite Z.div2_div in Hh.
  assert (Hc : (h + 1) / 2 = h / 2 + (if Z.odd h then 1 else 0)).
  { destruct (Z.odd h).
    - replace (h + 1) with ((h / 2 + 1) * 2) by lia. rewrite Z.div_mul; lia.
    - replace (h + 1) with (1 + (h / 2) * 2) by lia.
      rewrite Z.div_add by lia. cbn. lia. }
  rewrite Hc.
  destruct (Z.odd h), (sticky m n); cbn [loc_of_shr_record round_nearest_even];
    try destruct (Z.even _); lia.
Qed.

Lemma round_shift_mono (m1 n1 m2 n2 : Z) :
  0 <= n1 -> 0 <= n2 ->
  m1 * 2 ^ n2 <= m2 * 2 ^ n1 ->
  round_shift m1 n1 <= round_shift m2 n2.
Proof.
  intros Hn1 Hn2 Hle.
  assert (HA : 0 < 2 ^ n1) by (apply Z.pow_pos_nonneg; lia).
  assert (HB : 0 < 2 ^ n2) by (apply Z.pow_pos_nonneg; lia).
  set (A := 2 ^ n1) in *. set (B := 2 ^ n2) in *.
  assert (Hh : half_units m1 n1 <= half_units m2 n2).
  { unfold half_units. fold A B.
    apply Z.div_le_lower_bound; [exact HB|].
    pose proof (Z.mul_div_le (2 * m1) A HA) as Hf.
    apply (Z.mul_le_mono_pos_l _ _ A HA).
    transitivity (2 * m1 * B); [|lia].
    replace (A * (B * (2 * m1 / A))) with (B * (A * (2 * m1 / A))) by ring.
    rewrite (Z.mul_comm (2 * m1) B).
    apply Z.mul_le_mono_nonneg_l; lia. }
  destruct (Z.eq_dec (half_units m1 n1) (half_units m2 n2)) as [Heq|Hne].
  - (* same half units: the sticky bits are ordered *)
    assert (Hs : sticky m2 n2 = false -> sticky m1 n1 = false).
    { unfold sticky. fold A B. intros H2.
      apply negb_false_iff, Z.eqb_eq in H2.
      apply negb_false_iff, Z.eqb_eq.
      unfold half_units in Heq. fold A B in Heq.
      pose proof (Z.div_mod (2 * m2) B ltac:(lia)) as D2.
      pose proof (Z.div_mod (2 * m1) A ltac:(lia)) as D1.
      pose proof (Z.mod_pos_bound (2 * m1) A HA) as Hb.
      rewrite H2 in D2. rewrite <- Heq in D2.
      set (F := 2 * m1 / A) in *.
      assert (2 * m1 * B <= A * F * B) by nia.
      assert (2 * m1 <= A * F) by nia.
      lia. }
    unfold round_shift. rewrite <- Heq.
    destruct (sticky m2 n2) eqn:S2.
    + destruct (Z.odd _), (sticky m1 n1);
        cbn [loc_of_shr_record round_nearest_even];
        try destruct (Z.even _); lia.
    + rewrite (Hs eq_refl). lia.
  - pose proof (round_shift_range m1 n1) as [_ U].
    pose proof (round_shift_range m2 n2) as [L _].
    transitivity ((half_units m1 n1 + 1) / 2); [exact U|].
    transitivity (half_units m2 n2 / 2); [|exact L].
    apply Z.div_le_mono; lia.
Qed.

Lemma fexp_ge_emin (x : Z) : SpecFloat.emin prec emax <= fexp prec emax x.
Proof. unfold fexp. lia. Qed.

(** The last step of a rounding: the second shift and the range check. *)
Lemma second_shift_pack (s : bool) (q E : Z) :
  0 <= q -> SpecFloat.emin prec emax <= E ->
  (let '(mrs, e) := shr_fexp prec emax q E loc_Exact in
   match shr_m mrs with
   | Z0 => S754_zero s
   | Zpos m => if e <=? emax - prec then S754_finite s m e else S754_infinity s
   | Zneg _ => S754_nan
   end) = pack s q E.
Proof.
  intros Hq0 Hmin. unfold shr_fexp, pack. cbn [shr_record_of_loc].
  set (n := fexp prec emax (Zdigits2 q + E) - E).
  assert (Hn : Z.max 0 (Zdigits2 q - prec) = Z.max 0 n).
  { unfold n, fexp in *. unfold SpecFloat.emin in *. lia. }
  rewrite Hn.
  assert (Hshr : shr (Build_shr_record q false false) E n =
                 shr (Build_shr_record q false false) E (Z.max 0 n)).
  { unfold shr. destruct n as [|p|p]; reflexivity. }
  rewrite Hshr.
  unfold shr in *.
  destruct (Z.max 0 n) as [|p|p] eqn:En; [| |lia].
  - cbn [shr_m]. rewrite Z.pow_0_r, Z.div_1_r, Z.add_0_r. reflexivity.
  - cbn [shr_m fst snd]. rewrite iter_pos_nat.
    destruct (Pos2Nat.is_succ p) as (k & Hk). rewrite Hk.
    rewrite iter_shr_1 by exact Hq0. cbn [shr_m].
    replace (Z.of_nat k + 1) with (Zpos p) by lia. reflexivity.
Qed.

(** Rounding an exact value [m * 2^e] whose exponent is not above the
    exponent of its format: a shift, a rounding, and a final adjustment. *)
Lemma binary_round_aux_exact (s : bool) (m : positive) (e : Z) :
  let E := fexp prec emax (Zpos (digits2_pos m) + e) in
  e <= E ->
  binary_round_aux prec emax s (Zpos m) e loc_Exact =
  pack s (round_shift (Zpos m) (E - e)) E.
Proof.
  intros E HE. unfold binary_round_aux.
  unfold shr_fexp at 1. cbn [shr_record_of_loc Zdigits2]. fold E.
  pose proof (shr_round_shift (Zpos m) e (E - e) ltac:(lia) ltac:(lia)) as H1.
  destruct (shr _ e (E - e)) as [mrs e'].
  destruct H1 as [He' Hq]. rewrite Hq.
  replace e' with E by lia.
  apply second_shift_pack.
  - apply round_shift_nonneg. lia.
  - apply fexp_ge_emin.
Qed.

Lemma finite_or_infinity_le (m1 m2 : positive) (e1 e2 : Z) :
  e1 < e2 \/ (e1 = e2 /\ (m1 <= m2)%positive) ->
  SFleb (if e1 <=? emax - prec then S754_finite false m1 e1
         else S754_infinity false)
        (if e2 <=? emax - prec then S754_finite false m2 e2
         else S754_infinity false) = true.
Proof.
  intros H.
  destruct (Z.leb_spec e1 (emax - prec)) as [H1|H1];
    destruct (Z.leb_spec e2 (emax - prec)) as [H2|H2];
    unfold SFleb, SFcompare; try reflexivity.
  - destruct (Z.compare_spec e1 e2) as [E|L|G]; try reflexivity.
    + destruct H as [H|[_ H]]; [lia|].
      change (Pos.compare_cont Eq m1 m2) with (Pos.compare m1 m2).
      destruct (Pos.compare_spec m1 m2) as [E'|L'|G']; try reflexivity.
      exfalso. apply Pos.le_nlt in H. contradiction.
    + exfalso. lia.
  - exfalso. lia.
Qed.

Lemma pack_zero (s : bool) (E : Z) : pack s 0 E = S754_zero s.
Proof. unfold pack. cbn [Zdigits2]. rewrite Z.div_0_l; [reflexivity|].
  apply Z.pow_nonzero; lia. Qed.

Lemma pack_mantissa_pos (q : Z) :
  0 < q -> 0 < q / 2 ^ Z.max 0 (Zdigits2 q - prec).
Proof.
  intros Hq. destruct (Zdigits2_bounds q Hq) as (Hd & Hlo & _).
  apply Z.div_str_pos. split; [apply Z.pow_pos_nonneg; lia|].
  transitivity (2 ^ (Zdigits2 q - 1)); [|exact Hlo].
  apply Z.pow_le_mono_r; [lia|]. unfold prec. lia.
Qed.

Lemma zero_le_pack (s : bool) (q E : Z) :
  0 <= q -> SFleb (S754_zero s) (pack false q E) = true.
Proof.
  intros Hq. destruct (Z.eq_dec q 0) as [->|Hne].
  - rewrite pack_zero. reflexivity.
  - pose proof (pack_mantissa_pos q ltac:(lia)) as Hp. unfold pack.
    destruct (q / 2 ^ Z.max 0 (Zdigits2 q - prec)); try lia.
    destruct (_ <=? _); reflexivity.
Qed.

(** The order of two packed values follows the order of the exponents,
    then of the mantissas. *)
Lemma pack_le (q1 q2 E1 E2 : Z) :
  0 <= q1 -> 0 <= q2 ->
  (E1 = E2 /\ q1 <= q2) \/
  (E1 < E2 /\ q1 <= 2 ^ prec /\ 2 ^ (prec - 1) <= q2) ->
  SFleb (pack false q1 E1) (pack false q2 E2) = true.
Proof.
  intros H1 H2 Hcase.
  destruct (Z.eq_dec q1 0) as [->|Hne1].
  { rewrite pack_zero. apply zero_le_pack. exact H2. }
  assert (Hq1 : 0 < q1) by lia.
  assert (Hq2 : 0 < q2).
  { destruct Hcase as [[_ H]|(_ & _ & H)]; [lia|].
    assert (0 < 2 ^ (prec - 1)) by (apply Z.pow_pos_nonneg; unfold prec; lia).
    lia. }
  pose proof (pack_mantissa_pos q1 Hq1) as P1.
  pose proof (pack_mantissa_pos q2 Hq2) as P2.
  destruct (Zdigits2_bounds q1 Hq1) as (D1 & L1 & U1).
  destruct (Zdigits2_bounds q2 Hq2) as (D2 & L2 & U2).
  unfold pack.
  set (n1 := Z.max 0 (Zdigits2 q1 - prec)) in *.
  set (n2 := Z.max 0 (Zdigits2 q2 - prec)) in *.
  assert (Hfin : E1 + n1 < E2 + n2 \/
                 (E1 + n1 = E2 + n2 /\ q1 / 2 ^ n1 <= q2 / 2 ^ n2)).
  { destruct Hcase as [[-> Hle]|(HE & Hup & Hlow)].
    - pose proof (Zdigits2_mono q1 q2 ltac:(lia)) as Hd.
      destruct (Z.eq_dec n1 n2) as [En|En].
      + right. split; [lia|]. rewrite En.
        apply Z.div_le_mono; [apply Z.pow_pos_nonneg; lia | exact Hle].
      + left. lia.
    - assert (Hd1 : Zdigits2 q1 - 1 <= prec).
      { apply (Z.pow_le_mono_r_iff 2); [lia | unfold prec; lia | lia]. }
      assert (Hd2 : prec - 1 < Zdigits2 q2).
      { apply (Z.pow_lt_mono_r_iff 2); [lia | lia | lia]. }
      destruct (Z.eq_dec (E1 + n1) (E2 + n2)) as [En|En]; [right|left; lia].
      split; [exact En|].
      assert (N1 : n1 = 1) by lia. assert (N2 : n2 = 0) by lia.
      rewrite N1, N2, Z.pow_0_r, Z.pow_1_r, Z.div_1_r.
      transitivity (2 ^ (prec - 1)); [|exact Hlow].
      apply Z.div_le_upper_bound; [lia|].
      replace (2 * 2 ^ (prec - 1)) with (2 ^ prec); [exact Hup|].
      replace prec with (prec - 1 + 1) at 1 by lia.
      rewrite Z.pow_add_r, Z.pow_1_r by (unfold prec; lia). lia. }
  destruct (q1 / 2 ^ n1) as [|p1|p1]; try lia.
  destruct (q2 / 2 ^ n2) as [|p2|p2]; try lia.
  apply finite_or_infinity_le.
  destruct Hfin as [H|[H H']]; [left; exact H | right; split; [exact H|]].
  exact H'.
Qed.

Lemma pow2_succ (k : Z) : 0 <= k -> 2 ^ (k + 1) = 2 * 2 ^ k.
Proof. intros Hk. rewrite Z.pow_add_r, Z.pow_1_r by lia. lia. Qed.

Lemma round_shift_upper (m : positive) (n : Z) :
  0 <= n -> Zpos (digits2_pos m) - n <= prec ->
  round_shift (Zpos m) n <= 2 ^ prec.
Proof.
  intros Hn Hd.
  pose proof (round_shift_range (Zpos m) n) as [_ U].
  transitivity ((half_units (Zpos m) n + 1) / 2); [exact U|].
  assert (Hh : half_units (Zpos m) n < 2 ^ (prec + 1)).
  { unfold half_units.
    apply Z.div_lt_upper_bound; [apply Z.pow_pos_nonneg; lia|].
    rewrite <- Z.pow_add_r by (unfold prec; lia).
    pose proof (digits2_bounds m) as [_ Hm].
    apply Z.lt_le_trans with (2 ^ (Zpos (digits2_pos m) + 1)).
    - rewrite pow2_succ by lia. lia.
    - apply Z.pow_le_mono_r; lia. }
  rewrite pow2_succ in Hh by (unfold prec; lia).
  apply Z.div_le_upper_bound; lia.
Qed.

Lemma round_shift_lower (m : positive) (n : Z) :
  0 <= n -> n = Zpos (digits2_pos m) - prec ->
  2 ^ (prec - 1) <= round_shift (Zpos m) n.
Proof.
  intros Hn Hd.
  pose proof (round_shift_range (Zpos m) n) as [L _].
  transitivity (half_units (Zpos m) n / 2); [|exact L].
  assert (Hh : 2 ^ prec <= half_units (Zpos m) n).
  { unfold half_units.
    apply Z.div_le_lower_bound; [apply Z.pow_pos_nonneg; lia|].
    rewrite <- Z.pow_add_r by (unfold prec; lia).
    pose proof (digits2_bounds m) as [Hm _].
    replace (n + prec) with (Zpos (digits2_pos m) - 1 + 1) by lia.
    rewrite pow2_succ by lia. lia. }
  replace prec with (prec - 1 + 1) in Hh at 1 by lia.
  rewrite pow2_succ in Hh by (unfold prec; lia).
  apply Z.div_le_lower_bound; lia.
Qed.

(** Comparing [m1 * 2^e1] with [m2 * 2^e2] over the common exponent. *)
Lemma magnitude_mono (m1 m2 : positive) (e1 e2 : Z) :
  Zpos m1 * 2 ^ (e1 - Z.min e1 e2) <= Zpos m2 * 2 ^ (e2 - Z.min e1 e2) ->
  Zpos (digits2_pos m1) + e1 <= Zpos (digits2_pos m2) + e2.
Proof.
  intros Hle. set (e0 := Z.min e1 e2) in *.
  pose proof (digits2_bounds m1) as [L1 _].
  pose proof (digits2_bounds m2) as [_ U2].
  assert (P1 : 0 < 2 ^ (e1 - e0)) by (apply Z.pow_pos_nonneg; lia).
  assert (P2 : 0 < 2 ^ (e2 - e0)) by (apply Z.pow_pos_nonneg; lia).
  assert (H : 2 ^ (Zpos (digits2_pos m1) - 1 + (e1 - e0)) <
              2 ^ (Zpos (digits2_pos m2) + (e2 - e0))).
  { rewrite !Z.pow_add_r by lia.
    apply Z.le_lt_trans with (Zpos m1 * 2 ^ (e1 - e0)).
    - apply Z.mul_le_mono_nonneg_r; lia.
    - apply Z.le_lt_trans with (Zpos m2 * 2 ^ (e2 - e0)); [exact Hle|].
      apply Z.mul_lt_mono_pos_r; lia. }
  apply Z.pow_lt_mono_r_iff in H; lia.
Qed.

(** Rounding is monotone: the roundings of two exact values are ordered
    as the values are. *)
Lemma round_exact_mono (m1 m2 : positive) (e1 e2 : Z) :
  e1 <= fexp prec emax (Zpos (digits2_pos m1) + e1) ->
  e2 <= fexp prec emax (Zpos (digits2_pos m2) + e2) ->
  Zpos m1 * 2 ^ (e1 - Z.min e1 e2) <= Zpos m2 * 2 ^ (e2 - Z.min e1 e2) ->
  SFleb (binary_round_aux prec emax false (Zpos m1) e1 loc_Exact)
        (binary_round_aux prec emax false (Zpos m2) e2 loc_Exact) = true.
Proof.
  intros HE1 HE2 Hle.
  rewrite !binary_round_aux_exact by assumption.
  pose proof (magnitude_mono m1 m2 e1 e2 Hle) as Hmag.
  set (d1 := Zpos (digits2_pos m1)) in *. set (d2 := Zpos (digits2_pos m2)) in *.
  set (E1 := fexp prec emax (d1 + e1)) in *.
  set (E2 := fexp prec emax (d2 + e2)) in *.
  assert (HE : E1 <= E2) by (unfold E1, E2, fexp; lia).
  apply pack_le; try (apply round_shift_nonneg; lia).
  destruct (Z.eq_dec E1 E2) as [Eeq|Ene]; [left|right].
  - split; [exact Eeq|].
    apply round_shift_mono; try lia.
    set (e0 := Z.min e1 e2) in *.
    set (k := E1 - e1 - e2 + e0).
    assert (Hk : 0 <= k) by (unfold k, e0; lia).
    assert (Pk : 0 < 2 ^ k) by (apply Z.pow_pos_nonneg; lia).
    replace (E2 - e2) with (e1 - e0 + k) by (unfold k; lia).
    replace (E1 - e1) with (e2 - e0 + k) by (unfold k; lia).
    rewrite !Z.pow_add_r by (unfold e0; lia).
    rewrite !Z.mul_assoc.
    apply Z.mul_le_mono_nonneg_r; lia.
  - split; [lia|]. split.
    + apply round_shift_upper; [lia|]. unfold E1, fexp. lia.
    + apply round_shift_lower; [lia|].
      pose proof (fexp_ge_emin (d1 + e1)) as Hmin. fold E1 in Hmin.
      unfold E2, fexp in *. lia.
Qed.

(** ** Multiplication is monotone *)

Lemma canonical_facts (m : positive) (e : Z) :
  canonical_mantissa prec emax m e = true ->
  Zpos (digits2_pos m) <= prec /\ SpecFloat.emin prec emax <= e /\
  (Zpos (digits2_pos m) = prec \/ e = SpecFloat.emin prec emax).
Proof.
  unfold canonical_mantissa, fexp. intros H. apply Z.eqb_eq in H. lia.
Qed.

Lemma bounded_canonical (m : positive) (e : Z) :
  SpecFloat.bounded prec emax m e = true -> canonical_mantissa prec emax m e = true.
Proof. unfold SpecFloat.bounded. intros H. apply andb_true_iff in H. tauto. Qed.

Lemma digits2_mul_lower (m1 m2 : positive) :
  Zpos (digits2_pos m1) + Zpos (digits2_pos m2) - 1 <=
  Zpos (digits2_pos (m1 * m2)).
Proof.
  pose proof (digits2_bounds m1) as [L1 _].
  pose proof (digits2_bounds m2) as [L2 _].
  pose proof (digits2_bounds (m1 * m2)) as [_ U].
  assert (H : 2 ^ (Zpos (digits2_pos m1) - 1 + (Zpos (digits2_pos m2) - 1)) <
              2 ^ Zpos (digits2_pos (m1 * m2))).
  { rewrite Z.pow_add_r by lia.
    apply Z.le_lt_trans with (Zpos m1 * Zpos m2); [|rewrite <- Pos2Z.inj_mul; exact U].
    apply Z.mul_le_mono_nonneg; try lia;
      apply Z.lt_le_incl, Z.pow_pos_nonneg; lia. }
  apply Z.pow_lt_mono_r_iff in H; lia.
Qed.

(** The exponent of a product of two floats is not above the exponent of
    its format. *)
Lemma product_exponent (m1 m2 : positive) (e1 e2 : Z) :
  canonical_mantissa prec emax m1 e1 = true ->
  canonical_mantissa prec emax m2 e2 = true ->
  e1 + e2 <= fexp prec emax (Zpos (digits2_pos (m1 * m2)) + (e1 + e2)).
Proof.
  intros C1 C2.
  apply canonical_facts in C1. apply canonical_facts in C2.
  pose proof (digits2_mul_lower m1 m2) as Hd.
  pose proof (Pos2Z.is_pos (digits2_pos m1)). pose proof (Pos2Z.is_pos (digits2_pos m2)).
  unfold fexp, SpecFloat.emin, prec, emax in *. lia.
Qed.

(** On canonical mantissas the comparison of floats is the comparison of
    their values. *)
Lemma canonical_le_value (m1 m2 : positive) (e1 e2 : Z) :
  canonical_mantissa prec emax m1 e1 = true ->
  canonical_mantissa prec emax m2 e2 = true ->
  SFleb (S754_finite false m1 e1) (S754_finite false m2 e2) = true ->
  Zpos m1 * 2 ^ (e1 - Z.min e1 e2) <= Zpos m2 * 2 ^ (e2 - Z.min e1 e2).
Proof.
  intros C1 C2. apply canonical_facts in C1. apply canonical_facts in C2.
  unfold SFleb, SFcompare.
  destruct (Z.compare_spec e1 e2) as [E|L|G]; try discriminate.
  - subst e2. rewrite Z.min_id, Z.sub_diag, Z.pow_0_r, !Z.mul_1_r.
    change (Pos.compare_cont Eq m1 m2) with (Pos.compare m1 m2).
    destruct (Pos.compare_spec m1 m2) as [E'|L'|G']; try discriminate; lia.
  - intros _. replace (Z.min e1 e2) with e1 by lia.
    rewrite Z.sub_diag, Z.pow_0_r, Z.mul_1_r.
    pose proof (digits2_bounds m1) as [_ U1].
    pose proof (digits2_bounds m2) as [L2 _].
    assert (D2 : Zpos (digits2_pos m2) = prec) by lia.
    assert (H1 : 2 ^ Zpos (digits2_pos m1) <= 2 ^ prec)
      by (apply Z.pow_le_mono_r; lia).
    assert (H2 : 2 ^ 1 <= 2 ^ (e2 - e1)) by (apply Z.pow_le_mono_r; lia).
    rewrite D2 in L2.
    assert (H3 : 2 ^ prec = 2 ^ (prec - 1) * 2 ^ 1)
      by (rewrite <- Z.pow_add_r by (unfold prec; lia); f_equal; lia).
    assert (P : 0 < 2 ^ (prec - 1)) by (apply Z.pow_pos_nonneg; unfold prec; lia).
    apply Z.le_trans with (2 ^ (prec - 1) * 2 ^ 1); [lia|].
    apply Z.mul_le_mono_nonneg; lia.
Qed.

Lemma pack_le_infinity (q E : Z) :
  0 <= q -> SFleb (pack false q E) (S754_infinity false) = true.
Proof.
  intros Hq. unfold pack.
  destruct (q / 2 ^ _) as [|p|p] eqn:Ep.
  - reflexivity.
  - destruct (_ <=? _); reflexivity.
  - exfalso.
    assert (0 <= q / 2 ^ Z.max 0 (Zdigits2 q - prec))
      by (apply Z.div_pos; [exact Hq | apply Z.pow_pos_nonneg; lia]).
    lia.
Qed.

Lemma SFmul_mono (x y c : spec_float) :
  valid_binary x = true ->
  valid_binary y = true ->
  valid_binary c = true ->
  SFleb (S754_zero false) x = true ->
  SFleb x y = true ->
  SFleb (S754_zero false) c = true ->
  SFmul prec emax x c <> S754_nan ->
  SFmul prec emax y c <> S754_nan ->
  SFleb (SFmul prec emax x c) (SFmul prec emax y c) = true.
Proof.
  intros Vx Vy Vc Hx Hxy Hc Nx Ny.
  destruct x as [sx|[|]| |[|] mx ex]; try discriminate;
    destruct y as [sy|[|]| |[|] my ey]; try discriminate;
    destruct c as [sc|[|]| |[|] mc ec]; try discriminate;
    cbn [SFmul xorb] in *; try reflexivity; try congruence;
    unfold valid_binary in *; cbn [SpecFloat.valid_binary] in *;
    repeat match goal with
           | H : SpecFloat.bounded _ _ _ _ = true |- _ => apply bounded_canonical in H
           end.
  all: lazymatch goal with
       | |- SFleb (S754_zero _) (binary_round_aux _ _ _ _ _ _) = true =>
           rewrite binary_round_aux_exact by (apply product_exponent; assumption);
           apply zero_le_pack, round_shift_nonneg; lia
       | |- SFleb (binary_round_aux _ _ _ _ _ _) (S754_infinity false) = true =>
           rewrite binary_round_aux_exact by (apply product_exponent; assumption);
           apply pack_le_infinity, round_shift_nonneg; lia
       | |- _ => idtac
       end.
  apply round_exact_mono; try (apply product_exponent; assumption).
  pose proof (canonical_le_value mx my ex ey Vx Vy Hxy) as Hv.
  replace (Z.min (ex + ec) (ey + ec)) with (Z.min ex ey + ec) by lia.
  replace (ex + ec - (Z.min ex ey + ec)) with (ex - Z.min ex ey) by lia.
  replace (ey + ec - (Z.min ex ey + ec)) with (ey - Z.min ex ey) by lia.
  rewrite !Pos2Z.inj_mul.
  rewrite <- !(Z.mul_assoc _ (Zpos mc)), !(Z.mul_comm (Zpos mc)), !Z.mul_assoc.
  apply Z.mul_le_mono_nonneg_r; lia.
Qed.

(** ** The square root is monotone and finite *)

Lemma Zdigits2_unique (q k : Z) :
  2 ^ (k - 1) <= q < 2 ^ k -> 1 <= k -> Zdigits2 q = k.
Proof.
  intros [L U] Hk.
  assert (Hq : 0 < q).
  { apply Z.lt_le_trans with (2 ^ (k - 1)); [apply Z.pow_pos_nonneg; lia | exact L]. }
  destruct (Zdigits2_bounds q Hq) as (Hd & L' & U').
  assert (A : k - 1 < Zdigits2 q)
    by (apply (Z.pow_lt_mono_r_iff 2); lia).
  assert (B : Zdigits2 q - 1 < k)
    by (apply (Z.pow_lt_mono_r_iff 2); lia).
  lia.
Qed.

Lemma sqrt_round_mono (n1 n2 : Z) :
  0 <= n1 <= n2 -> sqrt_round n1 <= sqrt_round n2.
Proof.
  intros [H0 H]. unfold sqrt_round.
  pose proof (Z.sqrt_le_mono n1 n2 H) as Hs.
  pose proof (Z.sqrt_spec n1 H0) as S1.
  pose proof (Z.sqrt_spec n2 ltac:(lia)) as S2.
  set (q1 := Z.sqrt n1) in *. set (q2 := Z.sqrt n2) in *.
  destruct (Z.ltb_spec q1 (n1 - q1 * q1)); destruct (Z.ltb_spec q2 (n2 - q2 * q2));
    try lia.
  destruct (Z.eq_dec q1 q2) as [E|E]; [|lia].
  rewrite E in *. lia.
Qed.

Lemma sqrt_round_range (n : Z) :
  0 <= n -> Z.sqrt n <= sqrt_round n <= Z.sqrt n + 1.
Proof. intros _. unfold sqrt_round. destruct (_ <? _); lia. Qed.

Lemma loc_of_record_of_loc (q : Z) (l : location) :
  loc_of_shr_record (shr_record_of_loc q l) = l /\
  shr_m (shr_record_of_loc q l) = q.
Proof. destruct l as [|[| |]]; split; reflexivity. Qed.

(** The square root of a positive float: its exponent, the integer whose
    root is taken, and the rounded root. *)
Lemma SFsqrt_finite (m : positive) (e : Z) :
  canonical_mantissa prec emax m e = true ->
  let E := (Zpos (digits2_pos m) + e + 1) / 2 - prec in
  let n := Zpos m * 2 ^ (e - 2 * E) in
  SFsqrt prec emax (S754_finite false m e) = pack false (sqrt_round n) E /\
  0 <= e - 2 * E /\
  2 ^ (prec - 1) <= Z.sqrt n < 2 ^ prec.
Proof.
  intros C E n. apply canonical_facts in C. destruct C as (Cd & Ce & Cn).
  pose proof (Pos2Z.is_pos (digits2_pos m)) as Dpos.
  set (d := Zpos (digits2_pos m)) in *.
  assert (Hs : 2 * prec - 2 <= d + (e - 2 * E) - 1 /\ d + (e - 2 * E) <= 2 * prec).
  { unfold E. pose proof (Z.div_mod (d + e + 1) 2 ltac:(lia)).
    pose proof (Z.mod_pos_bound (d + e + 1) 2 ltac:(lia)). lia. }
  assert (Hs0 : 0 < e - 2 * E) by (unfold prec in *; lia).
  assert (He' : Z.min (fexp prec emax (Z.div2 (d + e + 1))) (Z.div2 e) = E).
  { rewrite !Z.div2_div. unfold E, fexp, SpecFloat.emin, prec, emax in *.
    pose proof (Z.div_mod (d + e + 1) 2 ltac:(lia)).
    pose proof (Z.mod_pos_bound (d + e + 1) 2 ltac:(lia)).
    pose proof (Z.div_mod e 2 ltac:(lia)).
    pose proof (Z.mod_pos_bound e 2 ltac:(lia)). lia. }
  pose proof (digits2_bounds m) as [Lm Um]. fold d in Lm, Um.
  assert (P : 0 < 2 ^ (e - 2 * E)) by (apply Z.pow_pos_nonneg; lia).
  assert (Ln : 2 ^ (prec - 1) * 2 ^ (prec - 1) <= n).
  { rewrite <- Z.pow_add_r by (unfold prec; lia).
    apply Z.le_trans with (2 ^ (d - 1 + (e - 2 * E))).
    - apply Z.pow_le_mono_r; lia.
    - rewrite Z.pow_add_r by lia. unfold n.
      apply Z.mul_le_mono_nonneg_r; lia. }
  assert (Un : n < 2 ^ prec * 2 ^ prec).
  { rewrite <- Z.pow_add_r by (unfold prec; lia).
    apply Z.lt_le_trans with (2 ^ (d + (e - 2 * E))).
    - rewrite Z.pow_add_r by lia. unfold n.
      apply Z.mul_lt_mono_pos_r; lia.
    - apply Z.pow_le_mono_r; lia. }
  assert (P1 : 0 < 2 ^ (prec - 1)) by (apply Z.pow_pos_nonneg; unfold prec; lia).
  assert (P2 : 0 < 2 ^ prec) by (apply Z.pow_pos_nonneg; unfold prec; lia).
  assert (Hn0 : 0 <= n) by (unfold n; lia).
  assert (Hq : 2 ^ (prec - 1) <= Z.sqrt n < 2 ^ prec).
  { split.
    - rewrite <- (Z.sqrt_square (2 ^ (prec - 1))) by lia.
      apply Z.sqrt_le_mono. exact Ln.
    - apply Z.sqrt_lt_square; [lia | lia | exact Un]. }
  split; [|split; [lia | exact Hq]].
  unfold SFsqrt, SFsqrt_core_binary. cbn [Zdigits2]. fold d.
  rewrite He'.
  replace (e - 2 * E) with (e - 2 * E) by reflexivity.
  destruct (e - 2 * E) as [|p|p] eqn:Es; try lia.
  rewrite Z.shiftl_mul_pow2 by lia. fold n.
  pose proof (Z.sqrtrem_spec n Hn0) as Hrem.
  pose proof (Z.sqrtrem_sqrt n) as Hfst.
  destruct (Z.sqrtrem n) as [q r]. cbn [fst] in Hfst. subst q.
  destruct Hrem as [Hnr Hr].
  set (q := Z.sqrt n) in *.
  set (l := if r =? 0 then loc_Exact
            else loc_Inexact (if r <=? q then Lt else Gt)).
  assert (Hround : round_nearest_even q l = sqrt_round n).
  { unfold sqrt_round, l. fold q.
    replace (n - q * q) with r by lia.
    destruct (Z.eqb_spec r 0) as [R0|R0].
    - cbn. destruct (Z.ltb_spec q r); [lia | reflexivity].
    - destruct (Z.leb_spec r q); destruct (Z.ltb_spec q r); try lia; reflexivity. }
  unfold binary_round_aux. unfold shr_fexp at 1.
  assert (Dq : Zdigits2 q = prec) by (apply Zdigits2_unique; [exact Hq | unfold prec; lia]).
  rewrite Dq.
  assert (HE : SpecFloat.emin prec emax <= E)
    by (unfold E, SpecFloat.emin, prec, emax in *;
        pose proof (Z.div_mod (d + e + 1) 2 ltac:(lia));
        pose proof (Z.mod_pos_bound (d + e + 1) 2 ltac:(lia)); lia).
  replace (fexp prec emax (prec + E) - E) with 0 by (unfold fexp; lia).
  cbn [shr].
  destruct (loc_of_record_of_loc q l) as [-> ->].
  rewrite Hround.
  apply second_shift_pack; [|exact HE].
  pose proof (sqrt_round_range n Hn0). lia.
Qed.

Lemma sqrt_round_nonneg (n : Z) : 0 <= n -> 0 <= sqrt_round n.
Proof.
  intros Hn. pose proof (sqrt_round_range n Hn). pose proof (Z.sqrt_nonneg n). lia.
Qed.

Lemma SFsqrt_finite_pack (m : positive) (e : Z) :
  canonical_mantissa prec emax m e = true ->
  exists q E, SFsqrt prec emax (S754_finite false m e) = pack false q E /\ 0 <= q.
Proof.
  intros C. destruct (SFsqrt_finite m e C) as (E & _ & _).
  eexists _, _. split; [exact E|].
  apply sqrt_round_nonneg, Z.mul_nonneg_nonneg; [lia | apply Z.pow_nonneg; lia].
Qed.

Lemma SFsqrt_mono_finite (mx my : positive) (ex ey : Z) :
  canonical_mantissa prec emax mx ex = true ->
  canonical_mantissa prec emax my ey = true ->
  SFleb (S754_finite false mx ex) (S754_finite false my ey) = true ->
  SFleb (SFsqrt prec emax (S754_finite false mx ex))
        (SFsqrt prec emax (S754_finite false my ey)) = true.
Proof.
  intros Vx Vy Hxy.
  destruct (SFsqrt_finite mx ex Vx) as (Ex & Sx & Qx). rewrite Ex.
  destruct (SFsqrt_finite my ey Vy) as (Ey & Sy & Qy). rewrite Ey.
  pose proof (canonical_le_value mx my ex ey Vx Vy Hxy) as Hv.
  pose proof (magnitude_mono mx my ex ey Hv) as Hmag.
  set (E1 := (Zpos (digits2_pos mx) + ex + 1) / 2 - prec) in *.
  set (E2 := (Zpos (digits2_pos my) + ey + 1) / 2 - prec) in *.
  set (n1 := Zpos mx * 2 ^ (ex - 2 * E1)) in *.
  set (n2 := Zpos my * 2 ^ (ey - 2 * E2)) in *.
  assert (P1 : 0 < 2 ^ (prec - 1)) by (apply Z.pow_pos_nonneg; unfold prec; lia).
  assert (N1 : 0 <= n1)
    by (unfold n1; apply Z.mul_nonneg_nonneg; [lia | apply Z.pow_nonneg; lia]).
  assert (N2 : 0 <= n2)
    by (unfold n2; apply Z.mul_nonneg_nonneg; [lia | apply Z.pow_nonneg; lia]).
  pose proof (sqrt_round_range n1 N1) as R1.
  pose proof (sqrt_round_range n2 N2) as R2.
  assert (HE : E1 <= E2).
  { unfold E1, E2. apply Z.sub_le_mono_r, Z.div_le_mono; lia. }
  apply pack_le; try lia.
  destruct (Z.eq_dec E1 E2) as [Eeq|Ene]; [left|right].
  - split; [exact Eeq|]. apply sqrt_round_mono. split; [exact N1|].
    unfold n1, n2. rewrite <- Eeq.
    set (e0 := Z.min ex ey) in *.
    assert (Hk : 0 <= e0 - 2 * E1) by (unfold e0; lia).
    replace (ex - 2 * E1) with (ex - e0 + (e0 - 2 * E1)) by lia.
    replace (ey - 2 * E1) with (ey - e0 + (e0 - 2 * E1)) by lia.
    rewrite !Z.pow_add_r by (unfold e0; lia).
    rewrite !Z.mul_assoc.
    apply Z.mul_le_mono_nonneg_r; [apply Z.pow_nonneg; lia | exact Hv].
  - split; [lia|]. split; lia.
Qed.

Lemma SFsqrt_mono (x y : spec_float) :
  valid_binary x = true -> valid_binary y = true ->
  SFleb (S754_zero false) x = true -> SFleb x y = true ->
  SFleb (SFsqrt prec emax x) (SFsqrt prec emax y) = true.
Proof.
  intros Vx Vy Hx Hxy.
  destruct x as [sx|[|]| |[|] mx ex]; try discriminate;
    destruct y as [sy|[|]| |[|] my ey]; try discriminate;
    try reflexivity;
    unfold valid_binary in *; cbn [SpecFloat.valid_binary] in *;
    repeat match goal with
           | H : SpecFloat.bounded _ _ _ _ = true |- _ => apply bounded_canonical in H
           end.
  - destruct (SFsqrt_finite_pack my ey Vy) as (q & E & -> & Hq).
    apply zero_le_pack. exact Hq.
  - destruct (SFsqrt_finite_pack mx ex Vx) as (q & E & -> & Hq).
    apply pack_le_infinity. exact Hq.
  - apply SFsqrt_mono_finite; assumption.
Qed.

Lemma pack_not_infinity (s s' : bool) (q E : Z) :
  0 <= q <= 2 ^ prec -> E + 1 <= emax - prec -> pack s q E <> S754_infinity s'.
Proof.
  intros [Hq Hu] HE. unfold pack.
  assert (Hn : Z.max 0 (Zdigits2 q - prec) <= 1).
  { destruct (Z.eq_dec q 0) as [->|Hne]; [cbn; unfold prec; lia|].
    destruct (Zdigits2_bounds q ltac:(lia)) as (_ & L & _).
    assert (Zdigits2 q - 1 <= prec)
      by (apply (Z.pow_le_mono_r_iff 2); [lia | unfold prec; lia | lia]).
    lia. }
  destruct (q / 2 ^ _); try discriminate.
  destruct (Z.leb_spec (E + Z.max 0 (Zdigits2 q - prec)) (emax - prec));
    [discriminate | lia].
Qed.

Lemma SFsqrt_not_infinity (x : spec_float) (s : bool) :
  valid_binary x = true ->
  (forall s', x <> S754_infinity s') ->
  SFsqrt prec emax x <> S754_infinity s.
Proof.
  intros V Hx.
  destruct x as [sx|sx| |[|] mx ex]; try discriminate.
  - exfalso. now apply (Hx sx).
  - unfold valid_binary in V. cbn [SpecFloat.valid_binary] in V.
    unfold SpecFloat.bounded in V. apply andb_true_iff in V. destruct V as [C B].
    apply Z.leb_le in B.
    destruct (SFsqrt_finite mx ex C) as (E & _ & Q). rewrite E.
    pose proof (canonical_facts mx ex C) as (Cd & _ & _).
    match goal with |- pack _ (sqrt_round ?n) _ <> _ =>
      assert (N : 0 <= n)
        by (apply Z.mul_nonneg_nonneg; [lia | apply Z.pow_nonneg; lia]);
      pose proof (sqrt_round_range n N) end.
    assert (P1 : 0 < 2 ^ (prec - 1)) by (apply Z.pow_pos_nonneg; unfold prec; lia).
    apply pack_not_infinity; [lia|].
    pose proof (Z.div_mod (Zpos (digits2_pos mx) + ex + 1) 2 ltac:(lia)).
    pose proof (Z.mod_pos_bound (Zpos (digits2_pos mx) + ex + 1) 2 ltac:(lia)).
    unfold prec, emax in *. lia.
Qed.

(** ** The same facts on the floats of the interpreter *)

Lemma Prim2SF_zero : Prim2SF 0%float = S754_zero false.
Proof. reflexivity. Qed.

Lemma mul_le_mono (a b c : float) :
  (0 <=? a)%float = true -> (a <=? b)%float = true -> (0 <=? c)%float = true ->
  is_nan (a * c) = false -> is_nan (b * c) = false ->
  (a * c <=? b * c)%float = true.
Proof.
  rewrite !leb_spec, !is_nan_Prim2SF, !mul_spec, Prim2SF_zero.
  intros Ha Hab Hc Na Nb.
  apply SFmul_mono; try apply Prim2SF_valid; try assumption.
  - unfold SF64mul in Na. now destruct (SFmul prec emax (Prim2SF a) (Prim2SF c)).
  - unfold SF64mul in Nb. now destruct (SFmul prec emax (Prim2SF b) (Prim2SF c)).
Qed.

Lemma sqrt_le_mono (a b : float) :
  (0 <=? a)%float = true -> (a <=? b)%float = true ->
  (PrimFloat.sqrt a <=? PrimFloat.sqrt b)%float = true.
Proof.
  rewrite !leb_spec, !sqrt_spec, Prim2SF_zero.
  intros Ha Hab. apply SFsqrt_mono; try apply Prim2SF_valid; assumption.
Qed.

Lemma sqrt_not_infinity (a : float) :
  is_infinity a = false -> is_infinity (PrimFloat.sqrt a) = false.
Proof.
  rewrite !is_infinity_Prim2SF, sqrt_spec. intros Ha.
  destruct (SF64sqrt (Prim2SF a)) as [s|s| |s m e] eqn:E; try reflexivity.
  exfalso. revert E. apply SFsqrt_not_infinity; [apply Prim2SF_valid|].
  intros s' Hs. rewrite Hs in Ha. discriminate.
Qed.

Lemma SFabs_round_aux (s : bool) (m e : Z) (l : location) :
  SFabs (binary_round_aux prec emax s m e l) =
  binary_round_aux prec emax false m e l.
Proof.
  unfold binary_round_aux.
  destruct (shr_fexp prec emax m e l) as [mrs e'].
  destruct (shr_fexp prec emax _ e' loc_Exact) as [mrs' e''].
  destruct (shr_m mrs'); try reflexivity.
  destruct (_ <=? _); reflexivity.
Qed.

Lemma SFabs_mul (x y : spec_float) :
  SFabs (SFmul prec emax x y) = SFmul prec emax (SFabs x) (SFabs y).
Proof.
  destruct x as [sx|sx| |sx mx ex], y as [sy|sy| |sy my ey];
    cbn [SFmul SFabs xorb]; try reflexivity.
  apply SFabs_round_aux.
Qed.

Lemma abs_mul (a b : float) : abs (a * b) = (abs a * abs b)%float.
Proof.
  apply Prim2SF_inj. rewrite abs_spec, !mul_spec, !abs_spec. apply SFabs_mul.
Qed.

Lemma SFmul_comm (x y : spec_float) : SFmul prec emax x y = SFmul prec emax y x.
Proof.
  destruct x as [sx|sx| |sx mx ex], y as [sy|sy| |sy my ey];
    cbn [SFmul]; try reflexivity; try (rewrite xorb_comm; reflexivity).
  rewrite xorb_comm, Pos.mul_comm, Z.add_comm. reflexivity.
Qed.

Lemma mul_comm (a b : float) : (a * b = b * a)%float.
Proof. apply Prim2SF_inj. rewrite !mul_spec. apply SFmul_comm. Qed.

Lemma is_nan_abs (a : float) : is_nan (abs a) = is_nan a.
Proof. rewrite !is_nan_Prim2SF, abs_spec. destruct (Prim2SF a); reflexivity. Qed.

Lemma abs_nonneg (a : float) : is_nan a = false -> (0 <=? abs a)%float = true.
Proof.
  rewrite is_nan_Prim2SF, leb_spec, abs_spec, Prim2SF_zero.
  destruct (Prim2SF a); try discriminate; reflexivity.
Qed.

Lemma abs_le_of_nonneg (a b : float) :
  (0 <=? a)%float = true -> (a <=? b)%float = true ->
  (abs a <=? abs b)%float = true.
Proof.
  rewrite !leb_spec, !abs_spec, Prim2SF_zero.
  destruct (Prim2SF a) as [sa|[|]| |[|] ma ea]; try discriminate;
    destruct (Prim2SF b) as [sb|[|]| |[|] mb eb]; try discriminate;
    intros _ H; try reflexivity; exact H.
Qed.

Lemma mul_not_nan (a b : float) :
  is_nan (a * b) = false -> is_nan a = false /\ is_nan b = false.
Proof.
  rewrite !is_nan_Prim2SF, mul_spec. unfold SF64mul.
  destruct (Prim2SF a), (Prim2SF b); cbn [SFmul]; intros H;
    try discriminate; split; reflexivity.
Qed.

(** A product [(x * r) * f] does not shrink in magnitude when the middle
    factor grows. *)
Lemma scaled_magnitude_mono (x r1 r2 f : float) :
  (0 <=? r1)%float = true -> (r1 <=? r2)%float = true ->
  is_nan (x * r1 * f) = false -> is_nan (x * r2 * f) = false ->
  (abs (x * r1 * f) <=? abs (x * r2 * f))%float = true.
Proof.
  intros H0 Hr N1 N2.
  destruct (mul_not_nan _ _ N1) as [N1' Nf].
  destruct (mul_not_nan _ _ N2) as [N2' _].
  destruct (mul_not_nan _ _ N1') as [Nx _].
  rewrite (abs_mul (x * r1)), (abs_mul (x * r2)).
  apply mul_le_mono.
  - apply abs_nonneg. exact N1'.
  - rewrite !abs_mul, (mul_comm (abs x) (abs r1)), (mul_comm (abs x) (abs r2)).
    apply mul_le_mono.
    + apply abs_nonneg. exact (proj2 (mul_not_nan _ _ N1')).
    + apply abs_le_of_nonneg; assumption.
    + apply abs_nonneg. exact Nx.
    + rewrite (mul_comm (abs r1)), <- abs_mul, is_nan_abs. exact N1'.
    + rewrite (mul_comm (abs r2)), <- abs_mul, is_nan_abs. exact N2'.
  - apply abs_nonneg. exact Nf.
  - rewrite <- abs_mul, is_nan_abs. exact N1.
  - rewrite <- abs_mul, is_nan_abs. exact N2.
Qed.

(** ** Signs *)

Lemma SFleb_opp (x y : spec_float) : SFleb (SFopp x) (SFopp y) = SFleb y x.
Proof.
  destruct x as [sx|sx| |sx mx ex], y as [sy|sy| |sy my ey];
    unfold SFleb; cbn [SFopp SFcompare]; try reflexivity;
    try (destruct sx; reflexivity); try (destruct sy; reflexivity);
    try (destruct sx, sy; reflexivity).
  rewrite (Z.compare_antisym ex ey).
  change (Pos.compare_cont Eq my mx) with (Pos.compare my mx).
  change (Pos.compare_cont Eq mx my) with (Pos.compare mx my).
  rewrite (Pos.compare_antisym mx my).
  destruct sx, sy; cbn [negb]; try reflexivity;
    destruct (ex ?= ey); cbn [CompOpp]; try reflexivity;
    destruct (mx ?= my)%positive; reflexivity.
Qed.

Lemma SFopp_round_aux (s : bool) (m e : Z) (l : location) :
  SFopp (binary_round_aux prec emax s m e l) =
  binary_round_aux prec emax (negb s) m e l.
Proof.
  unfold binary_round_aux.
  destruct (shr_fexp prec emax m e l) as [mrs e'].
  destruct (shr_fexp prec emax _ e' loc_Exact) as [mrs' e''].
  destruct (shr_m mrs'); try reflexivity.
  destruct (_ <=? _); reflexivity.
Qed.

Lemma SFopp_pack (s : bool) (q E : Z) : SFopp (pack s q E) = pack (negb s) q E.
Proof.
  unfold pack. destruct (q / _); try reflexivity. destruct (_ <=? _); reflexivity.
Qed.

Lemma SFmul_opp_l (x c : spec_float) :
  SFmul prec emax (SFopp x) c = SFopp (SFmul prec emax x c).
Proof.
  destruct x as [sx|sx| |sx mx ex], c as [sc|sc| |sc mc ec];
    cbn [SFmul SFopp]; try reflexivity;
    try (destruct sx, sc; reflexivity).
  rewrite SFopp_round_aux. destruct sx, sc; reflexivity.
Qed.

Lemma SFopp_involutive (x : spec_float) : SFopp (SFopp x) = x.
Proof. destruct x as [s|s| |s m e]; cbn; rewrite ?negb_involutive; reflexivity. Qed.

(** A float is not positive, resp. not negative: its sign bit, zero and
    NaN apart. *)
Lemma SFleb_zero_cases (x : spec_float) :
  x <> S754_nan ->
  SFleb (S754_zero false) x = true \/
  (SFleb x (S754_zero false) = true /\ SFleb (S754_zero false) (SFopp x) = true).
Proof.
  destruct x as [s|[|]| |[|] m e]; intros H;
    first [ now left | now right | contradiction ].
Qed.

Lemma SFleb_through_zero (x y : spec_float) :
  SFleb x (S754_zero false) = true -> SFleb (S754_zero false) y = true ->
  SFleb x y = true.
Proof.
  destruct x as [sx|[|]| |[|] mx ex]; try discriminate;
    destruct y as [sy|[|]| |[|] my ey]; try discriminate; reflexivity.
Qed.

Lemma SFleb_nonneg_trans (x y : spec_float) :
  SFleb (S754_zero false) x = true -> SFleb x y = true ->
  SFleb (S754_zero false) y = true.
Proof.
  destruct x as [sx|[|]| |[|] mx ex]; try discriminate;
    destruct y as [sy|[|]| |[|] my ey]; try discriminate; reflexivity.
Qed.

Lemma SFmul_nonneg (x c : spec_float) :
  valid_binary x = true -> valid_binary c = true ->
  SFleb (S754_zero false) x = true -> SFleb (S754_zero false) c = true ->
  SFmul prec emax x c <> S754_nan ->
  SFleb (S754_zero false) (SFmul prec emax x c) = true.
Proof.
  intros Vx Vc Hx Hc N.
  destruct x as [sx|[|]| |[|] mx ex]; try discriminate;
    destruct c as [sc|[|]| |[|] mc ec]; try discriminate;
    cbn [SFmul xorb] in *; try reflexivity; try congruence.
  unfold valid_binary in *; cbn [SpecFloat.valid_binary] in *.
  apply bounded_canonical in Vx. apply bounded_canonical in Vc.
  rewrite binary_round_aux_exact by (apply product_exponent; assumption).
  apply zero_le_pack, round_shift_nonneg. lia.
Qed.

(** Multiplication by a non-negative float is monotone on all floats. *)
Lemma SFmul_mono_signed (x y c : spec_float) :
  valid_binary x = true -> valid_binary y = true -> valid_binary c = true ->
  SFleb x y = true -> SFleb (S754_zero false) c = true ->
  SFmul prec emax x c <> S754_nan -> SFmul prec emax y c <> S754_nan ->
  SFleb (SFmul prec emax x c) (SFmul prec emax y c) = true.
Proof.
  intros Vx Vy Vc Hxy Hc Nx Ny.
  assert (Vopp : forall z, valid_binary z = true -> valid_binary (SFopp z) = true)
    by (intros [s|s| |s m e]; trivial).
  assert (Nnan : forall z, SFmul prec emax z c <> S754_nan -> z <> S754_nan)
    by (intros z H ->; apply H; reflexivity).
  assert (Nopp : forall z, SFmul prec emax z c <> S754_nan ->
                           SFmul prec emax (SFopp z) c <> S754_nan).
  { intros z H. rewrite SFmul_opp_l. destruct (SFmul prec emax z c); try discriminate.
    contradiction. }
  destruct (SFleb_zero_cases x (Nnan x Nx)) as [Px|[Mx Px]].
  - apply SFmul_mono; assumption.
  - destruct (SFleb_zero_cases y (Nnan y Ny)) as [Py|[My Py]].
    + apply SFleb_through_zero.
      * rewrite <- (SFopp_involutive (SFmul prec emax x c)), <- SFmul_opp_l.
        change (S754_zero false) with (SFopp (S754_zero true)).
        rewrite SFleb_opp.
        apply (SFleb_nonneg_trans (S754_zero false)); [reflexivity|].
        apply SFmul_nonneg; auto.
      * apply SFmul_nonneg; assumption.
    + rewrite <- (SFopp_involutive (SFmul prec emax x c)), <- SFmul_opp_l.
      rewrite <- (SFopp_involutive (SFmul prec emax y c)), <- (SFmul_opp_l y).
      rewrite SFleb_opp.
      apply SFmul_mono; auto.
      rewrite SFleb_opp. exact Hxy.
Qed.

(** ** Rounding an integer times a power of two *)

Lemma iter_xO_value (m d : positive) :
  Zpos (Pos.iter xO m d) = Zpos m * 2 ^ Zpos d.
Proof.
  induction d as [|d IH] using Pos.peano_ind.
  - cbn [Pos.iter]. rewrite Z.pow_1_r. lia.
  - rewrite Pos.iter_succ, Pos2Z.inj_succ, Z.pow_succ_r by lia.
    rewrite Pos2Z.inj_xO, IH. ring.
Qed.

Lemma digits2_shifted (m : positive) (k : Z) (m' : positive) :
  0 <= k -> Zpos m' = Zpos m * 2 ^ k ->
  Zpos (digits2_pos m') = Zpos (digits2_pos m) + k.
Proof.
  intros Hk E.
  pose proof (digits2_bounds m) as [L U].
  assert (P : 0 < 2 ^ k) by (apply Z.pow_pos_nonneg; lia).
  change (Zpos (digits2_pos m')) with (Zdigits2 (Zpos m')).
  apply Zdigits2_unique; [|lia].
  rewrite E. split.
  - replace (Zpos (digits2_pos m) + k - 1) with (Zpos (digits2_pos m) - 1 + k) by lia.
    rewrite Z.pow_add_r by lia. apply Z.mul_le_mono_nonneg_r; lia.
  - rewrite Z.pow_add_r by lia. apply Z.mul_lt_mono_pos_r; lia.
Qed.

(** The alignment that precedes a rounding keeps the value and brings the
    exponent down to the exponent of the format. *)
Lemma shl_align_fexp_spec (m : positive) (e : Z) :
  exists m' e',
    shl_align m e (fexp prec emax (Zpos (digits2_pos m) + e)) = (m', e') /\
    e' <= e /\ Zpos m' = Zpos m * 2 ^ (e - e') /\
    e' <= fexp prec emax (Zpos (digits2_pos m') + e').
Proof.
  unfold shl_align.
  set (E := fexp prec emax (Zpos (digits2_pos m) + e)).
  destruct (E - e) as [|p|p] eqn:D.
  - exists m, e. rewrite Z.sub_diag, Z.pow_0_r. repeat split; lia.
  - exists m, e. rewrite Z.sub_diag, Z.pow_0_r. repeat split; lia.
  - exists (Pos.iter xO m p), E.
    assert (Ek : e - E = Zpos p) by lia.
    split; [reflexivity|]. split; [lia|].
    split; [rewrite Ek; apply iter_xO_value|].
    rewrite (digits2_shifted m (Zpos p)); [|lia|apply iter_xO_value].
    replace (Zpos (digits2_pos m) + Zpos p + E) with (Zpos (digits2_pos m) + e) by lia.
    fold E. lia.
Qed.

Lemma binary_round_spec (s : bool) (m : positive) (e : Z) :
  exists m' e',
    binary_round prec emax s m e =
    binary_round_aux prec emax s (Zpos m') e' loc_Exact /\
    e' <= e /\ Zpos m' = Zpos m * 2 ^ (e - e') /\
    e' <= fexp prec emax (Zpos (digits2_pos m') + e').
Proof.
  destruct (shl_align_fexp_spec m e) as (m' & e' & E & H).
  exists m', e'. split; [|exact H].
  unfold binary_round. rewrite E. reflexivity.
Qed.

Lemma SFopp_binary_round (s : bool) (m : positive) (e : Z) :
  SFopp (binary_round prec emax s m e) = binary_round prec emax (negb s) m e.
Proof.
  unfold binary_round. destruct (shl_align _ _ _) as [mz ez].
  apply SFopp_round_aux.
Qed.

(** *** The result of a rounding is a float of the format *)

Lemma pack_valid (s : bool) (q E : Z) :
  0 <= q <= 2 ^ prec -> SpecFloat.emin prec emax <= E ->
  (E = SpecFloat.emin prec emax \/ 2 ^ (prec - 1) <= q) ->
  valid_binary (pack s q E) = true.
Proof.
  intros [Hq Hu] Hmin Hcase. unfold pack.
  destruct (Z.eq_dec q 0) as [->|Hne].
  { cbn [Zdigits2]. rewrite Z.div_0_l by (apply Z.pow_nonzero; lia). reflexivity. }
  destruct (Zdigits2_bounds q ltac:(lia)) as (D1 & L & U).
  assert (Dle : Zdigits2 q - 1 <= prec)
    by (apply (Z.pow_le_mono_r_iff 2); [lia | unfold prec; lia | lia]).
  set (n := Z.max 0 (Zdigits2 q - prec)).
  assert (P52 : 0 < 2 ^ (prec - 1)) by (apply Z.pow_pos_nonneg; unfold prec; lia).
  assert (Hmf : exists mf, q / 2 ^ n = Zpos mf /\
                           Zpos (digits2_pos mf) = Zdigits2 q - n).
  { destruct (Z.eq_dec n 0) as [N0|N1].
    - rewrite N0, Z.pow_0_r, Z.div_1_r.
      destruct q as [|p|p]; try lia. exists p. split; [reflexivity|].
      cbn [Zdigits2]. lia.
    - assert (Dq : Zdigits2 q = prec + 1) by (unfold n in *; lia).
      assert (Q : q = 2 ^ prec).
      { rewrite Dq in L. replace (prec + 1 - 1) with prec in L by lia. lia. }
      assert (N : n = 1) by (unfold n in *; lia).
      assert (Hhalf : q / 2 ^ n = 2 ^ (prec - 1)).
      { rewrite N, Z.pow_1_r, Q.
        replace (2 ^ prec) with (2 ^ (prec - 1) * 2)
          by (rewrite Z.mul_comm, <- pow2_succ by (unfold prec; lia);
              f_equal; lia).
        apply Z.div_mul. lia. }
      rewrite Hhalf.
      destruct (2 ^ (prec - 1)) as [|p|p] eqn:Ep; try lia.
      exists p. split; [reflexivity|].
      change (Zpos (digits2_pos p)) with (Zdigits2 (Zpos p)).
      rewrite (Zdigits2_unique (Zpos p) prec); [lia| |unfold prec; lia].
      rewrite <- Ep. split; [lia|].
      apply Z.pow_lt_mono_r; unfold prec; lia. }
  destruct Hmf as (mf & -> & Dmf).
  destruct (Z.leb_spec (E + n) (emax - prec)) as [Hb|Hb]; [|reflexivity].
  unfold valid_binary. cbn [SpecFloat.valid_binary].
  unfold SpecFloat.bounded, canonical_mantissa.
  apply andb_true_iff. split; [|apply Z.leb_le; exact Hb].
  apply Z.eqb_eq. rewrite Dmf.
  assert (Dlow : E = SpecFloat.emin prec emax \/ prec <= Zdigits2 q).
  { destruct Hcase as [H|H]; [left; exact H|right].
    assert (prec - 1 < Zdigits2 q)
      by (apply (Z.pow_lt_mono_r_iff 2); [lia | lia | lia]).
    lia. }
  unfold fexp, n, SpecFloat.emin in *. lia.
Qed.

Lemma binary_round_pack (s : bool) (m : positive) (e : Z) :
  exists q E,
    binary_round prec emax s m e = pack s q E /\
    0 <= q <= 2 ^ prec /\ SpecFloat.emin prec emax <= E /\
    (E = SpecFloat.emin prec emax \/ 2 ^ (prec - 1) <= q).
Proof.
  destruct (binary_round_spec s m e) as (m' & e' & -> & _ & _ & HE).
  rewrite binary_round_aux_exact by exact HE.
  set (E := fexp prec emax (Zpos (digits2_pos m') + e')) in *.
  exists (round_shift (Zpos m') (E - e')), E.
  split; [reflexivity|].
  split; [split; [apply round_shift_nonneg; lia|]|].
  - apply round_shift_upper; [lia|]. unfold E, fexp. lia.
  - split; [apply fexp_ge_emin|].
    destruct (Z.eq_dec E (SpecFloat.emin prec emax)) as [H|H]; [left; exact H|right].
    apply round_shift_lower; [lia|]. unfold E, fexp in *. lia.
Qed.

Lemma binary_normalize_valid (z e : Z) :
  valid_binary (binary_normalize prec emax z e false) = true.
Proof.
  destruct z as [|m|m]; cbn [binary_normalize]; [reflexivity| |].
  - destruct (binary_round_pack false m e) as (q & E & -> & Hq & Hmin & Hc).
    apply pack_valid; assumption.
  - destruct (binary_round_pack true m e) as (q & E & -> & Hq & Hmin & Hc).
    apply pack_valid; assumption.
Qed.

(** *** Rounding is monotone on signed values *)

Lemma binary_round_mono (m1 m2 : positive) (e1 e2 : Z) :
  Zpos m1 * 2 ^ (e1 - Z.min e1 e2) <= Zpos m2 * 2 ^ (e2 - Z.min e1 e2) ->
  SFleb (binary_round prec emax false m1 e1) (binary_round prec emax false m2 e2)
  = true.
Proof.
  intros Hle.
  destruct (binary_round_spec false m1 e1) as (m1' & e1' & -> & L1 & V1 & H1).
  destruct (binary_round_spec false m2 e2) as (m2' & e2' & -> & L2 & V2 & H2).
  apply round_exact_mono; try assumption.
  rewrite V1, V2.
  set (e0 := Z.min e1 e2) in *. set (e0' := Z.min e1' e2').
  assert (K : 0 <= e0 - e0') by (unfold e0, e0'; lia).
  rewrite <- !Z.mul_assoc, <- !Z.pow_add_r by (unfold e0'; lia).
  replace (e1 - e1' + (e1' - e0')) with (e1 - e0 + (e0 - e0')) by lia.
  replace (e2 - e2' + (e2' - e0')) with (e2 - e0 + (e0 - e0')) by lia.
  rewrite !Z.pow_add_r by (unfold e0; lia).
  rewrite !Z.mul_assoc.
  apply Z.mul_le_mono_nonneg_r; [apply Z.pow_nonneg; lia | exact Hle].
Qed.

Lemma zero_le_binary_round (s : bool) (m : positive) (e : Z) :
  SFleb (S754_zero s) (binary_round prec emax false m e) = true.
Proof.
  destruct (binary_round_pack false m e) as (q & E & -> & Hq & _).
  apply zero_le_pack. lia.
Qed.

Lemma binary_round_neg_le_zero (s : bool) (m : positive) (e : Z) :
  SFleb (binary_round prec emax true m e) (S754_zero s) = true.
Proof.
  change true with (negb false) at 1.
  rewrite <- SFopp_binary_round.
  rewrite <- (SFopp_involutive (S754_zero s)), SFleb_opp.
  apply zero_le_binary_round.
Qed.

Lemma binary_normalize_mono (z1 z2 e1 e2 : Z) :
  z1 * 2 ^ (e1 - Z.min e1 e2) <= z2 * 2 ^ (e2 - Z.min e1 e2) ->
  SFleb (binary_normalize prec emax z1 e1 false)
        (binary_normalize prec emax z2 e2 false) = true.
Proof.
  intros Hle.
  assert (P1 : 0 < 2 ^ (e1 - Z.min e1 e2)) by (apply Z.pow_pos_nonneg; lia).
  assert (P2 : 0 < 2 ^ (e2 - Z.min e1 e2)) by (apply Z.pow_pos_nonneg; lia).
  destruct z1 as [|m1|m1], z2 as [|m2|m2]; cbn [binary_normalize];
    try (exfalso; nia).
  - reflexivity.
  - apply zero_le_binary_round.
  - apply binary_round_mono. exact Hle.
  - apply binary_round_neg_le_zero.
  - apply SFleb_through_zero with (x := binary_round prec emax true m1 e1);
      [apply (binary_round_neg_le_zero false) | apply zero_le_binary_round].
  - change true with (negb false).
    rewrite <- !SFopp_binary_round, SFleb_opp.
    apply binary_round_mono.
    rewrite (Z.min_comm e2 e1).
    change (Zneg m1) with (- Zpos m1) in Hle.
    change (Zneg m2) with (- Zpos m2) in Hle. lia.
Qed.

(** ** Addition is monotone *)

Lemma round_shift_0 (m : Z) : round_shift m 0 = m.
Proof.
  unfold round_shift, half_units, sticky.
  rewrite Z.pow_0_r, Z.div_1_r, Z.mod_1_r.
  replace (2 * m / 2) with m by (rewrite Z.mul_comm, Z.div_mul; lia).
  replace (Z.odd (2 * m)) with false by (symmetry; rewrite Z.odd_mul; reflexivity).
  reflexivity.
Qed.

(** Rounding the value of a float gives the float back. *)
Lemma binary_normalize_canonical (s : bool) (m : positive) (e : Z) :
  SpecFloat.bounded prec emax m e = true ->
  binary_normalize prec emax (cond_Zopp s (Zpos m)) e false = S754_finite s m e.
Proof.
  intros B. unfold SpecFloat.bounded in B. apply andb_true_iff in B.
  destruct B as [C B]. apply Z.leb_le in B.
  pose proof (canonical_facts m e C) as (Cd & _ & _).
  unfold canonical_mantissa in C. apply Z.eqb_eq in C.
  assert (H : binary_round prec emax s m e = S754_finite s m e).
  { unfold binary_round, shl_align. rewrite C, Z.sub_diag.
    rewrite binary_round_aux_exact by lia.
    rewrite C, Z.sub_diag, round_shift_0.
    unfold pack. cbn [Zdigits2].
    replace (Z.max 0 (Zpos (digits2_pos m) - prec)) with 0 by lia.
    rewrite Z.pow_0_r, Z.div_1_r, Z.add_0_r.
    destruct (Z.leb_spec e (emax - prec)); [reflexivity | lia]. }
  destruct s; cbn [cond_Zopp Z.opp binary_normalize]; exact H.
Qed.

Lemma shl_align_value (m : positive) (e ez : Z) :
  ez <= e -> Zpos (fst (shl_align m e ez)) = Zpos m * 2 ^ (e - ez).
Proof.
  intros H. unfold shl_align.
  destruct (ez - e) as [|p|p] eqn:D; cbn [fst].
  - replace (e - ez) with 0 by lia. rewrite Z.pow_0_r. lia.
  - lia.
  - replace (e - ez) with (Zpos p) by lia. apply iter_xO_value.
Qed.

Lemma cond_Zopp_mul (s : bool) (a b : Z) : cond_Zopp s a * b = cond_Zopp s (a * b).
Proof. destruct s; cbn [cond_Zopp]; lia. Qed.

(** The sum of two finite floats is the rounding of the exact sum. *)
Lemma SFadd_finite (sx sy : bool) (mx my : positive) (ex ey : Z) :
  SFadd prec emax (S754_finite sx mx ex) (S754_finite sy my ey) =
  binary_normalize prec emax
    (signed_mantissa (S754_finite sx mx ex) * 2 ^ (ex - Z.min ex ey) +
     signed_mantissa (S754_finite sy my ey) * 2 ^ (ey - Z.min ex ey))
    (Z.min ex ey) false.
Proof.
  cbn [SFadd signed_mantissa].
  rewrite !shl_align_value by lia. rewrite !cond_Zopp_mul. reflexivity.
Qed.

(** The same for a zero and a finite float. *)
Lemma SFadd_zero_finite (s sy : bool) (my : positive) (ey : Z) :
  SpecFloat.bounded prec emax my ey = true ->
  SFadd prec emax (S754_zero s) (S754_finite sy my ey) =
  binary_normalize prec emax
    (0 * 2 ^ (ey - Z.min ey ey) +
     signed_mantissa (S754_finite sy my ey) * 2 ^ (ey - Z.min ey ey))
    (Z.min ey ey) false.
Proof.
  intros B. cbn [SFadd signed_mantissa].
  rewrite Z.min_id, Z.sub_diag, Z.pow_0_r, !Z.mul_1_r, Z.add_0_l.
  symmetry. apply binary_normalize_canonical. exact B.
Qed.

(** On floats of the format the comparison is the comparison of the
    signed values. *)
Lemma SFleb_signed_value (x1 x2 : spec_float) (d1 d2 : Z) :
  valid_binary x1 = true -> valid_binary x2 = true ->
  (forall s, x1 <> S754_infinity s) -> (forall s, x2 <> S754_infinity s) ->
  SFleb x1 x2 = true ->
  let e1 := exponent_or x1 d1 in
  let e2 := exponent_or x2 d2 in
  signed_mantissa x1 * 2 ^ (e1 - Z.min e1 e2) <=
  signed_mantissa x2 * 2 ^ (e2 - Z.min e1 e2).
Proof.
  intros V1 V2 I1 I2 H. cbv zeta.
  destruct x1 as [s1|s1| |s1 m1 e1]; try discriminate;
    try (exfalso; now apply (I1 s1));
    destruct x2 as [s2|s2| |s2 m2 e2]; try discriminate;
    try (exfalso; now apply (I2 s2));
    try (destruct s1; discriminate);
    cbn [signed_mantissa exponent_or].
  - destruct s2; [discriminate|]. cbn [cond_Zopp].
    assert (0 < 2 ^ (e2 - Z.min d1 e2)) by (apply Z.pow_pos_nonneg; lia). lia.
  - destruct s1; [|discriminate]. cbn [cond_Zopp].
    assert (0 < 2 ^ (e1 - Z.min e1 d2)) by (apply Z.pow_pos_nonneg; lia).
    change (- Zpos m1) with (Zneg m1). lia.
  - unfold valid_binary in *. cbn [SpecFloat.valid_binary] in *.
    apply bounded_canonical in V1. apply bounded_canonical in V2.
    assert (P1 : 0 < 2 ^ (e1 - Z.min e1 e2)) by (apply Z.pow_pos_nonneg; lia).
    assert (P2 : 0 < 2 ^ (e2 - Z.min e1 e2)) by (apply Z.pow_pos_nonneg; lia).
    destruct s1, s2; cbn [cond_Zopp].
    + change (S754_finite true m1 e1) with (SFopp (S754_finite false m1 e1)) in H.
      change (S754_finite true m2 e2) with (SFopp (S754_finite false m2 e2)) in H.
      rewrite SFleb_opp in H.
      pose proof (canonical_le_value m2 m1 e2 e1 V2 V1 H) as Hv.
      rewrite (Z.min_comm e2 e1) in Hv. lia.
    + lia.
    + discriminate.
    + exact (canonical_le_value m1 m2 e1 e2 V1 V2 H).
Qed.

Lemma pow2_scale (z a k : Z) : 0 <= a -> 0 <= k -> z * 2 ^ a * 2 ^ k = z * 2 ^ (a + k).
Proof. intros Ha Hk. rewrite Z.pow_add_r by lia. ring. Qed.

Lemma sum_value_le (X1 X2 Y e1 e2 ey : Z) :
  X1 * 2 ^ (e1 - Z.min e1 e2) <= X2 * 2 ^ (e2 - Z.min e1 e2) ->
  (X1 * 2 ^ (e1 - Z.min e1 ey) + Y * 2 ^ (ey - Z.min e1 ey))
  * 2 ^ (Z.min e1 ey - Z.min (Z.min e1 ey) (Z.min e2 ey)) <=
  (X2 * 2 ^ (e2 - Z.min e2 ey) + Y * 2 ^ (ey - Z.min e2 ey))
  * 2 ^ (Z.min e2 ey - Z.min (Z.min e1 ey) (Z.min e2 ey)).
Proof.
  intros H.
  set (e0 := Z.min e1 e2) in *.
  set (e00 := Z.min (Z.min e1 ey) (Z.min e2 ey)).
  rewrite !Z.mul_add_distr_r.
  rewrite !pow2_scale by (unfold e00; lia).
  replace (e1 - Z.min e1 ey + (Z.min e1 ey - e00)) with (e1 - e0 + (e0 - e00))
    by (unfold e0, e00; lia).
  replace (e2 - Z.min e2 ey + (Z.min e2 ey - e00)) with (e2 - e0 + (e0 - e00))
    by (unfold e0, e00; lia).
  replace (ey - Z.min e1 ey + (Z.min e1 ey - e00)) with (ey - e00) by lia.
  replace (ey - Z.min e2 ey + (Z.min e2 ey - e00)) with (ey - e00) by lia.
  rewrite <- !pow2_scale by (unfold e0, e00; lia).
  apply Z.add_le_mono_r.
  apply Z.mul_le_mono_nonneg_r; [apply Z.pow_nonneg; lia | exact H].
Qed.

(** Adding a finite float is monotone. *)
Lemma SFadd_mono_finite (x1 x2 : spec_float) (sy : bool) (my : positive) (ey : Z) :
  valid_binary x1 = true -> valid_binary x2 = true ->
  SpecFloat.bounded prec emax my ey = true ->
  (forall s, x1 <> S754_infinity s) -> (forall s, x2 <> S754_infinity s) ->
  SFleb x1 x2 = true ->
  SFleb (SFadd prec emax x1 (S754_finite sy my ey))
        (SFadd prec emax x2 (S754_finite sy my ey)) = true.
Proof.
  intros V1 V2 By I1 I2 H.
  pose proof (SFleb_signed_value x1 x2 ey ey V1 V2 I1 I2 H) as Hv.
  cbv zeta in Hv.
  assert (Rep : forall x, valid_binary x = true -> (forall s, x <> S754_infinity s) ->
                          x <> S754_nan ->
            SFadd prec emax x (S754_finite sy my ey) =
            binary_normalize prec emax
              (signed_mantissa x * 2 ^ (exponent_or x ey - Z.min (exponent_or x ey) ey) +
               signed_mantissa (S754_finite sy my ey)
               * 2 ^ (ey - Z.min (exponent_or x ey) ey))
              (Z.min (exponent_or x ey) ey) false).
  { intros [s|s| |s m e] V I N.
    - cbn [exponent_or]. rewrite (SFadd_zero_finite s sy my ey By). reflexivity.
    - exfalso. now apply (I s).
    - contradiction.
    - cbn [exponent_or]. apply SFadd_finite. }
  assert (N1 : x1 <> S754_nan) by (intros ->; discriminate).
  assert (N2 : x2 <> S754_nan) by (intros ->; destruct x1; discriminate).
  rewrite (Rep x1 V1 I1 N1), (Rep x2 V2 I2 N2).
  apply binary_normalize_mono, sum_value_le. exact Hv.
Qed.

Lemma neg_infinity_le (r : spec_float) :
  r <> S754_nan -> SFleb (S754_infinity true) r = true.
Proof. destruct r as [s|[|]| |s m e]; intros H; try reflexivity. contradiction. Qed.

Lemma le_pos_infinity (r : spec_float) :
  r <> S754_nan -> SFleb r (S754_infinity false) = true.
Proof.
  destruct r as [s|[|]| |[|] m e]; intros H; try reflexivity. contradiction.
Qed.

Lemma SFadd_mono (x1 x2 y : spec_float) :
  valid_binary x1 = true -> valid_binary x2 = true -> valid_binary y = true ->
  SFleb x1 x2 = true ->
  SFadd prec emax x1 y <> S754_nan -> SFadd prec emax x2 y <> S754_nan ->
  SFleb (SFadd prec emax x1 y) (SFadd prec emax x2 y) = true.
Proof.
  intros V1 V2 Vy H N1 N2.
  destruct y as [sy|sy| |sy my ey].
  - (* adding a zero *)
    destruct sy;
      destruct x1 as [[|]|[|]| |[|] m1 e1]; try discriminate;
      destruct x2 as [[|]|[|]| |[|] m2 e2]; try discriminate;
      cbn [SFadd] in *; first [reflexivity | exact H].
  - (* adding an infinity *)
    destruct sy;
      destruct x1 as [[|]|[|]| |[|] m1 e1]; try discriminate;
      destruct x2 as [[|]|[|]| |[|] m2 e2]; try discriminate;
      cbn [SFadd] in *; first [reflexivity | congruence].
  - destruct x1; cbn [SFadd] in N1; congruence.
  - (* adding a finite float *)
    unfold valid_binary in Vy. cbn [SpecFloat.valid_binary] in Vy.
    destruct x1 as [s1|[|]| |s1 m1 e1]; try discriminate;
      destruct x2 as [s2|[|]| |s2 m2 e2]; try discriminate;
      try (destruct s1; discriminate);
      first [ apply SFadd_mono_finite; solve [assumption | intros s; discriminate]
            | apply neg_infinity_le; exact N2
            | apply le_pos_infinity; exact N1
            | reflexivity ].
Qed.

(** ** The final clamp *)

Lemma clamp_int_bounds (lo hi count : Z) :
  lo <= hi -> lo <= py_max_int lo (py_min_int count hi) <= hi.
Proof.
  intros Hle. unfold py_max_int, py_min_int.
  destruct (hi <? count) eqn:A; destruct (lo <? _) eqn:B; lia.
Qed.

(** ** Unfolding the reading functions *)

Section Readings.
Variable libm : Libm.

Lemma density_count_from_cases params std dry wet depth t gd r :
  density_count_from libm params std dry wet depth t gd r =
  match density_base_from (H := float_arithmetic libm) params std dry depth t gd with
  | Ok b =>
      if scale_refused (density_cv_adjusted dry) then Raise ValueError
      else
        match py_int (py_mul (H := float_arithmetic libm) b
                        (PyFloat (density_randomization libm dry
                                    (np_gauss r (np_pos r))))) with
        | Ok count =>
            Ok (py_max_int 500
                  (py_min_int
                     (count + nth (py_index r (py_pos r) mod 3)%nat [-1; 0; 1] 0)
                     2000),
                py_advance (np_advance r))
        | Raise e => Raise e
        | OutOfFuel => OutOfFuel
        end
  | Raise e => Raise e
  | OutOfFuel => OutOfFuel
  end.
Proof.
  unfold density_count_from, randomize_density_count,
    density_randomization, density_cv_adjusted.
  unfold bind, ret, gen_monad, lift, np_random_normal, random_choice.
  destruct (density_base_from _ _ _ _ _ _) as [b|e|]; try reflexivity.
  destruct (scale_refused _); try reflexivity.
  destruct (py_int _) as [count|e|]; reflexivity.
Qed.

Lemma moisture_count_from_cases factor std m t r :
  moisture_count_from libm factor std m t r =
  match moisture_base_from (H := float_arithmetic libm) factor std m t with
  | Ok b =>
      match py_int (py_mul (H := float_arithmetic libm) b
                      (PyFloat (moisture_randomization libm m
                                  (np_gauss r (np_pos r))))) with
      | Ok count =>
          Ok (py_max_int 50
                (py_min_int
                   (count + nth (py_index r (py_pos r) mod 3)%nat [-1; 0; 1] 0)
                   500),
              py_advance (np_advance r))
      | Raise e => Raise e
      | OutOfFuel => OutOfFuel
      end
  | Raise e => Raise e
  | OutOfFuel => OutOfFuel
  end.
Proof.
  unfold moisture_count_from, randomize_moisture_count,
    moisture_randomization.
  unfold bind, ret, gen_monad, lift, np_random_normal, random_choice.
  destruct (moisture_base_from _ _ _ _) as [b|e|]; try reflexivity.
  replace (scale_refused 0.08%float) with false by reflexivity.
  destruct (py_int _) as [count|e|]; reflexivity.
Qed.
End Readings.

(** ** When the reading functions return, and what *)

Section ReadingResults.
Variable libm : Libm.
Variable self : TroxlerGaugeSimulator.

Lemma py_int_mul_float (b : pynum float) (x : float) :
  py_int (py_mul (H := float_arithmetic libm) b (PyFloat x)) =
  match b with
  | PyFloat y => py_int_of_float (y * x)%float
  | PyComplex _ _ => Raise TypeError
  end.
Proof. destruct b; reflexivity. Qed.

Lemma density_count_returns dry wet depth t soil gd r :
  (exists n r', calculate_density_count libm self dry wet depth t soil gd r = Ok (n, r'))
  <-> density_returns libm self dry depth t soil gd r = true.
Proof.
  unfold calculate_density_count, density_returns, density_base_count.
  rewrite density_count_from_cases.
  destruct (density_base_from _ _ _ _ _ _) as [[b|re im]|e|];
    try rewrite py_int_mul_float.
  - destruct (scale_refused _); simpl.
    + split; [intros (n & r' & E) | intros E]; discriminate.
    + rewrite py_int_of_float_finite.
      destruct (py_int_of_float _) as [z|e|]; split.
      * intros _. now exists z.
      * intros _. eexists _, _. reflexivity.
      * intros (n & r' & E). discriminate.
      * intros (z & E). discriminate.
      * intros (n & r' & E). discriminate.
      * intros (z & E). discriminate.
  - split; [intros (n & r' & E) | intros E]; try discriminate.
    destruct (scale_refused _); discriminate.
  - split; [intros (n & r' & E) | intros E]; discriminate.
  - split; [intros (n & r' & E) | intros E]; discriminate.
Qed.

Lemma moisture_count_returns m t soil r :
  (exists n r', calculate_moisture_count libm self m t soil r = Ok (n, r'))
  <-> moisture_returns libm self m t soil r = true.
Proof.
  unfold calculate_moisture_count, moisture_returns, moisture_base_count.
  rewrite moisture_count_from_cases.
  destruct (moisture_base_from _ _ _ _) as [[b|re im]|e|];
    try rewrite py_int_mul_float.
  - rewrite py_int_of_float_finite.
    destruct (py_int_of_float _) as [z|e|]; split.
    + intros _. now exists z.
    + intros _. eexists _, _. reflexivity.
    + intros (n & r' & E). discriminate.
    + intros (z & E). discriminate.
    + intros (n & r' & E). discriminate.
    + intros (z & E). discriminate.
  - split; [intros (n & r' & E) | intros E]; discriminate.
  - split; [intros (n & r' & E) | intros E]; discriminate.
  - split; [intros (n & r' & E) | intros E]; discriminate.
Qed.

Lemma density_count_in_range dry wet depth t soil gd r n r' :
  calculate_density_count libm self dry wet depth t soil gd r = Ok (n, r') ->
  500 <= n <= 2000.
Proof.
  unfold calculate_density_count. rewrite density_count_from_cases.
  destruct (density_base_from _ _ _ _ _ _) as [b|e|]; try discriminate.
  destruct (scale_refused _); try discriminate.
  destruct (py_int _) as [count|e|]; try discriminate.
  intros E. injection E as <- _. apply clamp_int_bounds. lia.
Qed.

Lemma moisture_count_in_range m t soil r n r' :
  calculate_moisture_count libm self m t soil r = Ok (n, r') ->
  50 <= n <= 500.
Proof.
  unfold calculate_moisture_count. rewrite moisture_count_from_cases.
  destruct (moisture_base_from _ _ _ _) as [b|e|]; try discriminate.
  destruct (py_int _) as [count|e|]; try discriminate.
  intros E. injection E as <- _. apply clamp_int_bounds. lia.
Qed.

(** A negative finite duration has a complex half power (or none). *)
Lemma float_pow_half_negative (t : float) :
  (t <? 0)%float = true -> is_infinity t = false ->
  float_pow_half libm t = Raise OverflowError \/
  exists re im, float_pow_half libm t = Ok (PyComplex re im).
Proof.
  intros Hneg Hinf. unfold float_pow_half.
  rewrite (ltb_true_is_nan _ _ Hneg), Hinf, (ltb_true_eqb _ _ Hneg), Hneg.
  destruct (c_cpow libm t _) as [re im].
  destruct (is_infinity re || is_infinity im); [now left | right; eauto].
Qed.

Lemma density_base_negative_duration params std dry depth t gd b :
  (t <? 0)%float = true -> is_infinity t = false ->
  density_base_from (H := float_arithmetic libm) params std dry depth t gd = Ok b ->
  exists re im, b = PyComplex re im.
Proof.
  intros Hneg Hinf. unfold density_base_from.
  cbn [bind ret outcome_monad pow_half float_arithmetic of_int int_div].
  destruct (float_pow_half_negative t Hneg Hinf) as [E | (re & im & E)].
  - destruct (String.eqb depth "BS").
    + rewrite E. discriminate.
    + destruct (int_to_float _); try discriminate. rewrite E. discriminate.
  - destruct (String.eqb depth "BS").
    + rewrite E. destruct (int_true_divide _ _); try discriminate.
      intros H. injection H as <-. simpl. eauto.
    + destruct (int_to_float _); try discriminate. rewrite E.
      destruct (int_true_divide _ _); try discriminate.
      intros H. injection H as <-. simpl. eauto.
Qed.

Lemma moisture_base_negative_duration factor std m t b :
  (t <? 0)%float = true -> is_infinity t = false ->
  moisture_base_from (H := float_arithmetic libm) factor std m t = Ok b ->
  exists re im, b = PyComplex re im.
Proof.
  intros Hneg Hinf. unfold moisture_base_from.
  cbn [bind ret outcome_monad pow_half float_arithmetic of_int int_div].
  destruct (float_pow_half_negative t Hneg Hinf) as [E | (re & im & E)];
    rewrite E; try discriminate.
  destruct (int_true_divide _ _); try discriminate.
  intros H. injection H as <-. simpl. eauto.
Qed.

Lemma base_counts_never_out_of_fuel :
  (forall params std dry depth t gd,
      density_base_from (H := float_arithmetic libm) params std dry depth t gd
      <> OutOfFuel) /\
  (forall factor std m t,
      moisture_base_from (H := float_arithmetic libm) factor std m t <> OutOfFuel).
Proof.
  split; intros.
  - unfold density_base_from, float_pow_half, int_to_float, int_true_divide.
    cbn [bind ret outcome_monad pow_half float_arithmetic of_int int_div].
    unfold float_pow_half, int_to_float, int_true_divide.
    repeat match goal with
           | |- context [if ?c then _ else _] => destruct c
           | |- context [let '(_, _) := ?p in _] => destruct p
           end; discriminate.
  - unfold moisture_base_from, float_pow_half, int_to_float, int_true_divide.
    cbn [bind ret outcome_monad pow_half float_arithmetic of_int int_div].
    unfold float_pow_half, int_to_float, int_true_divide.
    repeat match goal with
           | |- context [if ?c then _ else _] => destruct c
           | |- context [let '(_, _) := ?p in _] => destruct p
           end; discriminate.
Qed.

Lemma negative_duration_raises (t : float) :
  (t <? 0)%float = true -> is_infinity t = false ->
  (forall dry wet depth soil gd r,
      exists e, calculate_density_count libm self dry wet depth t soil gd r = Raise e) /\
  (forall m soil r,
      exists e, calculate_moisture_count libm self m t soil r = Raise e).
Proof.
  intros Hneg Hinf. split; intros.
  - unfold calculate_density_count. rewrite density_count_from_cases.
    destruct (density_base_from _ _ _ _ _ _) as [b|e|] eqn:E.
    + destruct (density_base_negative_duration _ _ _ _ _ _ _ Hneg Hinf E)
        as (re & im & ->).
      destruct (scale_refused _); [now exists ValueError | now exists TypeError].
    + now exists e.
    + now apply (proj1 base_counts_never_out_of_fuel) in E.
  - unfold calculate_moisture_count. rewrite moisture_count_from_cases.
    destruct (moisture_base_from _ _ _ _) as [b|e|] eqn:E.
    + destruct (moisture_base_negative_duration _ _ _ _ _ Hneg Hinf E)
        as (re & im & ->).
      now exists TypeError.
    + now exists e.
    + now apply (proj2 base_counts_never_out_of_fuel) in E.
Qed.
End ReadingResults.

(** ** The count ranges *)

(** C1 (amended). On every input on which the call completes (the base
    count is a float, the normal sampler accepts its scale and the perturbed
    count is finite) [calculate_density_count] returns an integer in
    [500, 2000] and [calculate_moisture_count] an integer in [50, 500];
    and whatever either function returns lies in its range. *)
Theorem counts_within_clamp_bounds (libm : Libm) (self : TroxlerGaugeSimulator) :
  (forall dry wet depth t soil gd r,
      density_returns libm self dry depth t soil gd r = true ->
      exists n r',
        calculate_density_count libm self dry wet depth t soil gd r = Ok (n, r')
        /\ 500 <= n <= 2000) /\
  (forall m t soil r,
      moisture_returns libm self m t soil r = true ->
      exists n r',
        calculate_moisture_count libm self m t soil r = Ok (n, r')
        /\ 50 <= n <= 500) /\
  (forall dry wet depth t soil gd r n r',
      calculate_density_count libm self dry wet depth t soil gd r = Ok (n, r') ->
      500 <= n <= 2000) /\
  (forall m t soil r n r',
      calculate_moisture_count libm self m t soil r = Ok (n, r') ->
      50 <= n <= 500).
Proof.
  repeat split.
  - intros dry wet depth t soil gd r Hret.
    apply (density_count_returns libm self dry wet) in Hret.
    destruct Hret as (n & r' & E). exists n, r'. split; [exact E|].
    eapply density_count_in_range; eassumption.
  - intros m t soil r Hret.
    apply moisture_count_returns in Hret.
    destruct Hret as (n & r' & E). exists n, r'. split; [exact E|].
    eapply moisture_count_in_range; eassumption.
  - eapply density_count_in_range; eassumption.
  - eapply density_count_in_range; eassumption.
  - eapply moisture_count_in_range; eassumption.
  - eapply moisture_count_in_range; eassumption.
Qed.

Lemma counts_within_clamp_bounds_witness :
  exists n r',
    calculate_density_count Reference.libm default_simulator
      115.8%float 125.1%float "DS" 1.0%float "CL (Lean clay)" 8 quiet_rng
    = Ok (n, r')
    /\ 500 <= n <= 2000.
Proof.
  apply (proj1 (counts_within_clamp_bounds Reference.libm default_simulator)).
  vm_compute. reflexivity.
Defined.

(** C1 as stated fails: with a duration of -1 the density reading raises
    [TypeError] instead of returning a count. *)
Lemma density_count_negative_duration_fails :
  value (calculate_density_count Reference.libm default_simulator
           115.8%float 125.1%float "DS" (-1.0)%float "CL (Lean clay)" 8 quiet_rng)
  = Raise TypeError.
Proof. vm_compute. reflexivity. Qed.

(** C7 (amended). The reading functions return exactly on the inputs
    described by [density_returns] and [moisture_returns]; malformed numbers
    outside of them are not absorbed. In particular a negative finite
    duration makes both functions raise, on every other input. *)
Theorem readings_return_exactly_when (libm : Libm) (self : TroxlerGaugeSimulator) :
  (forall dry wet depth t soil gd r,
      (exists n r',
          calculate_density_count libm self dry wet depth t soil gd r = Ok (n, r'))
      <-> density_returns libm self dry depth t soil gd r = true) /\
  (forall m t soil r,
      (exists n r', calculate_moisture_count libm self m t soil r = Ok (n, r'))
      <-> moisture_returns libm self m t soil r = true) /\
  (forall t,
      (t <? 0)%float = true -> is_infinity t = false ->
      (forall dry wet depth soil gd r,
          exists e,
            calculate_density_count libm self dry wet depth t soil gd r = Raise e) /\
      (forall m soil r,
          exists e, calculate_moisture_count libm self m t soil r = Raise e)).
Proof.
  split; [|split].
  - intros. apply density_count_returns.
  - intros. apply moisture_count_returns.
  - intros t Hneg Hinf. now apply negative_duration_raises.
Qed.

Lemma readings_return_exactly_when_witness :
  (exists n r',
      calculate_moisture_count Reference.libm default_simulator
        8.0%float 1.0%float "CL (Lean clay)" quiet_rng = Ok (n, r')) /\
  (exists e,
      calculate_moisture_count Reference.libm default_simulator
        8.0%float (-0.5)%float "CL (Lean clay)" quiet_rng = Raise e).
Proof.
  pose proof (readings_return_exactly_when Reference.libm default_simulator)
    as (_ & Hm & Hneg).
  split.
  - apply Hm. vm_compute. reflexivity.
  - apply (Hneg (-0.5)%float); vm_compute; reflexivity.
Defined.

(** C7 as stated fails: a negative duration crashes both reading
    functions. *)
Lemma negative_duration_crashes_both_readings :
  value (calculate_density_count Reference.libm default_simulator
           115.8%float 125.1%float "BS" (-4.0)%float "SM (Silty sand)" 8 quiet_rng)
  = Raise TypeError /\
  value (calculate_moisture_count Reference.libm default_simulator
           8.0%float (-4.0)%float "SM (Silty sand)" quiet_rng)
  = Raise TypeError.
Proof. split; vm_compute; reflexivity. Qed.

(** ** What the results depend on *)

(** C10. The [wet_density] argument of [calculate_density_count] never
    influences the result: two calls that differ only in it, on the same
    random draws, return the same count and leave the same generator
    state. *)
Theorem wet_density_is_ignored (libm : Libm) (self : TroxlerGaugeSimulator)
    (dry wet1 wet2 : float) (depth : string) (t : float) (soil : string)
    (gd : Z) (r : rng) :
  calculate_density_count libm self dry wet1 depth t soil gd r =
  calculate_density_count libm self dry wet2 depth t soil gd r.
Proof.
  unfold calculate_density_count.
  now rewrite !density_count_from_cases.
Qed.

Section SameCalibration.
Variable libm : Libm.
Variables a b : TroxlerGaugeSimulator.
Hypothesis Hsame : same_calibration a b.

Lemma same_calibration_density dry wet depth t soil gd r :
  calculate_density_count libm a dry wet depth t soil gd r =
  calculate_density_count libm b dry wet depth t soil gd r.
Proof.
  destruct Hsame as (_ & Hd & _ & Htab & _).
  unfold calculate_density_count. now rewrite Hd, Htab.
Qed.

Lemma same_calibration_moisture m t soil r :
  calculate_moisture_count libm a m t soil r =
  calculate_moisture_count libm b m t soil r.
Proof.
  destruct Hsame as (_ & _ & Hm & _ & Htab).
  unfold calculate_moisture_count. now rewrite Hm, Htab.
Qed.

Lemma same_calibration_record mdd depth t soil gd comps moists i r :
  make_record libm a mdd depth t soil gd comps moists i r =
  make_record libm b mdd depth t soil gd comps moists i r.
Proof.
  unfold make_record, bind, gen_monad, lift.
  destruct (list_get comps _) as [c|e|]; try reflexivity.
  destruct (list_get moists _) as [m|e|]; try reflexivity.
  rewrite same_calibration_density.
  destruct (calculate_density_count libm b _ _ _ _ _ _ _) as [[dc r1]|e|];
    try reflexivity.
  now rewrite same_calibration_moisture.
Qed.

Lemma same_calibration_results mdd depth t soil gd comps moists tests :
  forall results r,
    build_results libm a mdd depth t soil gd comps moists tests results r =
    build_results libm b mdd depth t soil gd comps moists tests results r.
Proof.
  induction tests as [|i rest IH]; intros results r; [reflexivity|].
  cbn [build_results]. unfold bind, gen_monad.
  rewrite same_calibration_record.
  destruct (make_record libm b _ _ _ _ _ _ _ _ _) as [[rec r1]|e|];
    try reflexivity.
  apply IH.
Qed.

Lemma same_calibration_batch fuel mdd opt n depth t soil gd r :
  generate_sample_tests libm fuel a mdd opt n depth t soil gd r =
  generate_sample_tests libm fuel b mdd opt n depth t soil gd r.
Proof.
  unfold generate_sample_tests, bind, gen_monad.
  destruct (draw_compactions _ _ _) as [[c0 r1]|e|]; try reflexivity.
  destruct (dedupe_compactions _ _ _ _ _) as [[c1 r2]|e|]; try reflexivity.
  destruct (draw_moistures _ _ _ _ _ _) as [[ms r3]|e|]; try reflexivity.
  apply same_calibration_results.
Qed.
End SameCalibration.

(** C9. Two simulator instances that differ only in the labels [model] and
    [serial_number] give identical results, on the same random draws, for
    both reading functions and for the batch generator; so of the four
    constructor arguments only the two standard counts matter. *)
Theorem labels_do_not_affect_results (libm : Libm) (a b : TroxlerGaugeSimulator) :
  same_calibration a b ->
  (forall dry wet depth t soil gd r,
      calculate_density_count libm a dry wet depth t soil gd r =
      calculate_density_count libm b dry wet depth t soil gd r) /\
  (forall m t soil r,
      calculate_moisture_count libm a m t soil r =
      calculate_moisture_count libm b m t soil r) /\
  (forall fuel mdd opt n depth t soil gd r,
      generate_sample_tests libm fuel a mdd opt n depth t soil gd r =
      generate_sample_tests libm fuel b mdd opt n depth t soil gd r).
Proof.
  intros Hsame. split; [|split]; intros.
  - now apply same_calibration_density.
  - now apply same_calibration_moisture.
  - now apply same_calibration_batch.
Qed.

Lemma labels_do_not_affect_results_witness :
  (forall dry wet depth t soil gd r,
      calculate_density_count Reference.libm (__init__ "3440" "12345" 1570 670)
        dry wet depth t soil gd r =
      calculate_density_count Reference.libm (__init__ "3450" "98765" 1570 670)
        dry wet depth t soil gd r) /\
  (forall m t soil r,
      calculate_moisture_count Reference.libm (__init__ "3440" "12345" 1570 670)
        m t soil r =
      calculate_moisture_count Reference.libm (__init__ "3450" "98765" 1570 670)
        m t soil r) /\
  (forall fuel mdd opt n depth t soil gd r,
      generate_sample_tests Reference.libm fuel (__init__ "3440" "12345" 1570 670)
        mdd opt n depth t soil gd r =
      generate_sample_tests Reference.libm fuel (__init__ "3450" "98765" 1570 670)
        mdd opt n depth t soil gd r).
Proof.
  apply labels_do_not_affect_results.
  repeat split; reflexivity.
Defined.

(** Conversely the standard counts do matter: the same call on the same
    draws reads 837 with a density standard count of 1570 and 1066 with
    2000. *)
Example standard_count_changes_the_reading :
  value (calculate_density_count Reference.libm (__init__ "3440" "12345" 1570 670)
           115.8%float 125.1%float "DS" 1.0%float "CL (Lean clay)" 8 quiet_rng)
  = Ok 837 /\
  value (calculate_density_count Reference.libm (__init__ "3440" "12345" 2000 670)
           115.8%float 125.1%float "DS" 1.0%float "CL (Lean clay)" 8 quiet_rng)
  = Ok 1066.
Proof. split; vm_compute; reflexivity. Qed.

(** ** Unknown soil types *)

Lemma dict_get_absent {V : Type} (key : string) (d : list (string * V)) (default : V) :
  dict_has key d = false -> dict_get key d default = default.
Proof.
  unfold dict_has, dict_keys.
  induction d as [|[k v] d IH]; cbn [map existsb dict_get fst]; [reflexivity|].
  destruct (String.eqb k key); [discriminate|]. exact IH.
Qed.

(** C3. For a soil type that is in neither calibration table the density
    reading is the one computed from intercept 4986 and slope -34.6 and the
    moisture reading the one computed from factor 1.0, on the same random
    draws: the look-up itself never fails. *)
Theorem unknown_soil_type_uses_defaults (libm : Libm)
    (self : TroxlerGaugeSimulator) (soil : string) :
  dict_has soil (soil_density_equations self) = false ->
  dict_has soil (soil_moisture_factors self) = false ->
  (forall dry wet depth t gd r,
      calculate_density_count libm self dry wet depth t soil gd r =
      density_count_from libm {| intercept := 4986; slope := -34.6 |}
        (std_density_count self) dry wet depth t gd r) /\
  (forall m t r,
      calculate_moisture_count libm self m t soil r =
      moisture_count_from libm 1.0 (std_moisture_count self) m t r).
Proof.
  intros Hd Hm. split; intros.
  - unfold calculate_density_count. now rewrite (dict_get_absent _ _ _ Hd).
  - unfold calculate_moisture_count. now rewrite (dict_get_absent _ _ _ Hm).
Qed.

Lemma unknown_soil_type_uses_defaults_witness :
  (forall dry wet depth t gd r,
      calculate_density_count Reference.libm default_simulator
        dry wet depth t "Loam" gd r =
      density_count_from Reference.libm {| intercept := 4986; slope := -34.6 |}
        1570 dry wet depth t gd r) /\
  (forall m t r,
      calculate_moisture_count Reference.libm default_simulator m t "Loam" r =
      moisture_count_from Reference.libm 1.0 670 m t r).
Proof.
  apply (unknown_soil_type_uses_defaults Reference.libm default_simulator "Loam");
    reflexivity.
Defined.

(** ** The base count *)

Lemma float_lit_one : float_lit 1.0 = float_lit 1.
Proof. vm_compute. reflexivity. Qed.

(** *** The half power of a duration *)

Lemma get_sign_Prim2SF (t : float) :
  get_sign t =
  match Prim2SF t with
  | S754_zero s | S754_infinity s | S754_finite s _ _ => s
  | S754_nan => false
  end.
Proof.
  unfold get_sign, is_zero. rewrite eqb_spec.
  replace (Prim2SF zero) with (S754_zero false) by reflexivity.
  assert (H1 : exists m e, Prim2SF one = S754_finite false m e)
    by (vm_compute; eauto).
  destruct H1 as (m1 & e1 & E1).
  destruct (Prim2SF t) as [[|]|[|]| |[|] m e] eqn:E; unfold SFeqb; cbn [SFcompare];
    rewrite ltb_spec, ?div_spec, ?E, ?E1;
    replace (Prim2SF zero) with (S754_zero false) by reflexivity;
    reflexivity.
Qed.

Lemma SFcompare_Eq_finite (x : spec_float) (s : bool) (m : positive) (e : Z) :
  SFcompare x (S754_finite s m e) = Some Eq -> x = S754_finite s m e.
Proof.
  destruct x as [sx|sx| |sx mx ex]; cbn [SFcompare]; try discriminate;
    try (destruct sx; discriminate); try (destruct s; discriminate).
  destruct sx, s; try discriminate;
    destruct (Z.compare_spec ex e) as [E|L|G]; try discriminate; subst;
    change (Pos.compare_cont Eq mx m) with (Pos.compare mx m);
    destruct (Pos.compare_spec mx m) as [E'|L'|G']; try discriminate;
    subst; reflexivity.
Qed.

Lemma eqb_one (t : float) : (t =? 1)%float = true -> t = 1%float.
Proof.
  rewrite eqb_spec. unfold SFeqb. intros H. apply Prim2SF_inj.
  assert (H1 : exists m e, Prim2SF 1 = S754_finite false m e)
    by (vm_compute; eauto).
  destruct H1 as (m & e & E1). rewrite E1 in *.
  apply SFcompare_Eq_finite.
  destruct (SFcompare _ _) as [[| |]|]; try discriminate. reflexivity.
Qed.

(** On a platform whose [pow(t, 0.5)] is the correctly rounded square
    root, [t ** 0.5] is that square root for every duration whose sign bit
    is clear, and it never overflows. *)
Lemma float_pow_half_sqrt (libm : Libm) (t : float) :
  get_sign t = false ->
  c_pow libm t 0.5 = PrimFloat.sqrt t ->
  float_pow_half libm t = Ok (PyFloat (PrimFloat.sqrt t)).
Proof.
  intros Hs Hp. unfold float_pow_half.
  rewrite get_sign_Prim2SF in Hs.
  rewrite is_nan_Prim2SF, is_infinity_Prim2SF, !eqb_spec, ltb_spec.
  replace (Prim2SF 0) with (S754_zero false) by reflexivity.
  destruct (Prim2SF t) as [s|s| |s m e] eqn:E; subst; unfold SFeqb, SFltb.
  - cbn [SFcompare]. do 2 f_equal.
    apply Prim2SF_inj. rewrite sqrt_spec, E. reflexivity.
  - do 2 f_equal. apply Prim2SF_inj. rewrite sqrt_spec, E. reflexivity.
  - do 2 f_equal. apply Prim2SF_inj. rewrite sqrt_spec, E. reflexivity.
  - change (SFcompare (S754_finite false m e) (S754_zero false)) with (Some Gt).
    cbv iota.
    destruct (SFcompare (S754_finite false m e) (Prim2SF 1)) as [[| |]|] eqn:C.
    + assert (H1 : t = 1%float).
      { apply eqb_one. rewrite eqb_spec, E. unfold SFeqb. now rewrite C. }
      subst t. reflexivity.
    + rewrite Hp, sqrt_not_infinity; [reflexivity|].
      rewrite is_infinity_Prim2SF, E. reflexivity.
    + rewrite Hp, sqrt_not_infinity; [reflexivity|].
      rewrite is_infinity_Prim2SF, E. reflexivity.
    + rewrite Hp, sqrt_not_infinity; [reflexivity|].
      rewrite is_infinity_Prim2SF, E. reflexivity.
Qed.

Lemma int_to_float_binary64 (z : Z) :
  int_to_float z =
  if is_infinity (binary64_of_Z z) then Raise OverflowError
  else Ok (binary64_of_Z z).
Proof. reflexivity. Qed.

Lemma int_true_divide_nearest (a : Z) (d : positive) :
  int_true_divide a (Zpos d) =
  if is_infinity (float_lit (a # d)) then Raise OverflowError
  else Ok (float_lit (a # d)).
Proof. reflexivity. Qed.

(** *** The base counts in closed form *)

Section ClosedForm.
Variable libm : Libm.
Variable self : TroxlerGaugeSimulator.
Variable t : float.
Hypothesis sign_clear : get_sign t = false.
Hypothesis pow_is_sqrt : c_pow libm t 0.5 = PrimFloat.sqrt t.

Lemma density_base_closed_form (dry : float) (depth soil : string) (gd : Z) :
  density_base_count (H := float_arithmetic libm) self dry depth t soil gd =
  if density_base_overflows self depth gd then Raise OverflowError
  else Ok (PyFloat (density_base_formula self dry depth t soil gd)).
Proof.
  unfold density_base_count, density_base_from, density_base_formula,
    spec_depth_factor, density_base_overflows.
  cbn [bind ret outcome_monad lit of_int int_div pow_half float_arithmetic
       num_add num_mul].
  rewrite (float_pow_half_sqrt libm t sign_clear pow_is_sqrt).
  rewrite int_to_float_binary64, (int_true_divide_nearest _ 1570), float_lit_one.
  destruct (String.eqb depth "BS"); cbn [negb andb orb].
  - destruct (is_infinity (float_lit _)); reflexivity.
  - destruct (is_infinity (binary64_of_Z _)); cbn [orb];
      [reflexivity | destruct (is_infinity (float_lit _)); reflexivity].
Qed.

Lemma moisture_base_closed_form (m : float) (soil : string) :
  moisture_base_count (H := float_arithmetic libm) self m t soil =
  if moisture_base_overflows self then Raise OverflowError
  else Ok (PyFloat (moisture_base_formula self m t soil)).
Proof.
  unfold moisture_base_count, moisture_base_from, moisture_base_formula,
    moisture_base_overflows.
  cbn [bind ret outcome_monad lit of_int int_div pow_half float_arithmetic
       num_add num_mul].
  rewrite (float_pow_half_sqrt libm t sign_clear pow_is_sqrt).
  rewrite (int_true_divide_nearest _ 670).
  destruct (is_infinity (float_lit _)); reflexivity.
Qed.
End ClosedForm.

(** C4 (amended). For a duration whose sign bit is clear (zero, positive,
    infinite or NaN), on a platform whose [pow(t, 0.5)] is the correctly
    rounded square root, the value of [base_count] when the randomization
    of [calculate_density_count] starts is, in binary64 and from left to
    right, [intercept + slope * dry_density] times 1.15 in backscatter mode
    and times [1 + (gauge_depth - 6) * 0.01] otherwise, times the square
    root of the duration, times [std_density_count / 1570]; the function
    raises [OverflowError] instead exactly when [gauge_depth - 6] (outside
    backscatter mode) or the ratio has no binary64 value. *)
Theorem density_base_is_the_formula (libm : Libm) (self : TroxlerGaugeSimulator)
    (dry : float) (depth : string) (t : float) (soil : string) (gd : Z) :
  get_sign t = false ->
  c_pow libm t 0.5 = PrimFloat.sqrt t ->
  density_base_count (H := float_arithmetic libm) self dry depth t soil gd =
  (if density_base_overflows self depth gd then Raise OverflowError
   else Ok (PyFloat (density_base_formula self dry depth t soil gd))) /\
  (forall (wet : float) (r : rng),
      calculate_density_count libm self dry wet depth t soil gd r =
      if density_base_overflows self depth gd then Raise OverflowError
      else randomize_density_count libm
             (PyFloat (density_base_formula self dry depth t soil gd)) dry r).
Proof.
  intros Hs Hp.
  pose proof (density_base_closed_form libm self t Hs Hp dry depth soil gd) as Hb.
  split; [exact Hb|].
  intros wet r.
  unfold calculate_density_count, density_count_from.
  unfold density_base_count in Hb.
  unfold bind at 1. unfold gen_monad, lift. rewrite Hb.
  destruct (density_base_overflows self depth gd); reflexivity.
Qed.

Lemma density_base_is_the_formula_witness :
  get_sign 2.5%float = false /\
  c_pow Reference.libm 2.5 0.5 = PrimFloat.sqrt 2.5 /\
  density_base_overflows default_simulator "DS" 8 = false /\
  density_base_count (H := float_arithmetic Reference.libm) default_simulator
    115.8%float "DS" 2.5%float "CL (Lean clay)" 8 =
  (if density_base_overflows default_simulator "DS" 8 then Raise OverflowError
   else Ok (PyFloat (density_base_formula default_simulator
                       115.8%float "DS" 2.5%float "CL (Lean clay)" 8))) /\
  (forall (wet : float) (r : rng),
      calculate_density_count Reference.libm default_simulator
        115.8%float wet "DS" 2.5%float "CL (Lean clay)" 8 r =
      if density_base_overflows default_simulator "DS" 8 then Raise OverflowError
      else randomize_density_count Reference.libm
             (PyFloat (density_base_formula default_simulator
                         115.8%float "DS" 2.5%float "CL (Lean clay)" 8))
             115.8%float r).
Proof.
  split; [reflexivity|]. split; [reflexivity|]. split; [reflexivity|].
  apply (density_base_is_the_formula Reference.libm default_simulator
           115.8%float "DS" 2.5%float "CL (Lean clay)" 8); reflexivity.
Defined.

(** C4 as stated fails: for a negative duration the value is a complex
    number, where the formula gives NaN; when [gauge_depth - 6] has no
    binary64 value there is no value at all; and for the duration [-0.0]
    the value is [+0.0], where the formula gives [-0.0]. *)
Lemma negative_duration_base_is_complex :
  (exists re im,
      density_base_count (H := float_arithmetic Reference.libm) default_simulator
        115.8%float "DS" (-4.0)%float "CL (Lean clay)" 8 = Ok (PyComplex re im)) /\
  is_nan (density_base_formula default_simulator
            115.8%float "DS" (-4.0)%float "CL (Lean clay)" 8) = true /\
  density_base_count (H := float_arithmetic Reference.libm) default_simulator
    115.8%float "DS" 1.0%float "CL (Lean clay)" (2 ^ 1100) = Raise OverflowError /\
  (exists b,
      density_base_count (H := float_arithmetic Reference.libm) default_simulator
        115.8%float "DS" (-0.0)%float "CL (Lean clay)" 8 = Ok (PyFloat b) /\
      get_sign b = false /\
      get_sign (density_base_formula default_simulator
                  115.8%float "DS" (-0.0)%float "CL (Lean clay)" 8) = true).
Proof.
  split; [|split; [|split]].
  - vm_compute. eexists _, _. reflexivity.
  - vm_compute. reflexivity.
  - vm_compute. reflexivity.
  - vm_compute. eexists. split; [reflexivity|]. split; reflexivity.
Qed.

(** ** The duration *)

Lemma ltb_sign_clear (d1 d2 : float) :
  get_sign d1 = false -> (d1 <? d2)%float = true ->
  get_sign d2 = false /\ (0 <=? d1)%float = true /\ (d1 <=? d2)%float = true.
Proof.
  rewrite (get_sign_Prim2SF d1), (get_sign_Prim2SF d2).
  rewrite ltb_spec, !leb_spec, Prim2SF_zero.
  unfold SFltb, SFleb.
  destruct (Prim2SF d1) as [s1|s1| |s1 m1 e1]; intros Hs1; try subst s1;
    destruct (Prim2SF d2) as [s2|[|]| |[|] m2 e2]; cbn [SFcompare];
    try discriminate; intros H; repeat split; try reflexivity;
    destruct (e1 ?= e2); try discriminate; try reflexivity;
    destruct (Pos.compare_cont Eq m1 m2); try discriminate; reflexivity.
Qed.

Lemma sqrt_nonneg (a : float) :
  (0 <=? a)%float = true -> (0 <=? PrimFloat.sqrt a)%float = true.
Proof.
  intros H. pose proof (sqrt_le_mono 0 a eq_refl H) as Hs.
  change (PrimFloat.sqrt 0) with 0%float in Hs. exact Hs.
Qed.

Lemma grows_by_root_products (d1 d2 x f : float) (overflows : bool) :
  get_sign d1 = false -> (d1 <? d2)%float = true ->
  grows_by_root d1 d2
    (if overflows then Raise OverflowError
     else Ok (PyFloat (x * PrimFloat.sqrt d1 * f)%float))
    (if overflows then Raise OverflowError
     else Ok (PyFloat (x * PrimFloat.sqrt d2 * f)%float)).
Proof.
  intros Hs Hlt. destruct (ltb_sign_clear d1 d2 Hs Hlt) as (_ & H0 & Hle).
  destruct overflows; [left; split; reflexivity | right].
  exists x, f. cbv zeta. split; [reflexivity|]. split; [reflexivity|].
  destruct (is_nan (x * PrimFloat.sqrt d1 * f)) eqn:N1; [reflexivity|].
  destruct (is_nan (x * PrimFloat.sqrt d2 * f)) eqn:N2; [reflexivity|].
  cbn [orb].
  apply scaled_magnitude_mono; try assumption.
  - apply sqrt_nonneg. exact H0.
  - apply sqrt_le_mono; assumption.
Qed.

(** C8 (amended). For durations [d1 < d2] whose sign bit is clear, all
    other inputs fixed, on a platform whose [pow(d, 0.5)] is the correctly
    rounded square root at both: each reading function either raises
    [OverflowError] at both durations, or its pre-clamp base at duration
    [d] is the binary64 product [x * sqrt d * f], where [x] and [f] do not
    depend on [d], and unless one of the two bases is NaN the magnitude at
    [d2] is not below the magnitude at [d1]. *)
Theorem base_magnitude_grows_with_duration (libm : Libm)
    (self : TroxlerGaugeSimulator) (dry : float) (depth dsoil : string) (gd : Z)
    (m : float) (msoil : string) (d1 d2 : float) :
  get_sign d1 = false -> (d1 <? d2)%float = true ->
  c_pow libm d1 0.5 = PrimFloat.sqrt d1 ->
  c_pow libm d2 0.5 = PrimFloat.sqrt d2 ->
  grows_by_root d1 d2
    (density_base_count (H := float_arithmetic libm) self dry depth d1 dsoil gd)
    (density_base_count (H := float_arithmetic libm) self dry depth d2 dsoil gd) /\
  grows_by_root d1 d2
    (moisture_base_count (H := float_arithmetic libm) self m d1 msoil)
    (moisture_base_count (H := float_arithmetic libm) self m d2 msoil).
Proof.
  intros Hs Hlt Hp1 Hp2.
  destruct (ltb_sign_clear d1 d2 Hs Hlt) as (Hs2 & _ & _).
  split.
  - rewrite (density_base_closed_form libm self d1 Hs Hp1),
      (density_base_closed_form libm self d2 Hs2 Hp2).
    unfold density_base_formula.
    apply grows_by_root_products; assumption.
  - rewrite (moisture_base_closed_form libm self d1 Hs Hp1),
      (moisture_base_closed_form libm self d2 Hs2 Hp2).
    unfold moisture_base_formula.
    apply grows_by_root_products; assumption.
Qed.

Lemma base_magnitude_grows_with_duration_witness :
  get_sign 1.0%float = false /\ (1.0 <? 4.0)%float = true /\
  c_pow Reference.libm 1.0 0.5 = PrimFloat.sqrt 1.0 /\
  c_pow Reference.libm 4.0 0.5 = PrimFloat.sqrt 4.0 /\
  (grows_by_root 1.0 4.0
     (density_base_count (H := float_arithmetic Reference.libm) default_simulator
        115.8%float "DS" 1.0%float "CL (Lean clay)" 8)
     (density_base_count (H := float_arithmetic Reference.libm) default_simulator
        115.8%float "DS" 4.0%float "CL (Lean clay)" 8) /\
   grows_by_root 1.0 4.0
     (moisture_base_count (H := float_arithmetic Reference.libm) default_simulator
        8.0%float 1.0%float "CL (Lean clay)")
     (moisture_base_count (H := float_arithmetic Reference.libm) default_simulator
        8.0%float 4.0%float "CL (Lean clay)")) /\
  (exists b1 b2,
      density_base_count (H := float_arithmetic Reference.libm) default_simulator
        115.8%float "DS" 1.0%float "CL (Lean clay)" 8 = Ok (PyFloat b1) /\
      density_base_count (H := float_arithmetic Reference.libm) default_simulator
        115.8%float "DS" 4.0%float "CL (Lean clay)" 8 = Ok (PyFloat b2) /\
      is_nan b1 = false /\ is_nan b2 = false /\
      (abs b1 <=? abs b2)%float = true).
Proof.
  split; [reflexivity|]. split; [reflexivity|].
  split; [reflexivity|]. split; [reflexivity|].
  split.
  - apply (base_magnitude_grows_with_duration Reference.libm default_simulator
             115.8%float "DS" "CL (Lean clay)" 8 8.0%float "CL (Lean clay)"
             1.0%float 4.0%float); reflexivity.
  - vm_compute. eexists _, _. repeat split.
Defined.

(** C8 as stated fails. For silty gravel at a dry density of 160 the
    linear term is zero and the base is 0 at durations 1 and 4. At 2.5 and
    at the next binary64 value above 2.5 the base is the same non-zero
    number. With a standard count of 1500 the base at duration 2 is not
    the square root of 2 times the base at duration 1. For durations
    -4 and -1 the bases are complex numbers. *)
Lemma longer_duration_same_base :
  ((1.0 <? 4.0)%float = true /\
   density_base_count (H := float_arithmetic Reference.libm) default_simulator
     160.0%float "DS" 1.0%float "GM (Silty gravel)" 8 = Ok (PyFloat 0%float) /\
   density_base_count (H := float_arithmetic Reference.libm) default_simulator
     160.0%float "DS" 4.0%float "GM (Silty gravel)" 8 = Ok (PyFloat 0%float)) /\
  ((2.5 <? next_up 2.5)%float = true /\
   exists b,
     (0 <? b)%float = true /\
     density_base_count (H := float_arithmetic Reference.libm) default_simulator
       115.8%float "DS" 2.5%float "CL (Lean clay)" 8 = Ok (PyFloat b) /\
     density_base_count (H := float_arithmetic Reference.libm) default_simulator
       115.8%float "DS" (next_up 2.5)%float "CL (Lean clay)" 8 = Ok (PyFloat b)) /\
  (exists b1 b2,
     density_base_count (H := float_arithmetic Reference.libm)
       (__init__ "3440" "12345" 1500 670)
       115.8%float "DS" 1.0%float "CL (Lean clay)" 8 = Ok (PyFloat b1) /\
     density_base_count (H := float_arithmetic Reference.libm)
       (__init__ "3440" "12345" 1500 670)
       115.8%float "DS" 2.0%float "CL (Lean clay)" 8 = Ok (PyFloat b2) /\
     (b2 =? PrimFloat.sqrt 2.0 * b1)%float = false) /\
  (exists re1 im1 re2 im2,
     density_base_count (H := float_arithmetic Reference.libm) default_simulator
       115.8%float "DS" (-4.0)%float "CL (Lean clay)" 8 = Ok (PyComplex re1 im1) /\
     density_base_count (H := float_arithmetic Reference.libm) default_simulator
       115.8%float "DS" (-1.0)%float "CL (Lean clay)" 8 = Ok (PyComplex re2 im2)).
Proof.
  split; [|split; [|split]].
  - repeat split; vm_compute; reflexivity.
  - split; [vm_compute; reflexivity|].
    vm_compute. eexists. split; [|split; reflexivity]. reflexivity.
  - vm_compute. eexists _, _. split; [reflexivity|]. split; [reflexivity|].
    reflexivity.
  - vm_compute. eexists _, _, _, _. split; reflexivity.
Qed.

(** ** The batch generator *)

Lemma list_get_nth_error {A : Type} (l : list A) (i : nat) (a : A) :
  list_get l (1 + Z.of_nat i - 1) = Ok a -> nth_error l i = Some a.
Proof.
  unfold list_get. replace (1 + Z.of_nat i - 1) with (Z.of_nat i) by lia.
  destruct (Z.of_nat i <? 0) eqn:Hneg; [apply Z.ltb_lt in Hneg; lia|].
  destruct (_ && _); [|discriminate].
  rewrite Nat2Z.id.
  destruct (nth_error l i); [|discriminate]. congruence.
Qed.

Lemma list_get_middle {A : Type} (pre suf : list A) (c : A) :
  list_get (pre ++ c :: suf) (Z.of_nat (List.length pre)) = Ok c.
Proof.
  unfold list_get.
  destruct (Z.of_nat (List.length pre) <? 0) eqn:Hneg;
    [apply Z.ltb_lt in Hneg; lia|].
  rewrite length_app. cbn [List.length].
  destruct (_ && _) eqn:Hin.
  - rewrite Nat2Z.id, nth_error_app2, Nat.sub_diag by lia. reflexivity.
  - apply andb_false_iff in Hin as [Hin|Hin];
      [apply Z.leb_gt in Hin | apply Z.ltb_ge in Hin]; lia.
Qed.

Lemma list_set_middle {A : Type} (pre suf : list A) (c v : A) :
  list_set (pre ++ c :: suf) (List.length pre) v = pre ++ v :: suf.
Proof.
  induction pre as [|a pre IH]; cbn [app List.length list_set]; [reflexivity|].
  now rewrite IH.
Qed.

Lemma nth_error_range (lo hi : Z) (i : nat) (a : Z) :
  nth_error (range lo hi) i = Some a -> a = lo + Z.of_nat i.
Proof.
  unfold range. rewrite nth_error_map.
  destruct (nth_error (seq 0 _) i) as [k|] eqn:E; [|discriminate].
  cbn. intros H. injection H as <-.
  assert (L : (i < Z.to_nat (hi - lo))%nat).
  { pose proof (proj1 (nth_error_Some (seq 0 (Z.to_nat (hi - lo))) i)) as Hs.
    rewrite length_seq in Hs. apply Hs. now rewrite E. }
  apply nth_error_nth with (d := O) in E.
  rewrite seq_nth in E by exact L. now subst.
Qed.

Lemma float_in_cons (x y : float) (s : list float) :
  float_in x (y :: s) = false -> (x =? y)%float = false /\ float_in x s = false.
Proof.
  unfold float_in. cbn [existsb]. intros H.
  apply orb_false_iff in H as [H1 H2]. split; [|exact H2].
  now rewrite float_eqb_sym.
Qed.

Lemma float_in_fresh (x : float) (new : list float) :
  Forall (fun y => (y =? x)%float = false) new -> float_in x new = false.
Proof.
  unfold float_in. induction 1 as [|y new Hy _ IH]; cbn [existsb]; [reflexivity|].
  now rewrite Hy, IH.
Qed.

(** Pairwise reading of [all_distinct]. *)
Lemma all_distinct_nth (l : list float) :
  all_distinct l = true ->
  forall i j x y,
    i <> j -> nth_error l i = Some x -> nth_error l j = Some y ->
    (x =? y)%float = false.
Proof.
  induction l as [|a l IH]; intros Hd i j x y Hij Hi Hj.
  - destruct i; discriminate.
  - cbn [all_distinct] in Hd. apply andb_true_iff in Hd as [Ha Hl].
    apply negb_true_iff in Ha.
    assert (Hmem : forall k z, nth_error l k = Some z -> (z =? a)%float = false).
    { intros k z Hk. apply nth_error_In in Hk.
      unfold float_in in Ha.
      destruct (z =? a)%float eqn:E; [|reflexivity].
      assert (existsb (fun y0 => (y0 =? a)%float) l = true)
        by (apply existsb_exists; eauto).
      congruence. }
    destruct i as [|i], j as [|j]; cbn [nth_error] in Hi, Hj.
    + congruence.
    + injection Hi as <-. rewrite float_eqb_sym. exact (Hmem j y Hj).
    + injection Hj as <-. exact (Hmem i x Hi).
    + apply (IH Hl i j x y); [congruence | exact Hi | exact Hj].
Qed.

Section Batch.
Variable libm : Libm.
Variable fuel : nat.

(** The retry loop only ends on a value that is not in the set. *)
Lemma dedupe_while_fresh (lo hi : float) (used : list float) :
  forall n x r y r',
    dedupe_while n lo hi x used r = Ok (y, r') -> float_in y used = false.
Proof.
  induction n as [|n IH]; intros x r y r'; cbn [dedupe_while];
    destruct (float_in x used) eqn:E.
  - discriminate.
  - cbn. intros H. injection H as <- _. exact E.
  - unfold bind, gen_monad, random_uniform. apply IH.
  - cbn. intros H. injection H as <- _. exact E.
Qed.

(** The second loop leaves the treated prefix alone and replaces the rest
    by values that are new to the set and to each other. *)
Lemma dedupe_compactions_spec :
  forall suf pre used r out r',
    dedupe_compactions fuel (seq (List.length pre) (List.length suf))
      (pre ++ suf) used r = Ok (out, r') ->
    exists new,
      out = pre ++ new /\
      all_distinct new = true /\
      Forall (fun x => float_in x used = false) new.
Proof.
  induction suf as [|c suf IH]; intros pre used r out r'.
  - cbn. intros H. injection H as <- _. exists []. now rewrite app_nil_r.
  - cbn [List.length seq dedupe_compactions].
    unfold bind, gen_monad, lift. rewrite list_get_middle.
    destruct (dedupe_while fuel _ _ c used r) as [[c' r1]|e|] eqn:Hw;
      try discriminate.
    apply dedupe_while_fresh in Hw.
    rewrite list_set_middle.
    replace (pre ++ c' :: suf) with ((pre ++ [c']) ++ suf)
      by (now rewrite <- app_assoc).
    replace (S (List.length pre)) with (List.length (pre ++ [c']))
      by (rewrite length_app; cbn; lia).
    intros H. apply IH in H as (new & -> & Hd & Hf).
    exists (c' :: new). split; [now rewrite <- app_assoc|]. split.
    + cbn [all_distinct]. rewrite Hd, andb_true_r. apply negb_true_iff.
      apply float_in_fresh.
      eapply Forall_impl; [|exact Hf]. intros y Hy.
      now apply float_in_cons in Hy as [Hy _].
    + constructor; [exact Hw|].
      eapply Forall_impl; [|exact Hf]. intros y Hy.
      now apply float_in_cons in Hy as [_ Hy].
Qed.

Lemma draw_moistures_spec (opt : float) :
  forall n moistures used r out r',
    draw_moistures fuel n opt moistures used r = Ok (out, r') ->
    exists new,
      out = moistures ++ new /\
      all_distinct new = true /\
      Forall (fun x => float_in x used = false) new.
Proof.
  induction n as [|n IH]; intros moistures used r out r'.
  - cbn. intros H. injection H as <- _. exists []. now rewrite app_nil_r.
  - cbn [draw_moistures]. unfold bind, gen_monad.
    destruct (np_random_normal opt _ r) as [[g r1]|e|]; try discriminate.
    destruct (dedupe_while fuel _ _ _ used r1) as [[m r2]|e|] eqn:Hw;
      try discriminate.
    apply dedupe_while_fresh in Hw.
    intros H. apply IH in H as (new & -> & Hd & Hf).
    exists (m :: new). split; [now rewrite <- app_assoc|]. split.
    + cbn [all_distinct]. rewrite Hd, andb_true_r. apply negb_true_iff.
      apply float_in_fresh.
      eapply Forall_impl; [|exact Hf]. intros y Hy.
      now apply float_in_cons in Hy as [Hy _].
    + constructor; [exact Hw|].
      eapply Forall_impl; [|exact Hf]. intros y Hy.
      now apply float_in_cons in Hy as [_ Hy].
Qed.

Variable self : TroxlerGaugeSimulator.
Variables (mdd : float) (depth : string) (t : float) (soil : string) (gd : Z).
Variables compactions moistures : list float.

Lemma make_record_fields (i : Z) (r : rng) (rec : TestRecord) (r' : rng) :
  make_record libm self mdd depth t soil gd compactions moistures i r
  = Ok (rec, r') ->
  record_of mdd compactions moistures i rec.
Proof.
  unfold make_record, bind, ret, gen_monad, lift, record_of.
  destruct (list_get compactions _) as [c|e|]; try discriminate.
  destruct (list_get moistures _) as [m|e|]; try discriminate.
  destruct (calculate_density_count _ _ _ _ _ _ _ _ _) as [[dc r1]|e|];
    try discriminate.
  destruct (calculate_moisture_count _ _ _ _ _ _) as [[mc r2]|e|];
    try discriminate.
  intros H. injection H as <- _. cbn. repeat split; reflexivity.
Qed.

Lemma build_results_spec :
  forall tests results r out r',
    build_results libm self mdd depth t soil gd compactions moistures
      tests results r = Ok (out, r') ->
    exists new,
      out = results ++ new /\
      Forall2 (record_of mdd compactions moistures) tests new.
Proof.
  induction tests as [|i rest IH]; intros results r out r'.
  - cbn. intros H. injection H as <- _. exists []. now rewrite app_nil_r.
  - cbn [build_results]. unfold bind, gen_monad.
    destruct (make_record _ _ _ _ _ _ _ _ _ _ r) as [[rec r1]|e|] eqn:Hrec;
      try discriminate.
    apply make_record_fields in Hrec.
    intros H. apply IH in H as (new & -> & Hall).
    exists (rec :: new). split; [now rewrite <- app_assoc|].
    now constructor.
Qed.
End Batch.

Lemma Forall2_nth_error_r {A B : Type} (P : A -> B -> Prop) (l1 : list A) (l2 : list B) :
  Forall2 P l1 l2 ->
  forall i b, nth_error l2 i = Some b -> exists a, nth_error l1 i = Some a /\ P a b.
Proof.
  induction 1 as [|a b l1 l2 Hab _ IH]; intros i y Hi.
  - destruct i; discriminate.
  - destruct i as [|i]; cbn [nth_error] in *.
    + injection Hi as <-. eauto.
    + now apply IH.
Qed.

(** A completed batch: the lists it was built from and what they satisfy. *)
Lemma generate_sample_tests_spec libm fuel self mdd opt n depth t soil gd r batch r' :
  generate_sample_tests libm fuel self mdd opt n depth t soil gd r = Ok (batch, r') ->
  exists compactions moistures,
    all_distinct compactions = true /\
    all_distinct moistures = true /\
    Forall2 (record_of mdd compactions moistures) (range 1 (n + 1)) batch.
Proof.
  unfold generate_sample_tests, bind, gen_monad.
  destruct (draw_compactions _ _ _) as [[c0 r1]|e|]; try discriminate.
  destruct (dedupe_compactions _ _ _ _ _) as [[c1 r2]|e|] eqn:Hc; try discriminate.
  destruct (draw_moistures _ _ _ _ _ _) as [[ms r3]|e|] eqn:Hm; try discriminate.
  intros Hb.
  apply (dedupe_compactions_spec fuel c0 [] [] r1) in Hc as (newc & -> & Hdc & _).
  apply draw_moistures_spec in Hm as (newm & -> & Hdm & _).
  apply build_results_spec in Hb as (new & -> & Hall).
  cbn [app] in *. eauto.
Qed.

(** C2. In a batch that [generate_sample_tests] completes, no two records
    have equal [compaction_pct] values and no two have equal [moisture_pct]
    values. *)
Theorem batch_values_are_distinct (libm : Libm) (fuel : nat)
    (self : TroxlerGaugeSimulator) (mdd opt : float) (n : Z) (depth : string)
    (t : float) (soil : string) (gd : Z) (r : rng)
    (batch : list TestRecord) (r' : rng) :
  generate_sample_tests libm fuel self mdd opt n depth t soil gd r = Ok (batch, r') ->
  forall i j ri rj,
    i <> j -> nth_error batch i = Some ri -> nth_error batch j = Some rj ->
    (Compaction_pct ri =? Compaction_pct rj)%float = false /\
    (Moisture_pct ri =? Moisture_pct rj)%float = false.
Proof.
  intros Hrun i j ri rj Hij Hi Hj.
  apply generate_sample_tests_spec in Hrun as (cs & ms & Hdc & Hdm & Hall).
  destruct (Forall2_nth_error_r _ _ _ Hall i ri Hi) as (ti & Hti & Hci & Hmi & _).
  destruct (Forall2_nth_error_r _ _ _ Hall j rj Hj) as (tj & Htj & Hcj & Hmj & _).
  apply nth_error_range in Hti, Htj. subst ti tj.
  apply list_get_nth_error in Hci, Hmi, Hcj, Hmj.
  split.
  - exact (all_distinct_nth cs Hdc i j _ _ Hij Hci Hcj).
  - exact (all_distinct_nth ms Hdm i j _ _ Hij Hmi Hmj).
Qed.

(** C5 (amended). Every record of a completed batch stores the derived
    quantities rounded to one decimal place:
    [dry_density = round(compaction_pct / 100 * max_dry_density, 1)],
    [wet_density = round(dry_density * (1 + moisture_pct / 100), 1)] and
    [moisture_mass = round(wet_density - dry_density, 1)]. *)
Theorem record_densities_are_rounded (libm : Libm) (fuel : nat)
    (self : TroxlerGaugeSimulator) (mdd opt : float) (n : Z) (depth : string)
    (t : float) (soil : string) (gd : Z) (r : rng)
    (batch : list TestRecord) (r' : rng) (rec : TestRecord) :
  generate_sample_tests libm fuel self mdd opt n depth t soil gd r = Ok (batch, r') ->
  In rec batch ->
  Dry_Density rec = py_round1 ((Compaction_pct rec / 100) * mdd)%float /\
  Wet_Density rec
  = py_round1 (Dry_Density rec * (1 + Moisture_pct rec / 100))%float /\
  Moisture_lbs rec = py_round1 (Wet_Density rec - Dry_Density rec)%float.
Proof.
  intros Hrun Hin.
  apply generate_sample_tests_spec in Hrun as (cs & ms & _ & _ & Hall).
  apply In_nth_error in Hin as (i & Hi).
  destruct (Forall2_nth_error_r _ _ _ Hall i rec Hi)
    as (ti & _ & _ & _ & Hdry & Hwet & Hlbs & _).
  now repeat split.
Qed.

Lemma batch_values_are_distinct_witness :
  exists batch r',
    generate_sample_tests Reference.libm 50 default_simulator
      120.0%float 8.0%float 3 "DS" 1.0%float "CL (Lean clay)" 8 retry_rng
    = Ok (batch, r') /\
    (forall i j ri rj,
        i <> j -> nth_error batch i = Some ri -> nth_error batch j = Some rj ->
        (Compaction_pct ri =? Compaction_pct rj)%float = false /\
        (Moisture_pct ri =? Moisture_pct rj)%float = false).
Proof.
  assert (E : exists batch r',
             generate_sample_tests Reference.libm 50 default_simulator
               120.0%float 8.0%float 3 "DS" 1.0%float "CL (Lean clay)" 8 retry_rng
             = Ok (batch, r'))
    by (vm_compute; eexists _, _; reflexivity).
  destruct E as (batch & r' & E). exists batch, r'. split; [exact E|].
  exact (batch_values_are_distinct _ _ _ _ _ _ _ _ _ _ _ _ _ E).
Defined.

Lemma record_densities_are_rounded_witness :
  exists rec,
    value (generate_sample_tests Reference.libm 50 default_simulator
             120.0%float 8.0%float 1 "DS" 1.0%float "CL (Lean clay)" 8 plain_rng)
    = Ok [rec] /\
    Dry_Density rec = py_round1 ((Compaction_pct rec / 100) * 120.0)%float /\
    Wet_Density rec
    = py_round1 (Dry_Density rec * (1 + Moisture_pct rec / 100))%float /\
    Moisture_lbs rec = py_round1 (Wet_Density rec - Dry_Density rec)%float.
Proof.
  assert (E : exists rec r',
             generate_sample_tests Reference.libm 50 default_simulator
               120.0%float 8.0%float 1 "DS" 1.0%float "CL (Lean clay)" 8 plain_rng
             = Ok ([rec], r'))
    by (vm_compute; eexists _, _; reflexivity).
  destruct E as (rec & r' & E). exists rec. split; [now rewrite E|].
  apply (record_densities_are_rounded _ _ _ _ _ _ _ _ _ _ _ _ _ rec E).
  now left.
Defined.

(** C5 as stated fails: in this batch of one the compaction is 96.6 % of a
    maximum dry density of 120, that is 115.92, but the record holds 115.9;
    the wet density and the moisture mass differ from the unrounded
    formulas as well. *)
Lemma unrounded_density_formulas_fail :
  exists rec,
    value (generate_sample_tests Reference.libm 50 default_simulator
             120.0%float 8.0%float 1 "DS" 1.0%float "CL (Lean clay)" 8 plain_rng)
    = Ok [rec] /\
    Compaction_pct rec = 96.6%float /\
    Dry_Density rec = 115.9%float /\
    (Dry_Density rec =? (Compaction_pct rec / 100) * 120.0)%float = false /\
    (Wet_Density rec =? Dry_Density rec * (1 + Moisture_pct rec / 100))%float = false /\
    (Moisture_lbs rec =? Wet_Density rec - Dry_Density rec)%float = false.
Proof.
  eexists. split; [vm_compute; reflexivity|].
  repeat split; vm_compute; reflexivity.
Qed.

(** ** The range of the compaction values *)

Lemma SFcompare_refl (p : spec_float) :
  p <> S754_nan -> SFcompare p p = Some Eq.
Proof.
  destruct p as [s|s| |s m e]; intros Hp; try congruence.
  - reflexivity.
  - now destruct s.
  - apply SFcompare_refl_finite.
Qed.

Lemma leb_true_refl_l (x y : float) : (x <=? y)%float = true -> (x <=? x)%float = true.
Proof.
  rewrite !leb_spec. unfold SFleb. intros H.
  rewrite SFcompare_refl; [reflexivity|].
  intros E. rewrite E in H. discriminate.
Qed.

Lemma leb_true_refl_r (x y : float) : (x <=? y)%float = true -> (y <=? y)%float = true.
Proof.
  rewrite !leb_spec. unfold SFleb. intros H.
  rewrite SFcompare_refl; [reflexivity|].
  intros E. rewrite E in H. destruct (Prim2SF x); discriminate.
Qed.

Lemma ltb_true_leb (x y : float) : (x <? y)%float = true -> (x <=? y)%float = true.
Proof.
  rewrite ltb_spec, leb_spec. unfold SFltb, SFleb.
  destruct (SFcompare _ _) as [[| |]|]; congruence.
Qed.

Lemma clamp_within (lo hi x : float) :
  (lo <=? hi)%float = true -> within lo hi (py_max lo (py_min hi x)) = true.
Proof.
  intros Hle. unfold within, py_max, py_min.
  pose proof (leb_true_refl_l _ _ Hle) as Hlo.
  pose proof (leb_true_refl_r _ _ Hle) as Hhi.
  destruct (x <? hi)%float eqn:A.
  - destruct (lo <? x)%float eqn:B.
    + now rewrite (ltb_true_leb _ _ A), (ltb_true_leb _ _ B).
    + now rewrite Hlo, Hle.
  - destruct (lo <? hi)%float eqn:B.
    + now rewrite Hle, Hhi.
    + now rewrite Hlo, Hle.
Qed.


(** The floats between 95 and 98 share the exponent of 95. *)
Lemma within_compaction_range_SF (y : float) :
  within 95 98 y = true ->
  exists m, Prim2SF y = S754_finite false m (-46) /\
            (6685030696878080 <= Zpos m <= 6896136929411072).
Proof.
  unfold within. rewrite andb_true_iff, !leb_spec.
  set (p95 := Prim2SF 95). vm_compute in p95. subst p95.
  set (p98 := Prim2SF 98). vm_compute in p98. subst p98.
  unfold SFleb.
  destruct (Prim2SF y) as [s|s| |s m e]; cbn [SFcompare]; intros [Hlo Hhi];
    try discriminate; try (destruct s; discriminate).
  destruct s; [discriminate|].
  destruct (Z.compare_spec (-46) e) as [E|L|G].
  2:{ destruct (Z.compare_spec e (-46)); first [lia | discriminate]. }
  2: discriminate.
  subst e. rewrite Z.compare_refl in Hhi.
  exists m. split; [reflexivity|].
  pose proof (Pos.compare_spec 6685030696878080 m) as Ha.
  pose proof (Pos.compare_spec m 6896136929411072) as Hb.
  unfold Pos.compare in Ha, Hb.
  assert (Hlo' : (6685030696878080 <= m)%positive).
  { destruct Ha as [Ha|Ha|Ha].
    - rewrite <- Ha. apply Pos.le_refl.
    - apply Pos.lt_le_incl. exact Ha.
    - discriminate Hlo. }
  assert (Hhi' : (m <= 6896136929411072)%positive).
  { destruct Hb as [Hb|Hb|Hb].
    - rewrite Hb. apply Pos.le_refl.
    - apply Pos.lt_le_incl. exact Hb.
    - discriminate Hhi. }
  split; apply Pos2Z.pos_le_pos; assumption.
Qed.

Lemma tenths_within :
  forallb (fun n => within 95 98 (ratio_to_float n 10)) tenths_in_range = true.
Proof. vm_compute. reflexivity. Qed.

Lemma In_range (lo hi n : Z) : lo <= n < hi -> In n (range lo hi).
Proof.
  intros H. unfold range. apply in_map_iff.
  exists (Z.to_nat (n - lo)). split; [lia|]. apply in_seq. lia.
Qed.

(** Rounding [10 * x / D] to the nearest integer keeps it between 950 and
    980 when [x / D] is between 95 and 98. *)
Lemma round_tenths_bounds (D x : Z) :
  0 < D -> 95 * D <= x <= 98 * D ->
  let t := 10 * x in
  let q := t / D in
  let r := t mod D in
  let n := if 2 * r <? D then q
           else if D <? 2 * r then q + 1
           else if Z.even q then q else q + 1 in
  950 <= n <= 980.
Proof.
  intros HD Hx t q r n.
  assert (Hq1 : 950 <= q).
  { apply Z.div_le_lower_bound; [exact HD|]. subst t. lia. }
  assert (Hq2 : q <= 980).
  { apply Z.div_le_upper_bound; [exact HD|]. subst t. lia. }
  pose proof (Z.div_mod t D ltac:(lia)) as Hdm. fold q r in Hdm.
  pose proof (Z.mod_pos_bound t D HD) as Hr. fold r in Hr.
  assert (Htop : q = 980 -> r = 0).
  { intros E. rewrite E in Hdm. subst t. lia. }
  subst n.
  destruct (Z.ltb_spec (2 * r) D) as [L|G]; [lia|].
  assert (q <> 980) by (intros E; apply Htop in E; lia).
  destruct (D <? 2 * r); [lia|]. destruct (Z.even q); lia.
Qed.

(** [round(y, 1)] stays between 95.0 and 98.0 when [y] is. *)
Lemma round1_within_compaction_range (y : float) :
  within 95 98 y = true -> within 95 98 (py_round1 y) = true.
Proof.
  intros Hy. destruct (within_compaction_range_SF y Hy) as (m & E & Hm).
  unfold py_round1. rewrite E.
  change (0 <=? -46) with false. cbv iota.
  change (2 ^ (- -46)) with 70368744177664.
  pose proof (round_tenths_bounds 70368744177664 (Z.pos m) eq_refl Hm) as Hn.
  cbv zeta in Hn.
  set (n := if 2 * ((10 * Z.pos m) mod 70368744177664) <? 70368744177664
            then _ else _) in *.
  destruct (Z.eqb_spec n 0) as [Z0|_]; [rewrite Z0 in Hn; destruct Hn as [Hn _]; exfalso; apply Hn; reflexivity|].
  pose proof tenths_within as Hall. rewrite forallb_forall in Hall.
  apply Hall. apply In_range.
  destruct Hn as [H1 H2]. split; [exact H1|]. apply (Z.le_lt_trans _ 980); [exact H2|reflexivity].
Qed.

Lemma list_get_In {A : Type} (l : list A) (i : Z) (a : A) :
  list_get l i = Ok a -> In a l.
Proof.
  unfold list_get. destruct (_ && _); [|discriminate].
  destruct (nth_error l _) as [b|] eqn:E; [|discriminate].
  intros H. injection H as <-. eapply nth_error_In; eassumption.
Qed.

Lemma list_set_Forall {A : Type} (P : A -> Prop) (l : list A) (i : nat) (v : A) :
  Forall P l -> P v -> Forall P (list_set l i v).
Proof.
  intros Hl Hv. revert i.
  induction Hl as [|a l Ha Hl IH]; intros i; cbn [list_set].
  - destruct i; constructor.
  - destruct i; constructor; auto.
Qed.

Lemma draw_compactions_within :
  forall n acc r out r',
    Forall (fun c => within 95 98 c = true) acc ->
    draw_compactions n acc r = Ok (out, r') ->
    Forall (fun c => within 95 98 c = true) out.
Proof.
  induction n as [|n IH]; intros acc r out r' Hacc.
  - cbn. intros H. injection H as <- _. exact Hacc.
  - cbn [draw_compactions]. unfold bind, gen_monad.
    destruct (np_random_normal _ _ r) as [[g r1]|e|]; try discriminate.
    apply IH. apply Forall_app. split; [exact Hacc|].
    constructor; [|constructor].
    apply round1_within_compaction_range. now apply clamp_within.
Qed.

Lemma dedupe_while_within (lo hi : float) (used : list float) :
  (lo <=? hi)%float = true ->
  forall n x r y r',
    within lo hi x = true ->
    dedupe_while n lo hi x used r = Ok (y, r') -> within lo hi y = true.
Proof.
  intros Hle.
  induction n as [|n IH]; intros x r y r' Hx; cbn [dedupe_while];
    destruct (float_in x used).
  - discriminate.
  - cbn. intros H. injection H as <- _. exact Hx.
  - unfold bind, gen_monad, random_uniform. apply IH. now apply clamp_within.
  - cbn. intros H. injection H as <- _. exact Hx.
Qed.

Lemma dedupe_compactions_within (fuel : nat) :
  forall indices compactions used r out r',
    Forall (fun c => within 95 98 c = true) compactions ->
    dedupe_compactions fuel indices compactions used r = Ok (out, r') ->
    Forall (fun c => within 95 98 c = true) out.
Proof.
  induction indices as [|i rest IH]; intros compactions used r out r' Hall.
  - cbn. intros H. injection H as <- _. exact Hall.
  - cbn [dedupe_compactions]. unfold bind, gen_monad, lift.
    destruct (list_get compactions _) as [c|e|] eqn:Hc; try discriminate.
    destruct (dedupe_while fuel _ _ c used r) as [[c' r1]|e|] eqn:Hw;
      try discriminate.
    apply IH. apply list_set_Forall; [exact Hall|].
    apply (dedupe_while_within 95%float 98%float used eq_refl fuel c r c' r1);
      [|exact Hw].
    apply list_get_In in Hc. rewrite Forall_forall in Hall. now apply Hall.
Qed.

(** Every compaction value of a completed batch is between 95.0 and 98.0. *)
Lemma batch_compactions_within libm fuel self mdd opt n depth t soil gd r batch r' :
  generate_sample_tests libm fuel self mdd opt n depth t soil gd r = Ok (batch, r') ->
  Forall (fun rec => within 95 98 (Compaction_pct rec) = true) batch.
Proof.
  unfold generate_sample_tests, bind, gen_monad.
  destruct (draw_compactions _ _ _) as [[c0 r1]|e|] eqn:H0; try discriminate.
  destruct (dedupe_compactions _ _ _ _ _) as [[c1 r2]|e|] eqn:Hc; try discriminate.
  destruct (draw_moistures _ _ _ _ _ _) as [[ms r3]|e|] eqn:Hm; try discriminate.
  intros Hb.
  apply draw_compactions_within in H0; [|constructor].
  apply (dedupe_compactions_within _ _ _ _ _ _ _ H0) in Hc.
  apply build_results_spec in Hb as (new & -> & Hall).
  cbn [app]. rewrite Forall_forall in Hc. apply Forall_forall.
  intros rec Hin. apply In_nth_error in Hin as (i & Hi).
  destruct (Forall2_nth_error_r _ _ _ Hall i rec Hi) as (ti & _ & Hci & _).
  apply list_get_In in Hci. now apply Hc.
Qed.

(** C6. The compaction half holds: every record of a completed batch has
    its compaction value between 95.0 and 98.0. The moisture half fails on
    the input below: with an optimum moisture of 8.04 and a first moisture
    draw three standard deviations low, the draw is truncated to the lower
    bound 6.04 and only then rounded, so the record holds 6.0, below
    [optimum_moisture - 2.0]. *)
Theorem moisture_rounds_out_of_range :
  (forall libm fuel self mdd opt n depth t soil gd r batch r' rec,
      generate_sample_tests libm fuel self mdd opt n depth t soil gd r
      = Ok (batch, r') ->
      In rec batch ->
      within 95 98 (Compaction_pct rec) = true) /\
  (exists rec,
      value (generate_sample_tests Reference.libm 50 default_simulator
               120.0%float 8.04%float 1 "DS" 1.0%float "CL (Lean clay)" 8
               low_moisture_rng)
      = Ok [rec] /\
      Moisture_pct rec = 6.0%float /\
      within (8.04 - 2.0) (8.04 + 2.0) (Moisture_pct rec) = false /\
      (Moisture_pct rec <? 8.04 - 2.0)%float = true).
Proof.
  split.
  - intros libm fuel self mdd opt n depth t soil gd r batch r' rec Hrun Hin.
    apply batch_compactions_within in Hrun.
    rewrite Forall_forall in Hrun. now apply Hrun.
  - eexists. split; [vm_compute; reflexivity|].
    repeat split; vm_compute; reflexivity.
Qed.

(** * Further properties *)

(** ** The soil descriptions *)

Lemma dict_has_get_In {V : Type} (key : string) (d : list (string * V)) (default : V) :
  dict_has key d = true -> In (key, dict_get key d default) d.
Proof.
  unfold dict_has, dict_keys.
  induction d as [|[k v] d IH]; cbn [map existsb dict_get fst]; [discriminate|].
  destruct (String.eqb_spec k key) as [->|Hne].
  - intros _. now left.
  - cbn [orb]. intros H. right. now apply IH.
Qed.

(** The three tables have the same keys, in the same order. *)
Lemma description_tables_share_keys :
  dict_keys (field_characteristics SoilDescriptions_init)
  = dict_keys (soil_descriptions SoilDescriptions_init) /\
  dict_keys (typical_uses SoilDescriptions_init)
  = dict_keys (soil_descriptions SoilDescriptions_init).
Proof. split; reflexivity. Qed.

(** X2. For a soil type that has a description, the three texts returned are
    entries of the three tables under that key: the inner defaults
    ("Unknown soil type" and the like) are never returned. *)
Theorem known_soil_descriptions_come_from_tables (soil_type : string) :
  dict_has soil_type (soil_descriptions SoilDescriptions_init) = true ->
  exists d f u,
    get_soil_descriptions SoilDescriptions_init soil_type = [d; f; u] /\
    In (soil_type, d) (soil_descriptions SoilDescriptions_init) /\
    In (soil_type, f) (field_characteristics SoilDescriptions_init) /\
    In (soil_type, u) (typical_uses SoilDescriptions_init).
Proof.
  intros Hd.
  assert (Hf : dict_has soil_type (field_characteristics SoilDescriptions_init) = true).
  { unfold dict_has in *. now rewrite (proj1 description_tables_share_keys). }
  assert (Hu : dict_has soil_type (typical_uses SoilDescriptions_init) = true).
  { unfold dict_has in *. now rewrite (proj2 description_tables_share_keys). }
  unfold get_soil_descriptions. rewrite Hd. cbn [negb].
  eexists _, _, _. split; [reflexivity|].
  repeat split; now apply dict_has_get_In.
Qed.

Lemma known_soil_descriptions_come_from_tables_witness :
  exists d f u,
    get_soil_descriptions SoilDescriptions_init "CH (Fat clay)" = [d; f; u] /\
    In ("CH (Fat clay)"%string, d) (soil_descriptions SoilDescriptions_init) /\
    In ("CH (Fat clay)"%string, f) (field_characteristics SoilDescriptions_init) /\
    In ("CH (Fat clay)"%string, u) (typical_uses SoilDescriptions_init).
Proof.
  apply (known_soil_descriptions_come_from_tables "CH (Fat clay)"). reflexivity.
Defined.

(** X3. The menu of the front end and the five tables agree: a soil type is
    offered by the menu exactly when it has calibration coefficients, a
    moisture factor and a description, for whatever arguments the simulator
    is built with. *)
Theorem menu_matches_tables (model serial : string) (sd sm : Z) (soil_type : string) :
  let sim := __init__ model serial sd sm in
  (In soil_type soil_types <->
   dict_has soil_type (soil_density_equations sim) = true) /\
  (In soil_type soil_types <->
   dict_has soil_type (soil_moisture_factors sim) = true) /\
  (In soil_type soil_types <->
   dict_has soil_type (soil_descriptions SoilDescriptions_init) = true).
Proof.
  assert (Hin : forall keys,
             In soil_type keys <->
             existsb (fun k => (k =? soil_type)%string) keys = true).
  { intros keys. rewrite existsb_exists. split.
    - intros H. exists soil_type. split; [exact H|apply String.eqb_refl].
    - intros (k & Hk & E). apply String.eqb_eq in E. now subst. }
  cbv zeta. unfold dict_has.
  change (dict_keys (soil_density_equations (__init__ model serial sd sm)))
    with soil_types.
  change (dict_keys (soil_moisture_factors (__init__ model serial sd sm)))
    with soil_types.
  change (dict_keys (soil_descriptions SoilDescriptions_init)) with soil_types.
  repeat split; apply Hin.
Qed.

(** ** The depth mode *)

(** X4. The depth mode is recognised by the exact string "BS": in that mode
    the gauge depth is ignored altogether, and every other string is a
    direct-transmission reading, the same as "DS". *)
Theorem depth_mode_dispatch (libm : Libm) (self : TroxlerGaugeSimulator)
    (dry wet : float) (t : float) (soil : string) (r : rng) :
  (forall gd1 gd2,
      calculate_density_count libm self dry wet "BS" t soil gd1 r =
      calculate_density_count libm self dry wet "BS" t soil gd2 r) /\
  (forall depth gd,
      (depth =? "BS")%string = false ->
      calculate_density_count libm self dry wet depth t soil gd r =
      calculate_density_count libm self dry wet "DS" t soil gd r).
Proof.
  split.
  - intros gd1 gd2. reflexivity.
  - intros depth gd Hne.
    unfold calculate_density_count, density_count_from, density_base_from.
    now rewrite Hne.
Qed.

Lemma depth_mode_dispatch_witness :
  calculate_density_count Reference.libm default_simulator
    115.8%float 125.1%float "bs" 1.0%float "CL (Lean clay)" 8 quiet_rng =
  calculate_density_count Reference.libm default_simulator
    115.8%float 125.1%float "DS" 1.0%float "CL (Lean clay)" 8 quiet_rng.
Proof.
  apply (proj2 (depth_mode_dispatch Reference.libm default_simulator
                  115.8%float 125.1%float 1.0%float "CL (Lean clay)" quiet_rng)).
  reflexivity.
Defined.

(** ** Soil types with the same calibration *)

(** X5. "Type II (Aggregate Base)" carries the coefficients and the moisture
    factor of "GM (Silty gravel)": the two soil types give the same density
    and moisture readings on every input. *)
Theorem type_II_reads_like_silty_gravel (libm : Libm) (model serial : string)
    (sd sm : Z) :
  let sim := __init__ model serial sd sm in
  (forall dry wet depth t gd r,
      calculate_density_count libm sim dry wet depth t
        "Type II (Aggregate Base)" gd r =
      calculate_density_count libm sim dry wet depth t "GM (Silty gravel)" gd r) /\
  (forall m t r,
      calculate_moisture_count libm sim m t "Type II (Aggregate Base)" r =
      calculate_moisture_count libm sim m t "GM (Silty gravel)" r).
Proof. split; intros; reflexivity. Qed.

(** ** The shape of a batch *)

Lemma Forall2_length_eq {A B : Type} (P : A -> B -> Prop) (l1 : list A) (l2 : list B) :
  Forall2 P l1 l2 -> List.length l1 = List.length l2.
Proof. induction 1; cbn; congruence. Qed.

Lemma range_length (lo hi : Z) : List.length (range lo hi) = Z.to_nat (hi - lo).
Proof. unfold range. now rewrite length_map, length_seq. Qed.

(** X6. A completed batch has exactly [num_tests] records, numbered from 1
    in order, none of them marked done. *)
Theorem batch_is_numbered (libm : Libm) (fuel : nat) (self : TroxlerGaugeSimulator)
    (mdd opt : float) (n : Z) (depth : string) (t : float) (soil : string)
    (gd : Z) (r : rng) (batch : list TestRecord) (r' : rng) :
  generate_sample_tests libm fuel self mdd opt n depth t soil gd r = Ok (batch, r') ->
  List.length batch = Z.to_nat n /\
  (forall i rec,
      nth_error batch i = Some rec ->
      Test_no rec = Z.of_nat i + 1 /\ Done rec = false).
Proof.
  intros Hrun.
  apply generate_sample_tests_spec in Hrun as (cs & ms & _ & _ & Hall).
  split.
  - rewrite <- (Forall2_length_eq _ _ _ Hall), range_length. f_equal. lia.
  - intros i rec Hi.
    destruct (Forall2_nth_error_r _ _ _ Hall i rec Hi)
      as (ti & Hti & _ & _ & _ & _ & _ & Hno & Hdone).
    apply nth_error_range in Hti. subst ti. split; [lia | exact Hdone].
Qed.

Lemma batch_is_numbered_witness :
  exists batch r',
    generate_sample_tests Reference.libm 50 default_simulator
      120.0%float 8.0%float 3 "DS" 1.0%float "CL (Lean clay)" 8 retry_rng
    = Ok (batch, r') /\
    List.length batch = 3%nat /\
    (forall i rec,
        nth_error batch i = Some rec ->
        Test_no rec = Z.of_nat i + 1 /\ Done rec = false).
Proof.
  assert (E : exists batch r',
             generate_sample_tests Reference.libm 50 default_simulator
               120.0%float 8.0%float 3 "DS" 1.0%float "CL (Lean clay)" 8 retry_rng
             = Ok (batch, r'))
    by (vm_compute; eexists _, _; reflexivity).
  destruct E as (batch & r' & E). exists batch, r'. split; [exact E|].
  exact (batch_is_numbered _ _ _ _ _ _ _ _ _ _ _ _ _ E).
Defined.

(** X7. Asked for no tests, or for a negative number of them, the generator
    returns the empty batch: it draws nothing from either random generator
    and cannot fail, whatever the other arguments are. *)
Theorem no_tests_no_draws (libm : Libm) (fuel : nat) (self : TroxlerGaugeSimulator)
    (mdd opt : float) (n : Z) (depth : string) (t : float) (soil : string)
    (gd : Z) (r : rng) :
  n <= 0 ->
  generate_sample_tests libm fuel self mdd opt n depth t soil gd r = Ok ([], r).
Proof.
  intros Hn. unfold generate_sample_tests, range.
  replace (Z.to_nat n) with O by lia.
  replace (Z.to_nat (n + 1 - 1)) with O by lia.
  reflexivity.
Qed.

Lemma no_tests_no_draws_witness :
  generate_sample_tests Reference.libm 0 default_simulator
    120.0%float 8.0%float (-3) "DS" (-1.0)%float "CL (Lean clay)" 8 quiet_rng
  = Ok ([], quiet_rng).
Proof. apply no_tests_no_draws. lia. Defined.

(** ** What the records of a batch hold *)

Section BatchRecords.
Variable libm : Libm.
Variable self : TroxlerGaugeSimulator.
Variables (mdd : float) (depth : string) (t : float) (soil : string) (gd : Z).
Variables compactions moistures : list float.

(** The last loop only appends records, so whatever every new record
    satisfies holds for the whole table. *)
Lemma build_results_invariant (P : TestRecord -> Prop) :
  (forall i r rec r',
      make_record libm self mdd depth t soil gd compactions moistures i r
      = Ok (rec, r') -> P rec) ->
  forall tests results r out r',
    Forall P results ->
    build_results libm self mdd depth t soil gd compactions moistures
      tests results r = Ok (out, r') ->
    Forall P out.
Proof.
  intros Hmake.
  induction tests as [|i rest IH]; intros results r out r' Hres.
  - cbn. intros H. injection H as <- _. exact Hres.
  - cbn [build_results]. unfold bind, gen_monad.
    destruct (make_record _ _ _ _ _ _ _ _ _ _ r) as [[rec r1]|e|] eqn:Hrec;
      try discriminate.
    apply IH. apply Forall_app. split; [exact Hres|].
    constructor; [|constructor]. eapply Hmake; eassumption.
Qed.

Lemma make_record_counts (i : Z) (r : rng) (rec : TestRecord) (r' : rng) :
  make_record libm self mdd depth t soil gd compactions moistures i r
  = Ok (rec, r') ->
  500 <= Density_Count rec <= 2000 /\ 50 <= Moisture_Count rec <= 500.
Proof.
  unfold make_record, bind, ret, gen_monad, lift.
  destruct (list_get compactions _) as [c|e|]; try discriminate.
  destruct (list_get moistures _) as [m|e|]; try discriminate.
  destruct (calculate_density_count _ _ _ _ _ _ _ _ _) as [[dc r1]|e|] eqn:Hd;
    try discriminate.
  destruct (calculate_moisture_count _ _ _ _ _ _) as [[mc r2]|e|] eqn:Hm;
    try discriminate.
  intros H. injection H as <- _. cbn.
  split; [eapply density_count_in_range | eapply moisture_count_in_range];
    eassumption.
Qed.

Lemma make_record_moisture (i : Z) (r : rng) (rec : TestRecord) (r' : rng) :
  make_record libm self mdd depth t soil gd compactions moistures i r
  = Ok (rec, r') ->
  In (Moisture_pct rec) moistures.
Proof.
  intros H. apply make_record_fields in H as (_ & Hm & _).
  eapply list_get_In; eassumption.
Qed.
End BatchRecords.

(** X8. Every record of a completed batch holds a density count in
    [500, 2000] and a moisture count in [50, 500]. *)
Theorem batch_counts_within_bounds (libm : Libm) (fuel : nat)
    (self : TroxlerGaugeSimulator) (mdd opt : float) (n : Z) (depth : string)
    (t : float) (soil : string) (gd : Z) (r : rng)
    (batch : list TestRecord) (r' : rng) (rec : TestRecord) :
  generate_sample_tests libm fuel self mdd opt n depth t soil gd r = Ok (batch, r') ->
  In rec batch ->
  500 <= Density_Count rec <= 2000 /\ 50 <= Moisture_Count rec <= 500.
Proof.
  unfold generate_sample_tests, bind, gen_monad.
  destruct (draw_compactions _ _ _) as [[c0 r1]|e|]; try discriminate.
  destruct (dedupe_compactions _ _ _ _ _) as [[c1 r2]|e|]; try discriminate.
  destruct (draw_moistures _ _ _ _ _ _) as [[ms r3]|e|]; try discriminate.
  intros Hb Hin.
  eapply build_results_invariant in Hb;
    [ rewrite Forall_forall in Hb; exact (Hb rec Hin)
    | intros i r0 rec0 r0'; apply make_record_counts
    | constructor ].
Qed.

Lemma batch_counts_within_bounds_witness :
  exists rec,
    value (generate_sample_tests Reference.libm 50 default_simulator
             120.0%float 8.0%float 1 "DS" 1.0%float "CL (Lean clay)" 8 plain_rng)
    = Ok [rec] /\
    500 <= Density_Count rec <= 2000 /\ 50 <= Moisture_Count rec <= 500.
Proof.
  assert (E : exists rec r',
             generate_sample_tests Reference.libm 50 default_simulator
               120.0%float 8.0%float 1 "DS" 1.0%float "CL (Lean clay)" 8 plain_rng
             = Ok ([rec], r'))
    by (vm_compute; eexists _, _; reflexivity).
  destruct E as (rec & r' & E). exists rec. split; [now rewrite E|].
  apply (batch_counts_within_bounds _ _ _ _ _ _ _ _ _ _ _ _ _ rec E).
  now left.
Defined.

(** ** How far a moisture value can leave its range *)

Lemma dedupe_while_cases (lo hi : float) (used : list float) :
  (lo <=? hi)%float = true ->
  forall n x r y r',
    dedupe_while n lo hi x used r = Ok (y, r') ->
    y = x \/ within lo hi y = true.
Proof.
  intros Hle.
  induction n as [|n IH]; intros x r y r'; cbn [dedupe_while];
    destruct (float_in x used).
  - discriminate.
  - cbn. intros H. injection H as <- _. now left.
  - unfold bind, gen_monad, random_uniform. intros H. right.
    apply IH in H as [-> | H]; [now apply clamp_within | exact H].
  - cbn. intros H. injection H as <- _. now left.
Qed.

Lemma draw_moistures_near_range (fuel : nat) (opt : float) :
  (opt - 2.0 <=? opt + 2.0)%float = true ->
  forall n moistures used r out r',
    Forall (near_range (opt - 2.0) (opt + 2.0)) moistures ->
    draw_moistures fuel n opt moistures used r = Ok (out, r') ->
    Forall (near_range (opt - 2.0) (opt + 2.0)) out.
Proof.
  intros Hle.
  induction n as [|n IH]; intros moistures used r out r' Hacc.
  - cbn. intros H. injection H as <- _. exact Hacc.
  - cbn [draw_moistures]. unfold bind, gen_monad.
    destruct (np_random_normal opt _ r) as [[g r1]|e|]; try discriminate.
    destruct (dedupe_while fuel _ _ _ used r1) as [[m r2]|e|] eqn:Hw;
      try discriminate.
    apply IH. apply Forall_app. split; [exact Hacc|].
    constructor; [|constructor].
    apply (dedupe_while_cases _ _ used Hle) in Hw as [-> | Hw].
    + right. eexists. split; [|reflexivity]. now apply clamp_within.
    + now left.
Qed.

(** X9. When the moisture range is a proper interval, every moisture value
    of a completed batch lies in [optimum - 2.0, optimum + 2.0] or is the
    one-decimal rounding of a value that does: a first draw is rounded after
    it is truncated, a retried value is truncated last. *)
Theorem moisture_values_near_range (libm : Libm) (fuel : nat)
    (self : TroxlerGaugeSimulator) (mdd opt : float) (n : Z) (depth : string)
    (t : float) (soil : string) (gd : Z) (r : rng)
    (batch : list TestRecord) (r' : rng) (rec : TestRecord) :
  (opt - 2.0 <=? opt + 2.0)%float = true ->
  generate_sample_tests libm fuel self mdd opt n depth t soil gd r = Ok (batch, r') ->
  In rec batch ->
  near_range (opt - 2.0) (opt + 2.0) (Moisture_pct rec).
Proof.
  intros Hle. unfold generate_sample_tests, bind, gen_monad.
  destruct (draw_compactions _ _ _) as [[c0 r1]|e|]; try discriminate.
  destruct (dedupe_compactions _ _ _ _ _) as [[c1 r2]|e|]; try discriminate.
  destruct (draw_moistures _ _ _ _ _ _) as [[ms r3]|e|] eqn:Hm; try discriminate.
  intros Hb Hin.
  apply (draw_moistures_near_range fuel opt Hle) in Hm; [|constructor].
  rewrite Forall_forall in Hm. apply Hm.
  eapply build_results_invariant
    with (P := fun rec0 => In (Moisture_pct rec0) ms) in Hb;
    [ rewrite Forall_forall in Hb; exact (Hb rec Hin)
    | intros i r0 rec0 r0'; apply make_record_moisture
    | constructor ].
Qed.

Lemma moisture_values_near_range_witness :
  exists rec,
    value (generate_sample_tests Reference.libm 50 default_simulator
             120.0%float 8.04%float 1 "DS" 1.0%float "CL (Lean clay)" 8
             low_moisture_rng)
    = Ok [rec] /\
    near_range (8.04 - 2.0) (8.04 + 2.0) (Moisture_pct rec).
Proof.
  assert (E : exists rec r',
             generate_sample_tests Reference.libm 50 default_simulator
               120.0%float 8.04%float 1 "DS" 1.0%float "CL (Lean clay)" 8
               low_moisture_rng
             = Ok ([rec], r'))
    by (vm_compute; eexists _, _; reflexivity).
  destruct E as (rec & r' & E). exists rec. split; [now rewrite E|].
  apply (moisture_values_near_range Reference.libm 50 default_simulator
           120.0%float 8.04%float 1 "DS" 1.0%float "CL (Lean clay)" 8
           low_moisture_rng [rec] r' rec);
    [vm_compute; reflexivity | exact E | now left].
Defined.

(** ** The exceptions of a batch *)

Lemma py_int_of_float_raises (x : float) (e : exn) :
  py_int_of_float x = Raise e -> e = ValueError \/ e = OverflowError.
Proof.
  unfold py_int_of_float.
  destruct (Prim2SF x); intros H; try discriminate; injection H as <-; auto.
Qed.

Lemma int_true_divide_raises (a b : Z) (e : exn) :
  b <> 0 -> int_true_divide a b = Raise e -> e = OverflowError.
Proof.
  intros Hb. unfold int_true_divide.
  destruct (Z.eqb_spec b 0); [contradiction|].
  destruct (is_infinity _); intros H; [now injection H as <- | discriminate].
Qed.

Lemma int_to_float_raises (z : Z) (e : exn) :
  int_to_float z = Raise e -> e = OverflowError.
Proof.
  unfold int_to_float.
  destruct (is_infinity _); intros H; [now injection H as <- | discriminate].
Qed.

Lemma float_pow_half_raises (libm : Libm) (x : float) (e : exn) :
  float_pow_half libm x = Raise e -> e = OverflowError.
Proof.
  unfold float_pow_half.
  repeat match goal with
         | |- context [if ?c then _ else _] => destruct c
         | |- context [let '(_, _) := ?p in _] => destruct p
         end; intros H; try discriminate; now injection H as <-.
Qed.

Section ReadingErrors.
Variable libm : Libm.

Lemma density_base_raises params std dry depth t gd e :
  density_base_from (H := float_arithmetic libm) params std dry depth t gd = Raise e ->
  e = OverflowError.
Proof.
  unfold density_base_from.
  cbn [bind ret outcome_monad pow_half float_arithmetic of_int int_div].
  destruct (String.eqb depth "BS").
  - destruct (float_pow_half libm t) as [p|e1|] eqn:Hp.
    + destruct (int_true_divide std 1570) as [f|e2|] eqn:Hf; try discriminate.
      intros H. injection H as <-.
      now apply int_true_divide_raises in Hf.
    + intros H. injection H as <-. now apply float_pow_half_raises in Hp.
    + discriminate.
  - destruct (int_to_float (gd - 6)) as [d|e0|] eqn:Hd.
    + destruct (float_pow_half libm t) as [p|e1|] eqn:Hp.
      * destruct (int_true_divide std 1570) as [f|e2|] eqn:Hf; try discriminate.
        intros H. injection H as <-.
        now apply int_true_divide_raises in Hf.
      * intros H. injection H as <-. now apply float_pow_half_raises in Hp.
      * discriminate.
    + intros H. injection H as <-. now apply int_to_float_raises in Hd.
    + discriminate.
Qed.

Lemma moisture_base_raises factor std m t e :
  moisture_base_from (H := float_arithmetic libm) factor std m t = Raise e ->
  e = OverflowError.
Proof.
  unfold moisture_base_from.
  cbn [bind ret outcome_monad pow_half float_arithmetic of_int int_div].
  destruct (float_pow_half libm t) as [p|e1|] eqn:Hp.
  - destruct (int_true_divide std 670) as [f|e2|] eqn:Hf; try discriminate.
    intros H. injection H as <-.
    now apply int_true_divide_raises in Hf.
  - intros H. injection H as <-. now apply float_pow_half_raises in Hp.
  - discriminate.
Qed.

Lemma py_int_raises (v : pynum float) (e : exn) :
  py_int v = Raise e -> reading_error e.
Proof.
  unfold reading_error. destruct v as [x|re im]; cbn [py_int].
  - intros H. apply py_int_of_float_raises in H. tauto.
  - intros H. injection H as <-. auto.
Qed.

Lemma density_count_raises self dry wet depth t soil gd r e :
  calculate_density_count libm self dry wet depth t soil gd r = Raise e ->
  reading_error e.
Proof.
  unfold calculate_density_count. rewrite density_count_from_cases.
  destruct (density_base_from _ _ _ _ _ _) as [b|e0|] eqn:Hb.
  - destruct (scale_refused _).
    + intros H. injection H as <-. unfold reading_error. auto.
    + destruct (py_int _) as [c|e1|] eqn:Hi; try discriminate.
      intros H. injection H as <-. now apply py_int_raises in Hi.
  - intros H. injection H as <-. apply density_base_raises in Hb.
    unfold reading_error. auto.
  - discriminate.
Qed.

Lemma moisture_count_raises self m t soil r e :
  calculate_moisture_count libm self m t soil r = Raise e ->
  reading_error e.
Proof.
  unfold calculate_moisture_count. rewrite moisture_count_from_cases.
  destruct (moisture_base_from _ _ _ _) as [b|e0|] eqn:Hb.
  - destruct (py_int _) as [c|e1|] eqn:Hi; try discriminate.
    intros H. injection H as <-. now apply py_int_raises in Hi.
  - intros H. injection H as <-. apply moisture_base_raises in Hb.
    unfold reading_error. auto.
  - discriminate.
Qed.
End ReadingErrors.

(** ** One-decimal compaction values *)

(** Floats between two positive floats of the same exponent have that
    exponent. *)
Lemma within_same_exponent (lo hi y : float) (mlo mhi : positive) (e : Z) :
  Prim2SF lo = S754_finite false mlo e ->
  Prim2SF hi = S754_finite false mhi e ->
  within lo hi y = true ->
  exists m, Prim2SF y = S754_finite false m e /\ (mlo <= m <= mhi)%positive.
Proof.
  intros Hlo Hhi. unfold within. rewrite andb_true_iff, !leb_spec, Hlo, Hhi.
  unfold SFleb.
  destruct (Prim2SF y) as [s|s| |s m e']; cbn [SFcompare]; intros [Ha Hb];
    try discriminate; try (destruct s; discriminate).
  destruct s; [discriminate|].
  destruct (Z.compare_spec e e') as [E|L|G].
  2:{ destruct (Z.compare_spec e' e); first [lia | discriminate]. }
  2: discriminate.
  subst e'. rewrite Z.compare_refl in Hb.
  exists m. split; [reflexivity|].
  pose proof (Pos.compare_spec mlo m) as Ca.
  pose proof (Pos.compare_spec m mhi) as Cb.
  unfold Pos.compare in Ca, Cb.
  split.
  - destruct Ca as [Ca|Ca|Ca].
    + rewrite <- Ca. apply Pos.le_refl.
    + apply Pos.lt_le_incl. exact Ca.
    + discriminate Ha.
  - destruct Cb as [Cb|Cb|Cb].
    + rewrite Cb. apply Pos.le_refl.
    + apply Pos.lt_le_incl. exact Cb.
    + discriminate Hb.
Qed.

(** Rounding [10 * x / D] to the nearest integer keeps it between [10 * A]
    and [10 * B] when [x / D] is between [A] and [B]. *)
Lemma round_tenths_between (A B D x : Z) :
  0 < D -> A * D <= x <= B * D ->
  let t := 10 * x in
  let q := t / D in
  let r := t mod D in
  let n := if 2 * r <? D then q
           else if D <? 2 * r then q + 1
           else if Z.even q then q else q + 1 in
  10 * A <= n <= 10 * B.
Proof.
  intros HD Hx t q r n.
  assert (Hq1 : 10 * A <= q).
  { apply Z.div_le_lower_bound; [exact HD|]. subst t. lia. }
  assert (Hq2 : q <= 10 * B).
  { apply Z.div_le_upper_bound; [exact HD|]. subst t. lia. }
  pose proof (Z.div_mod t D ltac:(lia)) as Hdm. fold q r in Hdm.
  pose proof (Z.mod_pos_bound t D HD) as Hr. fold r in Hr.
  assert (Htop : q = 10 * B -> r = 0).
  { intros E. rewrite E in Hdm. subst t. lia. }
  subst n.
  destruct (Z.ltb_spec (2 * r) D) as [L|G]; [lia|].
  assert (q <> 10 * B) by (intros E; apply Htop in E; lia).
  destruct (D <? 2 * r); [lia|]. destruct (Z.even q); lia.
Qed.

(** [round(y, 1)] of a float between 64 and 127 is [n / 10] for an integer
    [n] between 640 and 1270. *)
Lemma round1_of_binade (y : float) :
  within 64 127 y = true ->
  exists n, 640 <= n <= 1270 /\ py_round1 y = ratio_to_float n 10.
Proof.
  intros Hy.
  destruct (within_same_exponent 64 127 y 4503599627370496 8936830510563328 (-46)
              eq_refl eq_refl Hy) as (m & E & Hm1 & Hm2).
  apply Pos2Z.pos_le_pos in Hm1, Hm2.
  unfold py_round1. rewrite E.
  change (0 <=? -46) with false. cbv iota.
  change (2 ^ (- -46)) with 70368744177664.
  pose proof (round_tenths_between 64 127 70368744177664 (Z.pos m) eq_refl
                (conj Hm1 Hm2)) as Hn.
  cbv zeta in Hn.
  set (n := if 2 * ((10 * Z.pos m) mod 70368744177664) <? 70368744177664
            then _ else _) in *.
  exists n. split; [exact Hn|].
  destruct (Z.eqb_spec n 0) as [Z0|_]; [|reflexivity].
  rewrite Z0 in Hn. destruct Hn as [Hn _]. exfalso. apply Hn. reflexivity.
Qed.

(** Among the values [n / 10] with [n] from 640 to 1270, those between 95.0
    and 98.0 are the ones with [n] from 950 to 980. *)
Lemma tenths_of_binade_in_range :
  forallb (fun n => implb (within 95 98 (ratio_to_float n 10))
                      ((950 <=? n) && (n <=? 980)))
    (range 640 1271) = true.
Proof. vm_compute. reflexivity. Qed.

Lemma In_compaction_tenths (n : Z) :
  950 <= n <= 980 -> In (ratio_to_float n 10) compaction_tenths.
Proof.
  intros Hn. unfold compaction_tenths, tenths_in_range.
  apply (in_map (fun k => ratio_to_float k 10)). apply In_range. lia.
Qed.

(** A rounded value between 95.0 and 98.0 is one of the 31 one-decimal
    values, when the value rounded is between 64 and 127. *)
Lemma round1_in_compaction_tenths (y : float) :
  within 64 127 y = true ->
  within 95 98 (py_round1 y) = true ->
  In (py_round1 y) compaction_tenths.
Proof.
  intros Hy Hr.
  destruct (round1_of_binade y Hy) as (n & Hn & E).
  rewrite E in *.
  pose proof tenths_of_binade_in_range as Hall.
  rewrite forallb_forall in Hall.
  specialize (Hall n (In_range 640 1271 n ltac:(lia))).
  rewrite Hr in Hall. cbn [implb] in Hall.
  apply andb_true_iff in Hall as [H1 H2].
  apply Z.leb_le in H1, H2. now apply In_compaction_tenths.
Qed.

Lemma Pos_le_not_Gt (a b : positive) :
  (a <= b)%positive ->
  match Pos.compare_cont Eq a b with Gt => false | _ => true end = true.
Proof.
  unfold Pos.le, Pos.compare.
  destruct (Pos.compare_cont Eq a b); intros H; try reflexivity.
  exfalso. now apply H.
Qed.

(** A range of floats of one exponent lies in every wider such range. *)
Lemma within_weaken (lo hi lo' hi' y : float) (mlo mhi mlo' mhi' : positive) (e : Z) :
  Prim2SF lo = S754_finite false mlo e ->
  Prim2SF hi = S754_finite false mhi e ->
  Prim2SF lo' = S754_finite false mlo' e ->
  Prim2SF hi' = S754_finite false mhi' e ->
  (mlo' <= mlo)%positive -> (mhi <= mhi')%positive ->
  within lo hi y = true -> within lo' hi' y = true.
Proof.
  intros Hlo Hhi Hlo' Hhi' Ha Hb Hy.
  destruct (within_same_exponent lo hi y mlo mhi e Hlo Hhi Hy) as (m & E & Hm1 & Hm2).
  unfold within. rewrite !leb_spec, E, Hlo', Hhi'.
  unfold SFleb. cbn [SFcompare]. rewrite Z.compare_refl.
  rewrite (Pos_le_not_Gt mlo' m (Pos.le_trans _ _ _ Ha Hm1)).
  rewrite (Pos_le_not_Gt m mhi' (Pos.le_trans _ _ _ Hm2 Hb)).
  reflexivity.
Qed.

Lemma within_95_98_in_binade (y : float) :
  within 95 98 y = true -> within 64 127 y = true.
Proof.
  apply (within_weaken 95 98 64 127 y
           6685030696878080 6896136929411072
           4503599627370496 8936830510563328 (-46));
    first [ vm_compute; reflexivity | vm_compute; discriminate ].
Qed.

Lemma clamp_cases (lo hi x : float) :
  py_max lo (py_min hi x) = x \/ py_max lo (py_min hi x) = lo \/
  py_max lo (py_min hi x) = hi.
Proof.
  unfold py_max, py_min.
  destruct (x <? hi)%float; destruct (lo <? _)%float; auto.
Qed.

Lemma bounds_in_compaction_tenths :
  In 95%float compaction_tenths /\ In 98%float compaction_tenths.
Proof.
  assert (E95 : ratio_to_float 950 10 = 95%float) by (vm_compute; reflexivity).
  assert (E98 : ratio_to_float 980 10 = 98%float) by (vm_compute; reflexivity).
  rewrite <- E95, <- E98.
  split; apply In_compaction_tenths; split; discriminate.
Qed.

(** A first draw, truncated and rounded, is a one-decimal value. *)
Lemma first_pass_in_tenths (g : float) :
  In (py_round1 (py_max 95 (py_min 98 g))) compaction_tenths.
Proof.
  assert (Hc : within 95 98 (py_max 95 (py_min 98 g)) = true)
    by (apply clamp_within; reflexivity).
  apply round1_in_compaction_tenths.
  - apply within_95_98_in_binade, Hc.
  - apply round1_within_compaction_range, Hc.
Qed.

(** So is a retried value, rounded and truncated. *)
Lemma retry_in_tenths (z : float) :
  within 64 127 z = true ->
  In (py_max 95 (py_min 98 (py_round1 z))) compaction_tenths.
Proof.
  intros Hz.
  assert (Hc : within 95 98 (py_max 95 (py_min 98 (py_round1 z))) = true)
    by (apply clamp_within; reflexivity).
  destruct (clamp_cases 95 98 (py_round1 z)) as [E | [E | E]]; rewrite E in *.
  - now apply round1_in_compaction_tenths.
  - apply bounds_in_compaction_tenths.
  - apply bounds_in_compaction_tenths.
Qed.

Lemma list_get_ok {A : Type} (l : list A) (j : Z) :
  0 <= j < Z.of_nat (List.length l) -> exists a, list_get l j = Ok a.
Proof.
  intros Hj. unfold list_get.
  destruct (Z.ltb_spec j 0) as [L|_]; [lia|].
  destruct (_ && _) eqn:Hb.
  - destruct (nth_error l (Z.to_nat j)) as [a|] eqn:E; [now exists a|].
    apply nth_error_None in E. lia.
  - apply andb_false_iff in Hb as [Hb|Hb];
      [apply Z.leb_gt in Hb | apply Z.ltb_ge in Hb]; lia.
Qed.

Lemma list_set_length {A : Type} (l : list A) (i : nat) (v : A) :
  List.length (list_set l i v) = List.length l.
Proof.
  revert i. induction l as [|a l IH]; intros [|i]; cbn; auto.
Qed.

(** *** The loops cannot fail *)

Lemma draw_compactions_total :
  forall n acc r,
    exists new r',
      draw_compactions n acc r = Ok (acc ++ new, r') /\
      List.length new = n /\
      Forall (fun c => In c compaction_tenths) new /\
      py_unit r' = py_unit r.
Proof.
  induction n as [|n IH]; intros acc r.
  - exists [], r. cbn. rewrite app_nil_r. repeat split. constructor.
  - cbn [draw_compactions]. unfold bind, gen_monad, np_random_normal.
    replace (scale_refused 0.8) with false by reflexivity.
    destruct (IH (acc ++ [py_round1 (py_max 95 (py_min 98
                  (96.5 + 0.8 * np_gauss r (np_pos r))%float))]) (np_advance r))
      as (new & r' & E & Hlen & Hall & Hu).
    eexists (_ :: new), r'. rewrite E, <- app_assoc. cbn [app List.length].
    repeat split; [now f_equal | | exact Hu].
    constructor; [apply first_pass_in_tenths | exact Hall].
Qed.

Lemma dedupe_while_never_raises (lo hi : float) (used : list float) :
  forall n x r e, dedupe_while n lo hi x used r = Raise e -> False.
Proof.
  induction n as [|n IH]; intros x r e; cbn [dedupe_while];
    destruct (float_in x used); try discriminate.
  unfold bind, gen_monad, random_uniform. apply IH.
Qed.

Lemma dedupe_while_keeps_tape (lo hi : float) (used : list float) :
  forall n x r y r',
    dedupe_while n lo hi x used r = Ok (y, r') -> py_unit r' = py_unit r.
Proof.
  induction n as [|n IH]; intros x r y r'; cbn [dedupe_while];
    destruct (float_in x used); try discriminate.
  - cbn. intros H. now injection H as _ <-.
  - unfold bind, gen_monad, random_uniform. intros H. now apply IH in H.
  - cbn. intros H. now injection H as _ <-.
Qed.

Lemma retries_stay_close_tape (r r' : rng) :
  py_unit r' = py_unit r -> retries_stay_close r -> retries_stay_close r'.
Proof. unfold retries_stay_close. intros ->. auto. Qed.

Lemma dedupe_while_in_tenths (used : list float) :
  forall n x r y r',
    retries_stay_close r ->
    In x compaction_tenths ->
    dedupe_while n 95 98 x used r = Ok (y, r') ->
    In y compaction_tenths.
Proof.
  induction n as [|n IH]; intros x r y r' Hr Hx; cbn [dedupe_while];
    destruct (float_in x used); try discriminate.
  - cbn. intros H. now injection H as <- _.
  - unfold bind, gen_monad, random_uniform. apply IH.
    + exact Hr.
    + apply retry_in_tenths. apply Hr, Hx.
  - cbn. intros H. now injection H as <- _.
Qed.

Lemma dedupe_compactions_never_raises (fuel : nat) :
  forall indices compactions used r e,
    Forall (fun i => (i < List.length compactions)%nat) indices ->
    dedupe_compactions fuel indices compactions used r = Raise e -> False.
Proof.
  induction indices as [|i rest IH]; intros compactions used r e Hidx.
  - discriminate.
  - inversion Hidx as [|? ? Hi Hrest]; subst.
    cbn [dedupe_compactions]. unfold bind, gen_monad, lift.
    destruct (list_get_ok compactions (Z.of_nat i) ltac:(lia)) as (c & ->).
    destruct (dedupe_while fuel _ _ c used r) as [[c' r1]|e1|] eqn:Hw.
    + apply IH. now rewrite list_set_length.
    + intros _. eapply dedupe_while_never_raises; eassumption.
    + discriminate.
Qed.

Lemma dedupe_compactions_in_tenths (fuel : nat) :
  forall indices compactions used r out r',
    retries_stay_close r ->
    Forall (fun c => In c compaction_tenths) compactions ->
    dedupe_compactions fuel indices compactions used r = Ok (out, r') ->
    Forall (fun c => In c compaction_tenths) out /\
    List.length out = List.length compactions.
Proof.
  induction indices as [|i rest IH]; intros compactions used r out r' Hr Hall.
  - cbn. intros H. injection H as <- _. now split.
  - cbn [dedupe_compactions]. unfold bind, gen_monad, lift.
    destruct (list_get compactions _) as [c|e|] eqn:Hc; try discriminate.
    destruct (dedupe_while fuel _ _ c used r) as [[c' r1]|e|] eqn:Hw;
      try discriminate.
    intros H. apply IH in H as [Hout Hlen].
    + split; [exact Hout|]. now rewrite Hlen, list_set_length.
    + eapply retries_stay_close_tape; [|exact Hr].
      eapply dedupe_while_keeps_tape; eassumption.
    + apply list_set_Forall; [exact Hall|].
      eapply dedupe_while_in_tenths; [exact Hr | | exact Hw].
      apply list_get_In in Hc. rewrite Forall_forall in Hall. now apply Hall.
Qed.

Lemma draw_moistures_never_raises (fuel : nat) (opt : float) :
  forall n moistures used r e,
    draw_moistures fuel n opt moistures used r = Raise e -> False.
Proof.
  induction n as [|n IH]; intros moistures used r e.
  - discriminate.
  - cbn [draw_moistures]. unfold bind, gen_monad, np_random_normal.
    replace (scale_refused 0.8) with false by reflexivity.
    destruct (dedupe_while fuel _ _ _ used _) as [[m r2]|e1|] eqn:Hw.
    + apply IH.
    + intros _. eapply dedupe_while_never_raises; eassumption.
    + discriminate.
Qed.

Lemma draw_moistures_length (fuel : nat) (opt : float) :
  forall n moistures used r out r',
    draw_moistures fuel n opt moistures used r = Ok (out, r') ->
    List.length out = (List.length moistures + n)%nat.
Proof.
  induction n as [|n IH]; intros moistures used r out r'.
  - cbn. intros H. injection H as <- _. lia.
  - cbn [draw_moistures]. unfold bind, gen_monad.
    destruct (np_random_normal opt _ r) as [[g r1]|e|]; try discriminate.
    destruct (dedupe_while fuel _ _ _ used r1) as [[m r2]|e|]; try discriminate.
    intros H. apply IH in H. rewrite H, length_app. cbn. lia.
Qed.

(** *** Thirty-one values at most *)

Lemma tenths_equal_themselves :
  Forall (fun x => (x =? x)%float = true) compaction_tenths.
Proof.
  apply Forall_forall. apply forallb_forall. vm_compute. reflexivity.
Qed.

Lemma all_distinct_NoDup (l : list float) :
  Forall (fun x => (x =? x)%float = true) l ->
  all_distinct l = true -> NoDup l.
Proof.
  induction 1 as [|x l Hx _ IH]; cbn [all_distinct]; intros Hd.
  - constructor.
  - apply andb_true_iff in Hd as [Hn Hd]. apply negb_true_iff in Hn.
    constructor; [|now apply IH].
    intros Hin. unfold float_in in Hn.
    assert (existsb (fun y => (y =? x)%float) l = true)
      by (apply existsb_exists; eauto).
    congruence.
Qed.

Lemma distinct_tenths_are_few (l : list float) :
  Forall (fun c => In c compaction_tenths) l ->
  all_distinct l = true ->
  (List.length l <= 31)%nat.
Proof.
  intros Hall Hd.
  change 31%nat with (List.length compaction_tenths).
  apply NoDup_incl_length.
  - apply all_distinct_NoDup; [|exact Hd].
    apply Forall_forall. intros x Hx.
    pose proof tenths_equal_themselves as Hs. rewrite Forall_forall in Hs, Hall.
    apply Hs, Hall, Hx.
  - intros x Hx. rewrite Forall_forall in Hall. now apply Hall.
Qed.

Lemma dedupe_compactions_length (fuel : nat) :
  forall indices compactions used r out r',
    dedupe_compactions fuel indices compactions used r = Ok (out, r') ->
    List.length out = List.length compactions.
Proof.
  induction indices as [|i rest IH]; intros compactions used r out r'.
  - cbn. intros H. now injection H as <- _.
  - cbn [dedupe_compactions]. unfold bind, gen_monad, lift.
    destruct (list_get compactions _) as [c|e|]; try discriminate.
    destruct (dedupe_while fuel _ _ c used r) as [[c' r1]|e|]; try discriminate.
    intros H. apply IH in H. now rewrite H, list_set_length.
Qed.

Lemma seq_below (len : nat) :
  Forall (fun i => (i < len)%nat) (seq 0 len).
Proof. apply Forall_forall. intros i Hi. apply in_seq in Hi. lia. Qed.

Lemma In_range_bounds (lo hi i : Z) : In i (range lo hi) -> lo <= i < hi.
Proof.
  unfold range. intros H. apply in_map_iff in H as (k & <- & Hk).
  apply in_seq in Hk. lia.
Qed.

(** X12. There are only 31 one-decimal values from 95.0 to 98.0 and the
    compaction values of a batch are pairwise distinct, so a request for 32
    tests or more never completes: when the uniform variates keep the
    retried values near the range, as variates in [0, 1) do, the retry loop
    of the compaction values does not end, whatever iteration budget it is
    given. *)
Theorem too_many_tests_never_complete (libm : Libm) (fuel : nat)
    (self : TroxlerGaugeSimulator) (mdd opt : float) (n : Z) (depth : string)
    (t : float) (soil : string) (gd : Z) (r : rng) :
  32 <= n ->
  retries_stay_close r ->
  generate_sample_tests libm fuel self mdd opt n depth t soil gd r = OutOfFuel.
Proof.
  intros Hn Hr. unfold generate_sample_tests, bind, gen_monad.
  destruct (draw_compactions_total (Z.to_nat n) [] r)
    as (c0 & r1 & E & Hlen & Hall & Hu).
  rewrite E. cbn [app].
  destruct (dedupe_compactions fuel _ c0 [] r1) as [[c1 r2]|e|] eqn:Hc.
  - exfalso.
    pose proof (dedupe_compactions_in_tenths fuel _ _ _ _ _ _
                  (retries_stay_close_tape _ _ Hu Hr) Hall Hc) as [Hout Hl].
    apply (dedupe_compactions_spec fuel c0 [] [] r1) in Hc as (new & -> & Hd & _).
    cbn [app] in *.
    pose proof (distinct_tenths_are_few new Hout Hd). lia.
  - exfalso. eapply dedupe_compactions_never_raises; [|exact Hc].
    apply seq_below.
  - reflexivity.
Qed.

Lemma too_many_tests_never_complete_witness :
  generate_sample_tests Reference.libm 1000 default_simulator
    120.0%float 8.0%float 32 "DS" 1.0%float "CL (Lean clay)" 8 quiet_rng
  = OutOfFuel.
Proof.
  apply too_many_tests_never_complete; [lia|].
  intros i. apply forallb_forall. vm_compute. reflexivity.
Defined.

(** ** The exceptions of a batch *)

Section BatchErrors.
Variable libm : Libm.
Variable self : TroxlerGaugeSimulator.
Variables (mdd : float) (depth : string) (t : float) (soil : string) (gd : Z).
Variables compactions moistures : list float.

Lemma make_record_raises (i : Z) (r : rng) (e : exn) :
  1 <= i <= Z.of_nat (List.length compactions) ->
  i <= Z.of_nat (List.length moistures) ->
  make_record libm self mdd depth t soil gd compactions moistures i r = Raise e ->
  reading_error e.
Proof.
  intros Hc Hm. unfold make_record, bind, ret, gen_monad, lift.
  destruct (list_get_ok compactions (i - 1) ltac:(lia)) as (c & ->).
  destruct (list_get_ok moistures (i - 1) ltac:(lia)) as (m & ->).
  destruct (calculate_density_count _ _ _ _ _ _ _ _ _) as [[dc r1]|e1|] eqn:Hd.
  - destruct (calculate_moisture_count _ _ _ _ _ _) as [[mc r2]|e2|] eqn:Hmc;
      try discriminate.
    intros H. injection H as <-. eapply moisture_count_raises; eassumption.
  - intros H. injection H as <-. eapply density_count_raises; eassumption.
  - discriminate.
Qed.

Lemma build_results_raises :
  forall tests results r e,
    Forall (fun i => 1 <= i <= Z.of_nat (List.length compactions) /\
                     i <= Z.of_nat (List.length moistures)) tests ->
    build_results libm self mdd depth t soil gd compactions moistures
      tests results r = Raise e ->
    reading_error e.
Proof.
  induction tests as [|i rest IH]; intros results r e Hidx.
  - discriminate.
  - inversion Hidx as [|? ? [Hc Hm] Hrest]; subst.
    cbn [build_results]. unfold bind, gen_monad.
    destruct (make_record _ _ _ _ _ _ _ _ _ _ r) as [[rec r1]|e1|] eqn:Hrec.
    + now apply IH.
    + intros H. injection H as <-. eapply make_record_raises; eassumption.
    + discriminate.
Qed.

Lemma make_record_negative_duration (i : Z) (r : rng) (rec : TestRecord) (r' : rng) :
  (t <? 0)%float = true -> is_infinity t = false ->
  make_record libm self mdd depth t soil gd compactions moistures i r
  = Ok (rec, r') -> False.
Proof.
  intros Hneg Hinf. unfold make_record, bind, ret, gen_monad, lift.
  destruct (list_get compactions _) as [c|e|]; try discriminate.
  destruct (list_get moistures _) as [m|e|]; try discriminate.
  destruct (proj1 (negative_duration_raises libm self t Hneg Hinf)
              (py_round1 (c / 100 * mdd))
              (py_round1 (py_round1 (c / 100 * mdd) * (1 + m / 100)))
              depth soil gd r) as (e & ->).
  discriminate.
Qed.
End BatchErrors.

(** X10. The only exceptions a reading or a batch can raise are
    [ValueError], [TypeError] and [OverflowError]: the list and table
    accesses of the generator are always in range, and no division by zero
    can occur. *)
Theorem only_reading_errors (libm : Libm) (self : TroxlerGaugeSimulator) (e : exn) :
  (forall dry wet depth t soil gd r,
      calculate_density_count libm self dry wet depth t soil gd r = Raise e ->
      reading_error e) /\
  (forall m t soil r,
      calculate_moisture_count libm self m t soil r = Raise e ->
      reading_error e) /\
  (forall fuel mdd opt n depth t soil gd r,
      generate_sample_tests libm fuel self mdd opt n depth t soil gd r = Raise e ->
      reading_error e).
Proof.
  split; [|split].
  - intros. eapply density_count_raises; eassumption.
  - intros. eapply moisture_count_raises; eassumption.
  - intros fuel mdd opt n depth t soil gd r.
    unfold generate_sample_tests, bind, gen_monad.
    destruct (draw_compactions_total (Z.to_nat n) [] r)
      as (c0 & r1 & E & Hlen & _ & _).
    rewrite E. cbn [app].
    destruct (dedupe_compactions fuel _ c0 [] r1) as [[c1 r2]|e1|] eqn:Hc.
    + apply dedupe_compactions_length in Hc.
      destruct (draw_moistures fuel _ opt [] [] r2) as [[ms r3]|e2|] eqn:Hm.
      * apply draw_moistures_length in Hm. cbn [List.length] in Hm.
        apply build_results_raises.
        apply Forall_forall. intros i Hi. apply In_range_bounds in Hi. lia.
      * intros _. exfalso. eapply draw_moistures_never_raises; eassumption.
      * discriminate.
    + intros _. exfalso. eapply dedupe_compactions_never_raises; [|exact Hc].
      apply seq_below.
    + discriminate.
Qed.

Lemma only_reading_errors_witness :
  generate_sample_tests Reference.libm 50 default_simulator
    120.0%float 8.0%float 1 "DS" (-1.0)%float "CL (Lean clay)" 8 plain_rng
  = Raise TypeError /\
  reading_error TypeError.
Proof.
  assert (E : generate_sample_tests Reference.libm 50 default_simulator
                120.0%float 8.0%float 1 "DS" (-1.0)%float "CL (Lean clay)" 8
                plain_rng = Raise TypeError)
    by (vm_compute; reflexivity).
  split; [exact E|].
  exact (proj2 (proj2 (only_reading_errors Reference.libm default_simulator
                         TypeError)) _ _ _ _ _ _ _ _ _ E).
Defined.

(** X11. With a negative finite duration a batch of one test or more is
    never completed: the first reading raises, unless a retry loop of the
    sampled values ran on without end before. *)
Theorem negative_duration_batch_fails (libm : Libm) (fuel : nat)
    (self : TroxlerGaugeSimulator) (mdd opt : float) (n : Z) (depth : string)
    (t : float) (soil : string) (gd : Z) (r : rng) :
  1 <= n ->
  (t <? 0)%float = true -> is_infinity t = false ->
  no_result (generate_sample_tests libm fuel self mdd opt n depth t soil gd r).
Proof.
  intros Hn Hneg Hinf. unfold no_result.
  destruct (generate_sample_tests _ _ _ _ _ _ _ _ _ _ _) as [[batch r']|e|] eqn:E;
    [exfalso | left; now exists e | now right].
  revert E. unfold generate_sample_tests, bind, gen_monad.
  destruct (draw_compactions _ _ _) as [[c0 r1]|e|]; try discriminate.
  destruct (dedupe_compactions _ _ _ _ _) as [[c1 r2]|e|]; try discriminate.
  destruct (draw_moistures _ _ _ _ _ _) as [[ms r3]|e|]; try discriminate.
  unfold range. replace (Z.to_nat (n + 1 - 1)) with (S (Z.to_nat (n - 1))) by lia.
  cbn [seq map build_results]. unfold bind, gen_monad.
  destruct (make_record _ _ _ _ _ _ _ _ _ _ r3) as [[rec r4]|e|] eqn:Hrec;
    try discriminate.
  intros _. eapply make_record_negative_duration; eassumption.
Qed.

Lemma negative_duration_batch_fails_witness :
  no_result (generate_sample_tests Reference.libm 50 default_simulator
               120.0%float 8.0%float 3 "DS" (-0.5)%float "CL (Lean clay)" 8
               retry_rng).
Proof.
  apply negative_duration_batch_fails; [lia | reflexivity | reflexivity].
Defined.

(** ** Monotonicity on the floats of the interpreter *)

Lemma SFmul_not_nan_l (x c : spec_float) : SFmul prec emax x c <> S754_nan -> x <> S754_nan.
Proof. intros H ->. apply H. reflexivity. Qed.

Lemma nan_Prim2SF (a : float) : is_nan a = false <-> Prim2SF a <> S754_nan.
Proof.
  rewrite is_nan_Prim2SF. destruct (Prim2SF a); split; intros H;
    try reflexivity; try discriminate. contradiction.
Qed.

Lemma mul_le_mono_signed (a b c : float) :
  (a <=? b)%float = true -> (0 <=? c)%float = true ->
  is_nan (a * c) = false -> is_nan (b * c) = false ->
  (a * c <=? b * c)%float = true.
Proof.
  rewrite !nan_Prim2SF, !leb_spec, !mul_spec, Prim2SF_zero.
  intros Hab Hc Na Nb.
  apply SFmul_mono_signed; try apply Prim2SF_valid; assumption.
Qed.

Lemma SFmul_opp_r (x c : spec_float) :
  SFmul prec emax x (SFopp c) = SFopp (SFmul prec emax x c).
Proof. rewrite SFmul_comm, SFmul_opp_l, SFmul_comm. reflexivity. Qed.

(** Multiplication by a float that is not positive reverses the order. *)
Lemma mul_le_anti (a b c : float) :
  (a <=? b)%float = true -> (c <=? 0)%float = true ->
  is_nan (a * c) = false -> is_nan (b * c) = false ->
  (b * c <=? a * c)%float = true.
Proof.
  rewrite !nan_Prim2SF, !leb_spec, !mul_spec, Prim2SF_zero. unfold SF64mul.
  intros Hab Hc Na Nb.
  set (c' := SFopp (Prim2SF c)).
  assert (Ec : Prim2SF c = SFopp c') by (unfold c'; now rewrite SFopp_involutive).
  rewrite Ec in *. rewrite !SFmul_opp_r in *. rewrite SFleb_opp.
  assert (Vopp : forall z, valid_binary z = true -> valid_binary (SFopp z) = true)
    by (intros [s|s| |s m e]; trivial).
  assert (Nopp : forall z, SFopp z <> S754_nan -> z <> S754_nan)
    by (intros z H ->; apply H; reflexivity).
  apply SFmul_mono_signed; try apply Prim2SF_valid; auto.
  - unfold c'. apply Vopp, Prim2SF_valid.
  - change (S754_zero false) with (SFopp (S754_zero true)) in Hc.
    rewrite SFleb_opp in Hc.
    destruct c' as [s|[|]| |[|] m e]; try discriminate; reflexivity.
Qed.

Lemma SFadd_comm (x y : spec_float) : SFadd prec emax x y = SFadd prec emax y x.
Proof.
  destruct x as [[|]|[|]| |sx mx ex], y as [[|]|[|]| |sy my ey];
    cbn [SFadd]; try reflexivity.
  rewrite (Z.min_comm ey ex), Z.add_comm. reflexivity.
Qed.

Lemma add_comm (a b : float) : (a + b = b + a)%float.
Proof. apply Prim2SF_inj. rewrite !add_spec. apply SFadd_comm. Qed.

Lemma add_le_mono_l (c a b : float) :
  (a <=? b)%float = true ->
  is_nan (c + a) = false -> is_nan (c + b) = false ->
  (c + a <=? c + b)%float = true.
Proof.
  rewrite (add_comm c a), (add_comm c b).
  rewrite !nan_Prim2SF, !leb_spec, !add_spec.
  intros Hab Na Nb.
  apply SFadd_mono; try apply Prim2SF_valid; assumption.
Qed.

Lemma add_not_nan (a b : float) :
  is_nan (a + b) = false -> is_nan a = false /\ is_nan b = false.
Proof.
  rewrite !is_nan_Prim2SF, add_spec. unfold SF64add.
  destruct (Prim2SF a) as [[|]|[|]| |sa ma ea], (Prim2SF b) as [[|]|[|]| |sb mb eb];
    cbn [SFadd]; intros H; try discriminate; split; reflexivity.
Qed.

Lemma leb_nonneg_trans (a b : float) :
  (0 <=? a)%float = true -> (a <=? b)%float = true -> (0 <=? b)%float = true.
Proof. rewrite !leb_spec, Prim2SF_zero. apply SFleb_nonneg_trans. Qed.

(** *** Integers and quotients as floats *)

Lemma Prim2SF_binary64_of_Z (z : Z) :
  Prim2SF (binary64_of_Z z) = binary_normalize prec emax z 0 false.
Proof. apply Prim2SF_SF2Prim, binary_normalize_valid. Qed.

Lemma ratio_to_SF_valid (n d : Z) : valid_binary (ratio_to_SF n d) = true.
Proof.
  unfold ratio_to_SF. destruct (Z.abs n =? 0); [reflexivity|].
  apply binary_normalize_valid.
Qed.

Lemma Prim2SF_float_lit (a : Z) (d : positive) :
  Prim2SF (float_lit (a # d)) = ratio_to_SF a (Zpos d).
Proof. apply Prim2SF_SF2Prim, ratio_to_SF_valid. Qed.

Lemma zero_le_binary_normalize (z e : Z) :
  0 <= z -> SFleb (S754_zero false) (binary_normalize prec emax z e false) = true.
Proof.
  destruct z as [|m|m]; intros H; cbn [binary_normalize];
    [reflexivity | apply zero_le_binary_round | lia].
Qed.

(** The quotient of a non-negative count by a positive reference is a
    non-negative float. *)
Lemma ratio_nonneg (a : Z) (d : positive) :
  0 <= a -> (0 <=? float_lit (a # d))%float = true.
Proof.
  intros Ha. rewrite leb_spec, Prim2SF_zero, Prim2SF_float_lit.
  unfold ratio_to_SF. destruct (Z.abs a =? 0); [reflexivity|].
  destruct (a <? 0) eqn:Neg; [apply Z.ltb_lt in Neg; lia|].
  apply zero_le_binary_normalize.
  assert (0 <= Z.abs a * 2 ^ Z.max 0 (55 + Z.log2 (Zpos d) - Z.log2 (Z.abs a)) / Zpos d).
  { apply Z.div_pos; [|lia].
    apply Z.mul_nonneg_nonneg; [lia | apply Z.pow_nonneg; lia]. }
  destruct (_ =? 0); lia.
Qed.

Lemma binary_normalize_not_nan (z e : Z) :
  binary_normalize prec emax z e false <> S754_nan.
Proof.
  assert (H : forall s m, binary_round prec emax s m e <> S754_nan).
  { intros s m. destruct (binary_round_pack s m e) as (q & E & -> & Hq & _).
    unfold pack.
    assert (0 <= q / 2 ^ Z.max 0 (Zdigits2 q - prec))
      by (apply Z.div_pos; [lia | apply Z.pow_pos_nonneg; lia]).
    destruct (q / 2 ^ _); try discriminate; [|lia].
    destruct (_ <=? _); discriminate. }
  destruct z; cbn [binary_normalize]; [discriminate | apply H | apply H].
Qed.

(** A finite non-zero factor and a finite term keep a number a number. *)
Lemma pack_not_nan (s : bool) (q E : Z) : 0 <= q -> pack s q E <> S754_nan.
Proof.
  intros Hq. unfold pack.
  assert (0 <= q / 2 ^ Z.max 0 (Zdigits2 q - prec))
    by (apply Z.div_pos; [lia | apply Z.pow_pos_nonneg; lia]).
  destruct (q / 2 ^ _); try discriminate; [|lia].
  destruct (_ <=? _); discriminate.
Qed.

Lemma mul_finite_not_nan (a c : float) (s : bool) (m : positive) (e : Z) :
  is_nan a = false -> Prim2SF c = S754_finite s m e -> is_nan (a * c) = false.
Proof.
  rewrite !nan_Prim2SF, mul_spec. unfold SF64mul. intros Na Ec.
  pose proof (Prim2SF_valid a) as Va. pose proof (Prim2SF_valid c) as Vc.
  rewrite Ec in *.
  destruct (Prim2SF a) as [sa|sa| |sa ma ea]; cbn [SFmul]; try discriminate;
    try contradiction.
  unfold valid_binary in *. cbn [SpecFloat.valid_binary] in *.
  apply bounded_canonical in Va. apply bounded_canonical in Vc.
  rewrite binary_round_aux_exact by (apply product_exponent; assumption).
  apply pack_not_nan, round_shift_nonneg. lia.
Qed.

Lemma add_finite_not_nan (c a : float) (s : bool) (m : positive) (e : Z) :
  Prim2SF c = S754_finite s m e -> is_nan a = false -> is_nan (c + a) = false.
Proof.
  rewrite !nan_Prim2SF, add_spec. unfold SF64add. intros -> Na.
  destruct (Prim2SF a) as [sa|sa| |sa ma ea]; cbn [SFadd]; try discriminate;
    try contradiction.
  apply binary_normalize_not_nan.
Qed.

Lemma binary64_of_Z_mono (z1 z2 : Z) :
  z1 <= z2 -> (binary64_of_Z z1 <=? binary64_of_Z z2)%float = true.
Proof.
  intros H. rewrite leb_spec, !Prim2SF_binary64_of_Z.
  apply binary_normalize_mono. cbn. lia.
Qed.

Lemma binary64_of_Z_not_nan (z : Z) : is_nan (binary64_of_Z z) = false.
Proof. rewrite nan_Prim2SF, Prim2SF_binary64_of_Z. apply binary_normalize_not_nan. Qed.

(** The depth factor is not negative in backscatter mode and for a gauge
    depth of -94 or more. *)
Lemma depth_factor_nonneg (depth : string) (gd : Z) :
  depth = "BS"%string \/ -94 <= gd ->
  (0 <=? spec_depth_factor depth gd)%float = true.
Proof.
  intros H. unfold spec_depth_factor.
  destruct (String.eqb_spec depth "BS") as [_|Hne]; [vm_compute; reflexivity|].
  destruct H as [H|H]; [contradiction|].
  assert (F1 : exists s m e, Prim2SF (float_lit 1) = S754_finite s m e)
    by (vm_compute; eauto).
  assert (F2 : exists s m e, Prim2SF (float_lit 0.01) = S754_finite s m e)
    by (vm_compute; eauto).
  destruct F1 as (s1 & m1 & e1 & F1). destruct F2 as (s2 & m2 & e2 & F2).
  set (a := binary64_of_Z (gd - 6)).
  assert (Na : is_nan a = false) by apply binary64_of_Z_not_nan.
  assert (Np : is_nan (a * float_lit 0.01) = false)
    by (eapply mul_finite_not_nan; eassumption).
  apply (leb_nonneg_trans
           (float_lit 1 + binary64_of_Z (-100) * float_lit 0.01)%float);
    [vm_compute; reflexivity|].
  apply add_le_mono_l.
  - apply mul_le_mono_signed.
    + apply binary64_of_Z_mono. lia.
    + vm_compute. reflexivity.
    + vm_compute. reflexivity.
    + exact Np.
  - vm_compute. reflexivity.
  - eapply add_finite_not_nan; eassumption.
Qed.

Lemma sqrt_sign_clear (t : float) :
  get_sign t = false ->
  is_nan (PrimFloat.sqrt t) = true \/ (0 <=? PrimFloat.sqrt t)%float = true.
Proof.
  rewrite get_sign_Prim2SF, is_nan_Prim2SF, leb_spec, sqrt_spec, Prim2SF_zero.
  intros Hs.
  destruct (Prim2SF t) as [s|s| |s m e] eqn:E; subst;
    [right; reflexivity | right; reflexivity | left; reflexivity | right].
  pose proof (Prim2SF_valid t) as V. rewrite E in V.
  unfold valid_binary in V. cbn [SpecFloat.valid_binary] in V.
  apply bounded_canonical in V.
  destruct (SFsqrt_finite_pack m e V) as (q & E' & Hq & Hq0).
  unfold SF64sqrt. rewrite Hq. apply zero_le_pack. exact Hq0.
Qed.

(** A base count [v * r * f] with non-negative factors [r] and [f]
    follows the order of [v]. *)
Lemma scaled_order (v1 v2 r f : float) :
  (is_nan v1 = false -> is_nan v2 = false -> (v1 <=? v2)%float = true) ->
  is_nan r = true \/ (0 <=? r)%float = true ->
  (0 <=? f)%float = true ->
  is_nan (v1 * r * f) || is_nan (v2 * r * f)
  || (v1 * r * f <=? v2 * r * f)%float = true.
Proof.
  intros Hv Hr Hf.
  destruct (is_nan (v1 * r * f)) eqn:N1; [reflexivity|].
  destruct (is_nan (v2 * r * f)) eqn:N2; [reflexivity|].
  cbn [orb].
  destruct (mul_not_nan _ _ N1) as [N1r _]. destruct (mul_not_nan _ _ N2) as [N2r _].
  destruct (mul_not_nan _ _ N1r) as [Nv1 Nr].
  destruct (mul_not_nan _ _ N2r) as [Nv2 _].
  destruct Hr as [Hr|Hr]; [congruence|].
  apply mul_le_mono_signed; try assumption.
  apply mul_le_mono_signed; try assumption.
  apply Hv; assumption.
Qed.

(** ** The direction of the calibration *)

Lemma dict_get_all {V : Type} (P : V -> Prop) (key : string)
    (d : list (string * V)) (default : V) :
  Forall (fun kv => P (snd kv)) d -> P default -> P (dict_get key d default).
Proof.
  intros Hd Hdef. induction Hd as [|[k v] d Hv _ IH]; cbn [dict_get].
  - exact Hdef.
  - destruct (String.eqb k key); [exact Hv | exact IH].
Qed.

(** No slope of the calibration table is positive, nor is the default
    slope; no moisture factor is negative. *)
Lemma slopes_not_positive (model serial : string) (sd sm : Z) (soil : string) :
  (float_lit (slope (dict_get soil
                       (soil_density_equations (__init__ model serial sd sm))
                       default_soil_params)) <=? 0)%float = true.
Proof.
  apply (dict_get_all (fun p => (float_lit (slope p) <=? 0)%float = true)).
  - repeat constructor; vm_compute; reflexivity.
  - vm_compute. reflexivity.
Qed.

Lemma moisture_factors_not_negative (model serial : string) (sd sm : Z)
    (soil : string) :
  (0 <=? float_lit (dict_get soil
                      (soil_moisture_factors (__init__ model serial sd sm))
                      default_moisture_factor))%float = true.
Proof.
  apply (dict_get_all (fun f => (0 <=? float_lit f)%float = true)).
  - repeat constructor; vm_compute; reflexivity.
  - vm_compute. reflexivity.
Qed.

(** X13. In binary64, for a simulator with a non-negative density
    standard count, in backscatter mode or with a gauge depth of -94 or
    more, at a duration whose sign bit is clear on a platform whose
    [pow(t, 0.5)] is the correctly rounded square root: when the dry
    density increases, the density base count does not (unless one of the
    two base counts is NaN), for every soil type, known or not. No slope
    of the table is positive. *)
Theorem denser_soil_counts_less (libm : Libm) (model serial : string) (sd sm : Z)
    (depth soil : string) (gd : Z) (t dry1 dry2 : float) :
  0 <= sd -> depth = "BS"%string \/ -94 <= gd ->
  get_sign t = false -> c_pow libm t 0.5 = PrimFloat.sqrt t ->
  (dry1 <=? dry2)%float = true ->
  ordered_bases
    (density_base_count (H := float_arithmetic libm)
       (__init__ model serial sd sm) dry2 depth t soil gd)
    (density_base_count (H := float_arithmetic libm)
       (__init__ model serial sd sm) dry1 depth t soil gd).
Proof.
  intros Hsd Hgd Hs Hp Hdry.
  rewrite !(density_base_closed_form libm _ t Hs Hp).
  destruct (density_base_overflows _ depth gd); [exact I|].
  unfold ordered_bases, density_base_formula.
  apply scaled_order.
  - intros N2 N1.
    destruct (mul_not_nan _ _ N1) as [N1' _]. destruct (mul_not_nan _ _ N2) as [N2' _].
    apply mul_le_mono_signed; try assumption; [|apply depth_factor_nonneg; exact Hgd].
    apply add_le_mono_l; try assumption.
    destruct (add_not_nan _ _ N1') as [_ U1]. destruct (add_not_nan _ _ N2') as [_ U2].
    rewrite (mul_comm _ dry2), (mul_comm _ dry1) in *.
    apply mul_le_anti; try assumption.
    apply slopes_not_positive.
  - apply sqrt_sign_clear. exact Hs.
  - apply ratio_nonneg. exact Hsd.
Qed.

Lemma denser_soil_counts_less_witness :
  0 <= 1570 /\ -94 <= 8 /\ get_sign 1.0%float = false /\
  c_pow Reference.libm 1.0 0.5 = PrimFloat.sqrt 1.0 /\
  (110.0 <=? 120.0)%float = true /\
  ordered_bases
    (density_base_count (H := float_arithmetic Reference.libm)
       (__init__ "3440" "12345" 1570 670) 120.0%float "DS" 1.0%float
       "CL (Lean clay)" 8)
    (density_base_count (H := float_arithmetic Reference.libm)
       (__init__ "3440" "12345" 1570 670) 110.0%float "DS" 1.0%float
       "CL (Lean clay)" 8).
Proof.
  split; [lia|]. split; [lia|]. split; [reflexivity|]. split; [reflexivity|].
  split; [reflexivity|].
  apply (denser_soil_counts_less Reference.libm "3440" "12345" 1570 670
           "DS" "CL (Lean clay)" 8 1.0%float 110.0%float 120.0%float);
    first [lia | reflexivity | (right; lia)].
Defined.

(** X14. In binary64, for a simulator with a non-negative moisture
    standard count, at a duration whose sign bit is clear on a platform
    whose [pow(t, 0.5)] is the correctly rounded square root: when the
    moisture content increases, the moisture base count does not decrease
    (unless one of the two base counts is NaN), for every soil type, known
    or not. No moisture factor of the table is negative. *)
Theorem wetter_soil_counts_more (libm : Libm) (model serial : string) (sd sm : Z)
    (soil : string) (t m1 m2 : float) :
  0 <= sm ->
  get_sign t = false -> c_pow libm t 0.5 = PrimFloat.sqrt t ->
  (m1 <=? m2)%float = true ->
  ordered_bases
    (moisture_base_count (H := float_arithmetic libm)
       (__init__ model serial sd sm) m1 t soil)
    (moisture_base_count (H := float_arithmetic libm)
       (__init__ model serial sd sm) m2 t soil).
Proof.
  intros Hsm Hs Hp Hm.
  rewrite !(moisture_base_closed_form libm _ t Hs Hp).
  destruct (moisture_base_overflows _); [exact I|].
  unfold ordered_bases, moisture_base_formula.
  apply scaled_order.
  - intros N1 N2.
    apply add_le_mono_l; try assumption.
    destruct (add_not_nan _ _ N1) as [_ U1]. destruct (add_not_nan _ _ N2) as [_ U2].
    apply mul_le_mono_signed; try assumption;
      [|apply moisture_factors_not_negative].
    destruct (mul_not_nan _ _ U1) as [W1 _]. destruct (mul_not_nan _ _ U2) as [W2 _].
    rewrite (mul_comm _ m1), (mul_comm _ m2) in *.
    apply mul_le_mono_signed; try assumption.
    vm_compute. reflexivity.
  - apply sqrt_sign_clear. exact Hs.
  - apply ratio_nonneg. exact Hsm.
Qed.

Lemma wetter_soil_counts_more_witness :
  0 <= 670 /\ get_sign 1.0%float = false /\
  c_pow Reference.libm 1.0 0.5 = PrimFloat.sqrt 1.0 /\
  (6.0 <=? 8.0)%float = true /\
  ordered_bases
    (moisture_base_count (H := float_arithmetic Reference.libm)
       (__init__ "3440" "12345" 1570 670) 6.0%float 1.0%float "CL (Lean clay)")
    (moisture_base_count (H := float_arithmetic Reference.libm)
       (__init__ "3440" "12345" 1570 670) 8.0%float 1.0%float "CL (Lean clay)").
Proof.
  split; [lia|]. split; [reflexivity|]. split; [reflexivity|].
  split; [reflexivity|].
  apply (wetter_soil_counts_more Reference.libm "3440" "12345" 1570 670
           "CL (Lean clay)" 1.0%float 6.0%float 8.0%float);
    first [lia | reflexivity].
Defined.

(** ** Noise and jitter of a reading *)

Lemma jitter_bounds (k : nat) : -1 <= nth (k mod 3)%nat [-1; 0; 1] 0 <= 1.
Proof.
  pose proof (Nat.mod_upper_bound k 3 ltac:(lia)) as Hk.
  destruct (k mod 3)%nat as [|[|[|j]]]; cbn; lia.
Qed.

(** X15. A reading that returns is the truncated product of the base count
    and a noise factor, plus a jitter of at most one, clamped: the noise
    factor lies between 0.85 and 1.15 for the density count and between
    0.82 and 1.18 for the moisture count, whatever the normal variate and
    the sine or cosine term are (infinite or NaN included). *)
Theorem readings_are_bounded_noise (libm : Libm) (self : TroxlerGaugeSimulator) :
  (forall dry wet depth t soil gd r n r',
      calculate_density_count libm self dry wet depth t soil gd r = Ok (n, r') ->
      exists b noise count j,
        density_base_count (H := float_arithmetic libm) self dry depth t soil gd
        = Ok (PyFloat b) /\
        within 0.85 1.15 noise = true /\
        py_int_of_float (b * noise)%float = Ok count /\
        -1 <= j <= 1 /\
        n = py_max_int 500 (py_min_int (count + j) 2000)) /\
  (forall m t soil r n r',
      calculate_moisture_count libm self m t soil r = Ok (n, r') ->
      exists b noise count j,
        moisture_base_count (H := float_arithmetic libm) self m t soil
        = Ok (PyFloat b) /\
        within 0.82 1.18 noise = true /\
        py_int_of_float (b * noise)%float = Ok count /\
        -1 <= j <= 1 /\
        n = py_max_int 50 (py_min_int (count + j) 500)).
Proof.
  split.
  - intros dry wet depth t soil gd r n r'.
    unfold calculate_density_count, density_base_count.
    rewrite density_count_from_cases.
    destruct (density_base_from _ _ _ _ _ _) as [[b|re im]|e|]; try discriminate.
    + destruct (scale_refused _); try discriminate.
      rewrite py_int_mul_float.
      destruct (py_int_of_float _) as [count|e|] eqn:Hc; try discriminate.
      intros H. injection H as <- _.
      eexists b, _, count, _. split; [reflexivity|].
      split; [|split; [exact Hc|split; [apply jitter_bounds|reflexivity]]].
      unfold density_randomization. apply clamp_within. reflexivity.
    + destruct (scale_refused _); discriminate.
  - intros m t soil r n r'.
    unfold calculate_moisture_count, moisture_base_count.
    rewrite moisture_count_from_cases.
    destruct (moisture_base_from _ _ _ _) as [[b|re im]|e|]; try discriminate.
    rewrite py_int_mul_float.
    destruct (py_int_of_float _) as [count|e|] eqn:Hc; try discriminate.
    intros H. injection H as <- _.
    eexists b, _, count, _. split; [reflexivity|].
    split; [|split; [exact Hc|split; [apply jitter_bounds|reflexivity]]].
    unfold moisture_randomization. apply clamp_within. reflexivity.
Qed.

Lemma readings_are_bounded_noise_witness :
  exists b noise count j,
    density_base_count (H := float_arithmetic Reference.libm) default_simulator
      115.8%float "DS" 1.0%float "CL (Lean clay)" 8 = Ok (PyFloat b) /\
    within 0.85 1.15 noise = true /\
    py_int_of_float (b * noise)%float = Ok count /\
    -1 <= j <= 1 /\
    837 = py_max_int 500 (py_min_int (count + j) 2000).
Proof.
  assert (E : exists r',
             calculate_density_count Reference.libm default_simulator
               115.8%float 125.1%float "DS" 1.0%float "CL (Lean clay)" 8 quiet_rng
             = Ok (837, r'))
    by (vm_compute; eexists; reflexivity).
  destruct E as (r' & E).
  exact (proj1 (readings_are_bounded_noise Reference.libm default_simulator)
           _ _ _ _ _ _ _ _ _ E).
Defined.

(** ** What a batch takes from the generators *)

Section Consumption.
Variable libm : Libm.

Lemma consumed_refl (r : rng) : consumed 0 0 r r.
Proof. unfold consumed. lia. Qed.

Lemma consumed_trans (k1 j1 k2 j2 : nat) (r1 r2 r3 : rng) :
  consumed k1 j1 r1 r2 -> consumed k2 j2 r2 r3 ->
  consumed (k1 + k2) (j1 + j2) r1 r3.
Proof. unfold consumed. lia. Qed.

Lemma draw_compactions_consumed :
  forall n acc r out r',
    draw_compactions n acc r = Ok (out, r') -> consumed n 0 r r'.
Proof.
  induction n as [|n IH]; intros acc r out r'.
  - cbn. intros H. injection H as _ <-. apply consumed_refl.
  - cbn [draw_compactions]. unfold bind, gen_monad, np_random_normal.
    destruct (scale_refused _); try discriminate.
    intros H. apply IH in H. unfold consumed in *. cbn in H. lia.
Qed.

Lemma dedupe_while_consumed (lo hi : float) (used : list float) :
  forall n x r y r',
    dedupe_while n lo hi x used r = Ok (y, r') -> consumed 0 0 r r'.
Proof.
  induction n as [|n IH]; intros x r y r'; cbn [dedupe_while];
    destruct (float_in x used); try discriminate.
  - cbn. intros H. injection H as _ <-. apply consumed_refl.
  - unfold bind, gen_monad, random_uniform. intros H. apply IH in H.
    unfold consumed in *. cbn in H. lia.
  - cbn. intros H. injection H as _ <-. apply consumed_refl.
Qed.

Lemma dedupe_compactions_consumed (fuel : nat) :
  forall indices compactions used r out r',
    dedupe_compactions fuel indices compactions used r = Ok (out, r') ->
    consumed 0 0 r r'.
Proof.
  induction indices as [|i rest IH]; intros compactions used r out r'.
  - cbn. intros H. injection H as _ <-. apply consumed_refl.
  - cbn [dedupe_compactions]. unfold bind, gen_monad, lift.
    destruct (list_get compactions _) as [c|e|]; try discriminate.
    destruct (dedupe_while fuel _ _ c used r) as [[c' r1]|e|] eqn:Hw;
      try discriminate.
    intros H. apply IH in H. apply dedupe_while_consumed in Hw.
    exact (consumed_trans 0 0 0 0 _ _ _ Hw H).
Qed.

Lemma draw_moistures_consumed (fuel : nat) (opt : float) :
  forall n moistures used r out r',
    draw_moistures fuel n opt moistures used r = Ok (out, r') ->
    consumed n 0 r r'.
Proof.
  induction n as [|n IH]; intros moistures used r out r'.
  - cbn. intros H. injection H as _ <-. apply consumed_refl.
  - cbn [draw_moistures]. unfold bind, gen_monad, np_random_normal.
    destruct (scale_refused _); try discriminate.
    destruct (dedupe_while fuel _ _ _ used _) as [[m r2]|e|] eqn:Hw;
      try discriminate.
    intros H. apply IH in H. apply dedupe_while_consumed in Hw.
    unfold consumed in *. cbn in Hw. lia.
Qed.

Lemma density_count_consumed self dry wet depth t soil gd r n r' :
  calculate_density_count libm self dry wet depth t soil gd r = Ok (n, r') ->
  r' = py_advance (np_advance r).
Proof.
  unfold calculate_density_count. rewrite density_count_from_cases.
  destruct (density_base_from _ _ _ _ _ _) as [b|e|]; try discriminate.
  destruct (scale_refused _); try discriminate.
  destruct (py_int _) as [count|e|]; try discriminate.
  intros H. now injection H as _ <-.
Qed.

Lemma moisture_count_consumed self m t soil r n r' :
  calculate_moisture_count libm self m t soil r = Ok (n, r') ->
  r' = py_advance (np_advance r).
Proof.
  unfold calculate_moisture_count. rewrite moisture_count_from_cases.
  destruct (moisture_base_from _ _ _ _) as [b|e|]; try discriminate.
  destruct (py_int _) as [count|e|]; try discriminate.
  intros H. now injection H as _ <-.
Qed.

Variable self : TroxlerGaugeSimulator.
Variables (mdd : float) (depth : string) (t : float) (soil : string) (gd : Z).
Variables compactions moistures : list float.

Lemma make_record_consumed (i : Z) (r : rng) (rec : TestRecord) (r' : rng) :
  make_record libm self mdd depth t soil gd compactions moistures i r
  = Ok (rec, r') ->
  np_pos r' = (np_pos r + 2)%nat /\ py_pos r' = (py_pos r + 2)%nat.
Proof.
  unfold make_record, bind, ret, gen_monad, lift.
  destruct (list_get compactions _) as [c|e|]; try discriminate.
  destruct (list_get moistures _) as [m|e|]; try discriminate.
  destruct (calculate_density_count _ _ _ _ _ _ _ _ _) as [[dc r1]|e|] eqn:Hd;
    try discriminate.
  destruct (calculate_moisture_count _ _ _ _ _ _) as [[mc r2]|e|] eqn:Hm;
    try discriminate.
  apply density_count_consumed in Hd. apply moisture_count_consumed in Hm.
  intros H. injection H as _ <-. subst. cbn. lia.
Qed.

Lemma build_results_consumed :
  forall tests results r out r',
    build_results libm self mdd depth t soil gd compactions moistures
      tests results r = Ok (out, r') ->
    np_pos r' = (np_pos r + 2 * List.length tests)%nat /\
    py_pos r' = (py_pos r + 2 * List.length tests)%nat.
Proof.
  induction tests as [|i rest IH]; intros results r out r'.
  - cbn. intros H. injection H as _ <-. lia.
  - cbn [build_results]. unfold bind, gen_monad.
    destruct (make_record _ _ _ _ _ _ _ _ _ _ r) as [[rec r1]|e|] eqn:Hrec;
      try discriminate.
    apply make_record_consumed in Hrec.
    intros H. apply IH in H. cbn [List.length]. lia.
Qed.
End Consumption.

(** X16. A completed batch of [n] tests takes exactly [4 * n] normal
    variates from numpy's generator (one per compaction value, one per
    moisture value and one per reading, two readings a test), however many
    retries there were;
    from [random] it takes at least [2 * n] draws (the jitter of each
    reading), and more only for retries. *)
Theorem batch_consumption (libm : Libm) (fuel : nat) (self : TroxlerGaugeSimulator)
    (mdd opt : float) (n : Z) (depth : string) (t : float) (soil : string)
    (gd : Z) (r : rng) (batch : list TestRecord) (r' : rng) :
  generate_sample_tests libm fuel self mdd opt n depth t soil gd r = Ok (batch, r') ->
  np_pos r' = (np_pos r + 4 * Z.to_nat n)%nat /\
  (py_pos r + 2 * Z.to_nat n <= py_pos r')%nat.
Proof.
  unfold generate_sample_tests, bind, gen_monad.
  destruct (draw_compactions _ _ _) as [[c0 r1]|e|] eqn:H0; try discriminate.
  destruct (dedupe_compactions _ _ _ _ _) as [[c1 r2]|e|] eqn:H1; try discriminate.
  destruct (draw_moistures _ _ _ _ _ _) as [[ms r3]|e|] eqn:H2; try discriminate.
  intros H3.
  apply draw_compactions_consumed in H0.
  apply dedupe_compactions_consumed in H1.
  apply draw_moistures_consumed in H2.
  apply build_results_consumed in H3. rewrite range_length in H3.
  unfold consumed in *.
  replace (Z.to_nat (n + 1 - 1)) with (Z.to_nat n) in H3 by lia.
  lia.
Qed.

Lemma batch_consumption_witness :
  exists batch r',
    generate_sample_tests Reference.libm 50 default_simulator
      120.0%float 8.0%float 3 "DS" 1.0%float "CL (Lean clay)" 8 retry_rng
    = Ok (batch, r') /\
    np_pos r' = (np_pos retry_rng + 4 * Z.to_nat 3)%nat /\
    (py_pos retry_rng + 2 * Z.to_nat 3 <= py_pos r')%nat.
Proof.
  assert (E : exists batch r',
             generate_sample_tests Reference.libm 50 default_simulator
               120.0%float 8.0%float 3 "DS" 1.0%float "CL (Lean clay)" 8 retry_rng
             = Ok (batch, r'))
    by (vm_compute; eexists _, _; reflexivity).
  destruct E as (batch & r' & E). exists batch, r'. split; [exact E|].
  exact (batch_consumption _ _ _ _ _ _ _ _ _ _ _ _ _ E).
Defined.
